(** * Monte Carlo tennis match simulator: a shallow embedding

    The definitions below follow
    [code/replication/referee2_replicate_mc_engine.py] function by
    function.  Python floats are IEEE-754 binary64 values and are modelled by
    Rocq's primitive floats; Python integers are unbounded and are modelled
    by [Z].  The process-wide random generator is modelled as an explicit
    [RandomSource] that every simulator threads through. *)

From Stdlib Require Import Floats ZArith List String Bool Lia DecimalString.
Import ListNotations.

Set Warnings "-inexact-float".

Local Open Scope Z_scope.

(* ======================================================================= *)
(** ** Python exceptions and the random generator *)
(* ======================================================================= *)

(** The exceptions the modelled code can raise: a float or integer division
    by zero, and numpy's refusal of a seed outside [0, 2**32 - 1]. *)
Inductive exn : Type :=
| ZeroDivisionError
| ValueError.

(** The state of the generator: the values its future calls will return.
    [uniforms] are the results of the coming [random.random()] calls, in
    order; [choices] are the results of the coming [random.choice([1, 2])]
    calls ([true] for 1, [false] for 2). *)
Record RandomSource : Type := mkSource {
  uniforms : list float;
  choices : list bool
}.

(** What a computation does on a given generator state: it returns a value
    and leaves a new state, or raises, or asks for more draws than the
    recorded state holds ([Starved]: the run is cut before its end). *)
Inductive outcome (A : Type) : Type :=
| Ret (a : A) (rs : RandomSource)
| Raise (e : exn)
| Starved.

Arguments Ret {A} a rs.
Arguments Raise {A} e.
Arguments Starved {A}.

Definition M (A : Type) : Type := RandomSource -> outcome A.

Definition ret {A} (a : A) : M A := fun rs => Ret a rs.

Definition bind {A B} (m : M A) (k : A -> M B) : M B :=
  fun rs =>
    match m rs with
    | Ret a rs' => k a rs'
    | Raise e => Raise e
    | Starved => Starved
    end.

Definition raise {A} (e : exn) : M A := fun _ => Raise e.

Definition starve {A} : M A := fun _ => Starved.

Declare Scope sim_scope.
Delimit Scope sim_scope with sim.
Notation "x <- m ;; k" := (bind m (fun x => k))
  (at level 61, m at next level, right associativity) : sim_scope.
Notation "m ;;; k" := (bind m (fun _ => k))
  (at level 61, right associativity) : sim_scope.
Local Open Scope sim_scope.

(** [random.random()]: the next uniform draw. *)
Definition random_random : M float :=
  fun rs =>
    match uniforms rs with
    | [] => Starved
    | u :: us => Ret u (mkSource us (choices rs))
    end.

(** [random.choice([1, 2])]. *)
Definition random_choice_1_2 : M Z :=
  fun rs =>
    match choices rs with
    | [] => Starved
    | c :: cs => Ret (if c then 1 else 2) (mkSource (uniforms rs) cs)
    end.

(* ======================================================================= *)
(** ** Float operations as Python performs them *)
(* ======================================================================= *)

(** [a / b] on floats: Python raises when the divisor compares equal to
    zero and otherwise divides as IEEE-754 does. *)
Definition float_truediv (a b : float) : M float :=
  if (b =? 0)%float then raise ZeroDivisionError else ret (a / b)%float.

(** Built-in [min(a, b)] and [max(a, b)]: the first argument is kept unless
    the second is strictly smaller (resp. larger). *)
Definition py_min (a b : float) : float := if (b <? a)%float then b else a.
Definition py_max (a b : float) : float := if (a <? b)%float then b else a.

(** Conversion of a Python integer to the nearest float (ties to even).
    Python refuses integers of magnitude 2**1024 or more with an
    [OverflowError]; no count of trials, sets, games or points comes near. *)
Definition float_of_Z (n : Z) : float :=
  SF2Prim (binary_normalize prec emax n 0 false).

(** [a / b] on integers (true division).  The quotient of the two
    conversions is the correctly rounded quotient whenever both integers
    are below 2**53 in magnitude, which covers every count a run can reach. *)
Definition int_truediv (a b : Z) : M float :=
  if b =? 0 then raise ZeroDivisionError
  else ret (float_of_Z a / float_of_Z b)%float.

(* ======================================================================= *)
(** ** Configuration *)
(* ======================================================================= *)

Definition USE_OPPONENT_ADJUSTMENT : bool := true.
Definition AVG_RETURN_VS_FIRST : float := 0.35%float.
Definition AVG_RETURN_VS_SECOND : float := 0.50%float.

(* ======================================================================= *)
(** ** Data structures *)
(* ======================================================================= *)

Record PlayerStats : Type := mkPlayerStats {
  first_in_pct : float;
  first_won_pct : float;
  second_won_pct : float;
  ace_pct : float;
  df_pct : float;
  return_vs_first : option float;
  return_vs_second : option float
}.

Record PointResult : Type := mkPointResult {
  point_winner : Z;          (* 1 = server, 0 = returner *)
  point_type : string;       (* "ace", "double_fault" or "rally" *)
  serve : string             (* "first" or "second" *)
}.

Record GameResult : Type := mkGameResult {
  game_winner : Z;           (* 1 = server, 0 = returner *)
  game_score : Z * Z         (* (server_points, returner_points) *)
}.

Record TiebreakResult : Type := mkTiebreakResult {
  tb_winner : Z;             (* 1 or 2 *)
  tb_score : Z * Z           (* (p1_points, p2_points) *)
}.

Record SetResult : Type := mkSetResult {
  set_winner : Z;            (* 1 or 2 *)
  set_score : Z * Z;         (* (p1_games, p2_games) *)
  tiebreak : bool;
  tiebreak_score : option (Z * Z)
}.

Record MatchResult : Type := mkMatchResult {
  match_winner : Z;          (* 1 or 2 *)
  match_score : Z * Z;       (* (p1_sets, p2_sets) *)
  set_scores : list (Z * Z);
  score_string : string
}.

Record EstimationResult : Type := mkEstimationResult {
  p1_win_prob : float;
  p2_win_prob : float;
  ci_lower : float;
  ci_upper : float;
  n_sims : Z
}.

(* ======================================================================= *)
(** ** Point simulation *)
(* ======================================================================= *)

Definition simulate_point
    (server_stats : PlayerStats)
    (returner_stats : option PlayerStats)
    (use_adjustment : option bool) : M PointResult :=
  let use_adjustment :=
    match use_adjustment with
    | None => USE_OPPONENT_ADJUSTMENT
    | Some b => b
    end in
  u <- random_random ;;
  let first_in := (u <? first_in_pct server_stats)%float in
  if first_in then
    ace_rate_on_first <-
      float_truediv (ace_pct server_stats) (first_in_pct server_stats) ;;
    u <- random_random ;;
    if (u <? ace_rate_on_first)%float then
      ret (mkPointResult 1 "ace" "first")
    else
      let win_prob :=
        match use_adjustment, returner_stats with
        | true, Some r =>
            match return_vs_first r with
            | Some rvf =>
                let adjustment := (AVG_RETURN_VS_FIRST - rvf)%float in
                let win_prob := (first_won_pct server_stats + adjustment)%float in
                py_max 0.3%float (py_min 0.95%float win_prob)
            | None => first_won_pct server_stats
            end
        | _, _ => first_won_pct server_stats
        end in
      u <- random_random ;;
      let server_wins := (u <? win_prob)%float in
      ret (mkPointResult (if server_wins then 1 else 0) "rally" "first")
  else
    df_rate_on_second <-
      float_truediv (df_pct server_stats) (1 - first_in_pct server_stats)%float ;;
    u <- random_random ;;
    if (u <? df_rate_on_second)%float then
      ret (mkPointResult 0 "double_fault" "second")
    else
      let win_prob :=
        match use_adjustment, returner_stats with
        | true, Some r =>
            match return_vs_second r with
            | Some rvs =>
                let adjustment := (AVG_RETURN_VS_SECOND - rvs)%float in
                let win_prob := (second_won_pct server_stats + adjustment)%float in
                py_max 0.2%float (py_min 0.85%float win_prob)
            | None => second_won_pct server_stats
            end
        | _, _ => second_won_pct server_stats
        end in
      u <- random_random ;;
      let server_wins := (u <? win_prob)%float in
      ret (mkPointResult (if server_wins then 1 else 0) "rally" "second").

(* ======================================================================= *)
(** ** Loops *)
(* ======================================================================= *)

(** The source's [while] loops have no iteration bound.  Each of them is a
    [Fixpoint] on a fuel counter; a simulator starts its loop with more fuel
    than there are uniform draws left, and every iteration consumes at
    least one draw, so the fuel never runs out before the draws do (lemmas
    [game_loop_fuel], [tiebreak_loop_fuel], [set_loop_fuel] and
    [match_loop_fuel] below). *)
Definition with_fuel {A} (loop : nat -> M A) : M A :=
  fun rs => loop (S (List.length (uniforms rs))) rs.

(* ======================================================================= *)
(** ** Game simulation *)
(* ======================================================================= *)

Fixpoint game_loop (fuel : nat)
    (server_stats : PlayerStats) (returner_stats : option PlayerStats)
    (use_adjustment : option bool)
    (server_points returner_points : Z) : M GameResult :=
  match fuel with
  | O => starve
  | S fuel =>
      point_result <- simulate_point server_stats returner_stats use_adjustment ;;
      let server_points :=
        if point_winner point_result =? 1 then server_points + 1 else server_points in
      let returner_points :=
        if point_winner point_result =? 1 then returner_points else returner_points + 1 in
      if (server_points >=? 4) && (server_points - returner_points >=? 2) then
        ret (mkGameResult 1 (server_points, returner_points))
      else if (returner_points >=? 4) && (returner_points - server_points >=? 2) then
        ret (mkGameResult 0 (server_points, returner_points))
      else
        game_loop fuel server_stats returner_stats use_adjustment
                  server_points returner_points
  end.

Definition simulate_game
    (server_stats : PlayerStats) (returner_stats : option PlayerStats)
    (use_adjustment : option bool) : M GameResult :=
  with_fuel (fun fuel =>
    game_loop fuel server_stats returner_stats use_adjustment 0 0).

(* ======================================================================= *)
(** ** Tiebreak simulation *)
(* ======================================================================= *)

Fixpoint tiebreak_loop (fuel : nat)
    (p1_stats p2_stats : PlayerStats) (to_points : Z)
    (use_adjustment : option bool)
    (p1_points p2_points point_num : Z) : M TiebreakResult :=
  match fuel with
  | O => starve
  | S fuel =>
      let server_is_p1 :=
        if point_num =? 0 then true
        else ((point_num - 1) / 2) mod 2 =? 0 in
      point_winner <-
        (if server_is_p1 then
           point_result <- simulate_point p1_stats (Some p2_stats) use_adjustment ;;
           ret (if point_winner point_result =? 1 then 1 else 2)
         else
           point_result <- simulate_point p2_stats (Some p1_stats) use_adjustment ;;
           ret (if point_winner point_result =? 1 then 2 else 1)) ;;
      let p1_points := if point_winner =? 1 then p1_points + 1 else p1_points in
      let p2_points := if point_winner =? 1 then p2_points else p2_points + 1 in
      let point_num := point_num + 1 in
      if (p1_points >=? to_points) && (p1_points - p2_points >=? 2) then
        ret (mkTiebreakResult 1 (p1_points, p2_points))
      else if (p2_points >=? to_points) && (p2_points - p1_points >=? 2) then
        ret (mkTiebreakResult 2 (p1_points, p2_points))
      else
        tiebreak_loop fuel p1_stats p2_stats to_points use_adjustment
                      p1_points p2_points point_num
  end.

Definition simulate_tiebreak
    (p1_stats p2_stats : PlayerStats) (to_points : Z)
    (use_adjustment : option bool) : M TiebreakResult :=
  with_fuel (fun fuel =>
    tiebreak_loop fuel p1_stats p2_stats to_points use_adjustment 0 0 0).

(* ======================================================================= *)
(** ** Set simulation *)
(* ======================================================================= *)

Fixpoint set_loop (fuel : nat)
    (p1_stats p2_stats : PlayerStats) (tiebreak_at : Z) (final_set_tb : string)
    (use_adjustment : option bool)
    (p1_games p2_games current_server : Z) : M SetResult :=
  match fuel with
  | O => starve
  | S fuel =>
      game_winner <-
        (if current_server =? 1 then
           game_result <- simulate_game p1_stats (Some p2_stats) use_adjustment ;;
           ret (if game_winner game_result =? 1 then 1 else 2)
         else
           game_result <- simulate_game p2_stats (Some p1_stats) use_adjustment ;;
           ret (if game_winner game_result =? 1 then 2 else 1)) ;;
      let p1_games := if game_winner =? 1 then p1_games + 1 else p1_games in
      let p2_games := if game_winner =? 1 then p2_games else p2_games + 1 in
      if (p1_games >=? 6) && (p1_games - p2_games >=? 2) then
        ret (mkSetResult 1 (p1_games, p2_games) false None)
      else if (p2_games >=? 6) && (p2_games - p1_games >=? 2) then
        ret (mkSetResult 2 (p1_games, p2_games) false None)
      else if (p1_games =? tiebreak_at) && (p2_games =? tiebreak_at) then
        if (final_set_tb =? "none")%string then
          let current_server := if current_server =? 1 then 2 else 1 in
          set_loop fuel p1_stats p2_stats tiebreak_at final_set_tb use_adjustment
                   p1_games p2_games current_server
        else
          let tb_points := if (final_set_tb =? "super")%string then 10 else 7 in
          tb_result <- simulate_tiebreak p1_stats p2_stats tb_points use_adjustment ;;
          let p1_games := if tb_winner tb_result =? 1 then p1_games + 1 else p1_games in
          let p2_games := if tb_winner tb_result =? 1 then p2_games else p2_games + 1 in
          ret (mkSetResult (tb_winner tb_result) (p1_games, p2_games)
                           true (Some (tb_score tb_result)))
      else
        let current_server := if current_server =? 1 then 2 else 1 in
        set_loop fuel p1_stats p2_stats tiebreak_at final_set_tb use_adjustment
                 p1_games p2_games current_server
  end.

Definition simulate_set
    (p1_stats p2_stats : PlayerStats) (first_server : Z) (tiebreak_at : Z)
    (final_set_tb : string) (use_adjustment : option bool) : M SetResult :=
  with_fuel (fun fuel =>
    set_loop fuel p1_stats p2_stats tiebreak_at final_set_tb use_adjustment
             0 0 first_server).

(* ======================================================================= *)
(** ** Match simulation *)
(* ======================================================================= *)

(** [f"{n}"] for an integer. *)
Definition format_int (n : Z) : string := NilZero.string_of_int (Z.to_int n).

(** [" ".join(f"{s[0]}-{s[1]}" for s in set_scores)]. *)
Definition format_score (scores : list (Z * Z)) : string :=
  String.concat " "
    (map (fun s => (format_int (fst s) ++ "-" ++ format_int (snd s))%string) scores).

Fixpoint match_loop (fuel : nat)
    (p1_stats p2_stats : PlayerStats) (sets_to_win : Z) (final_set_tb : string)
    (use_adjustment : option bool)
    (p1_sets p2_sets : Z) (set_scores : list (Z * Z)) (current_server : Z)
    : M (Z * Z * list (Z * Z)) :=
  if (p1_sets <? sets_to_win) && (p2_sets <? sets_to_win) then
    match fuel with
    | O => starve
    | S fuel =>
        let is_final_set :=
          (p1_sets =? sets_to_win - 1) && (p2_sets =? sets_to_win - 1) in
        set_result <-
          simulate_set p1_stats p2_stats current_server 6
                       (if is_final_set then final_set_tb else "normal"%string)
                       use_adjustment ;;
        let set_scores := set_scores ++ [set_score set_result] in
        let p1_sets := if set_winner set_result =? 1 then p1_sets + 1 else p1_sets in
        let p2_sets := if set_winner set_result =? 1 then p2_sets else p2_sets + 1 in
        let total_games := fst (set_score set_result) + snd (set_score set_result) in
        let current_server :=
          if total_games mod 2 =? 1
          then (if current_server =? 1 then 2 else 1)
          else current_server in
        match_loop fuel p1_stats p2_stats sets_to_win final_set_tb use_adjustment
                   p1_sets p2_sets set_scores current_server
    end
  else ret (p1_sets, p2_sets, set_scores).

Definition simulate_match
    (p1_stats p2_stats : PlayerStats) (best_of : Z) (final_set_tb : string)
    (use_adjustment : option bool) : M MatchResult :=
  let sets_to_win := (best_of + 1) / 2 in
  first_server <- random_choice_1_2 ;;
  let current_server := first_server in
  final <- with_fuel (fun fuel =>
    match_loop fuel p1_stats p2_stats sets_to_win final_set_tb use_adjustment
               0 0 [] current_server) ;;
  let '(p1_sets, p2_sets, set_scores) := final in
  let winner := if p1_sets >? p2_sets then 1 else 2 in
  let score_str := format_score set_scores in
  ret (mkMatchResult winner (p1_sets, p2_sets) set_scores score_str).

(* ======================================================================= *)
(** ** Monte Carlo probability estimation *)
(* ======================================================================= *)

(** Modelled from the spec: [scipy.stats.norm.ppf(0.975)], "the standard
    normal 97.5th-percentile quantile [z]".  The library is not part of the
    repository; the constant is the binary64 value nearest to that
    quantile. *)
Definition norm_ppf_0975 : float := 1.959963984540054%float.

Section Estimator.

(** [random.seed(seed)] replaces the generator state by one that is a
    function of the seed alone. *)
Variable seeded : Z -> RandomSource.

(** Lines 430-432.  [np.random.seed] accepts only seeds in
    [0, 2**32 - 1] and raises [ValueError] otherwise; it touches numpy's
    own generator, which the simulation never reads. *)
Definition reseed (seed : option Z) : M unit :=
  match seed with
  | None => ret tt
  | Some s =>
      fun _ =>
        if (0 <=? s) && (s <=? 4294967295) then Ret tt (seeded s)
        else Raise ValueError
  end.

(** Lines 434-438: [for _ in range(n_sims)]. *)
Fixpoint trials (n : nat)
    (p1_stats p2_stats : PlayerStats) (best_of : Z) (final_set_tb : string)
    (use_adjustment : option bool) (p1_wins : Z) : M Z :=
  match n with
  | O => ret p1_wins
  | S n =>
      result <- simulate_match p1_stats p2_stats best_of final_set_tb use_adjustment ;;
      let p1_wins := if match_winner result =? 1 then p1_wins + 1 else p1_wins in
      trials n p1_stats p2_stats best_of final_set_tb use_adjustment p1_wins
  end.

(** Lines 440-462.  The quantile and the square root are numpy floats,
    whose arithmetic is that of binary64 and whose division never raises;
    [z**2] is the correctly rounded square, and the integers [n], [2 * n]
    and [4 * n] are converted to floats where they meet one. *)
Definition estimate_win_probability
    (p1_stats p2_stats : PlayerStats) (n_sims : Z) (best_of : Z)
    (final_set_tb : string) (use_adjustment : option bool)
    (seed : option Z) : M EstimationResult :=
  reseed seed ;;;
  p1_wins <- trials (Z.to_nat n_sims) p1_stats p2_stats best_of final_set_tb
                    use_adjustment 0 ;;
  p1_win_prob <- int_truediv p1_wins n_sims ;;
  let z := norm_ppf_0975 in
  let n := n_sims in
  let p := p1_win_prob in
  let denominator := (1 + z * z / float_of_Z n)%float in
  let centre := (p + z * z / float_of_Z (2 * n))%float in
  let spread :=
    (z * sqrt ((p * (1 - p) + z * z / float_of_Z (4 * n)) / float_of_Z n))%float in
  let ci_lower := ((centre - spread) / denominator)%float in
  let ci_upper := ((centre + spread) / denominator)%float in
  ret (mkEstimationResult p1_win_prob (1 - p1_win_prob)%float ci_lower ci_upper n_sims).

End Estimator.

(* ======================================================================= *)
(** ** The documented behaviour, written from the specification *)
(* ======================================================================= *)

(** *** Point level (section 4.1 of the specification) *)

(** "Clamped to [lo, hi]": below the interval gives [lo], inside it the
    value itself, anything else [hi]. *)
Definition clamp (lo hi x : float) : float :=
  if (x <? lo)%float then lo
  else if (x <=? hi)%float then x
  else hi.

(** The win probability of a rally: the server's base rate, replaced by
    [base + (avg - rate)] clamped to [lo, hi] when the adjustment is
    enabled and the returner's rate is known. *)
Definition documented_win_prob
    (enabled : bool) (base avg : float) (returner_rate : option float)
    (lo hi : float) : float :=
  match enabled, returner_rate with
  | true, Some rate => clamp lo hi (base + (avg - rate))%float
  | _, _ => base
  end.

Definition adjustment_enabled (use_adjustment : option bool) : bool :=
  match use_adjustment with
  | Some b => b
  | None => USE_OPPONENT_ADJUSTMENT
  end.

Definition returner_rate
    (returner : option PlayerStats) (rate : PlayerStats -> option float)
    : option float :=
  match returner with
  | Some r => rate r
  | None => None
  end.

(** Steps 1-3 of the documented algorithm, as a function of the draws:
    the resolved point and the draws left over, or [None] when the draws
    run out. *)
Definition documented_point
    (server : PlayerStats) (returner : option PlayerStats)
    (use_adjustment : option bool) (draws : list float)
    : option (PointResult * list float) :=
  let enabled := adjustment_enabled use_adjustment in
  match draws with
  | u1 :: u2 :: rest =>
      if (u1 <? first_in_pct server)%float then
        if (u2 <? ace_pct server / first_in_pct server)%float then
          Some (mkPointResult 1 "ace" "first", rest)
        else
          match rest with
          | u3 :: rest' =>
              let w := documented_win_prob enabled (first_won_pct server)
                         AVG_RETURN_VS_FIRST
                         (returner_rate returner return_vs_first)
                         0.30%float 0.95%float in
              Some (mkPointResult (if (u3 <? w)%float then 1 else 0)
                                  "rally" "first", rest')
          | [] => None
          end
      else
        if (u2 <? df_pct server / (1 - first_in_pct server))%float then
          Some (mkPointResult 0 "double_fault" "second", rest)
        else
          match rest with
          | u3 :: rest' =>
              let w := documented_win_prob enabled (second_won_pct server)
                         AVG_RETURN_VS_SECOND
                         (returner_rate returner return_vs_second)
                         0.20%float 0.85%float in
              Some (mkPointResult (if (u3 <? w)%float then 1 else 0)
                                  "rally" "second", rest')
          | [] => None
          end
  | _ => None
  end.

(** A draw of [random.random()] lies in [0, 1). *)
Definition unit_draw (u : float) : bool := ((0 <=? u) && (u <? 1))%float.

(** *** The generator and errors *)

(** Every uniform draw still to come lies in [0, 1). *)
Definition unit_draws (rs : RandomSource) : Prop :=
  Forall (fun u => unit_draw u = true) (uniforms rs).

(** A computation that, on such draws, raises nothing and leaves such
    draws. *)
Definition never_raises {A} (m : M A) : Prop :=
  forall rs, unit_draws rs ->
    (forall e, m rs <> Raise e)
    /\ (forall a rs', m rs = Ret a rs' -> unit_draws rs').

(** A computation that draws: whenever it returns, at least one uniform
    draw is gone. *)
Definition draws {A} (m : M A) : Prop :=
  forall rs a rs', m rs = Ret a rs' ->
    (List.length (uniforms rs') < List.length (uniforms rs))%nat.

(** A computation that never gives draws back. *)
Definition keeps {A} (m : M A) : Prop :=
  forall rs a rs', m rs = Ret a rs' ->
    (List.length (uniforms rs') <= List.length (uniforms rs))%nat.

(** *** Invalid statistics (sections 3 and 7 of the specification) *)

Definition is_rate (x : float) : bool := ((0 <=? x) && (x <=? 1))%float.

Definition is_optional_rate (x : option float) : bool :=
  match x with
  | Some r => is_rate r
  | None => true
  end.

(** Some rate outside [0, 1], or a conditional ace or double-fault
    probability outside [0, 1], or a serve-in rate equal to 0 or 1. *)
Definition invalid_statistics (s : PlayerStats) : bool :=
  negb (is_rate (first_in_pct s) && is_rate (first_won_pct s)
        && is_rate (second_won_pct s) && is_rate (ace_pct s)
        && is_rate (df_pct s)
        && is_optional_rate (return_vs_first s)
        && is_optional_rate (return_vs_second s))
  || negb (is_rate (ace_pct s / first_in_pct s)%float)
  || negb (is_rate (df_pct s / (1 - first_in_pct s))%float)
  || (first_in_pct s =? 0)%float
  || (first_in_pct s =? 1)%float.

(** *** Replaying a point sequence (sections 4.2, 4.3 and 8) *)

(** The score after one more point, whose winner is [w]: the first
    component counts the points won by side 1. *)
Definition add_point (score : Z * Z) (w : Z) : Z * Z :=
  if w =? 1 then (fst score + 1, snd score) else (fst score, snd score + 1).

Definition tally_from (score : Z * Z) (winners : list Z) : Z * Z :=
  fold_left add_point winners score.

Definition tally (winners : list Z) : Z * Z := tally_from (0, 0) winners.

(** One side has at least [target] points and leads by at least two. *)
Definition won_by_two (target : Z) (score : Z * Z) : bool :=
  ((fst score >=? target) && (fst score - snd score >=? 2))
  || ((snd score >=? target) && (snd score - fst score >=? 2)).

(** The first [n] points of a game: each resolved by [simulate_point]. *)
Fixpoint play_points (n : nat)
    (server : PlayerStats) (returner : option PlayerStats)
    (use_adjustment : option bool) : M (list PointResult) :=
  match n with
  | O => ret []
  | S n =>
      p <- simulate_point server returner use_adjustment ;;
      ps <- play_points n server returner use_adjustment ;;
      ret (p :: ps)
  end.

(** Tiebreak rotation: point 0 is served by player 1, and a later point
    [i] by player 1 iff [((i - 1) // 2) % 2 == 0]. *)
Definition tiebreak_server_is_p1 (i : Z) : bool :=
  if i =? 0 then true else ((i - 1) / 2) mod 2 =? 0.

(** Point [i] of a tiebreak: the current server's statistics as server,
    the opponent's as returner, the winner mapped back to 1 or 2. *)
Definition tiebreak_point
    (p1 p2 : PlayerStats) (use_adjustment : option bool) (i : Z) : M Z :=
  if tiebreak_server_is_p1 i then
    r <- simulate_point p1 (Some p2) use_adjustment ;;
    ret (if point_winner r =? 1 then 1 else 2)
  else
    r <- simulate_point p2 (Some p1) use_adjustment ;;
    ret (if point_winner r =? 1 then 2 else 1).

(** Points [i], [i + 1], ..., [i + n - 1] of a tiebreak. *)
Fixpoint play_tiebreak_points (n : nat)
    (p1 p2 : PlayerStats) (use_adjustment : option bool) (i : Z) : M (list Z) :=
  match n with
  | O => ret []
  | S n =>
      w <- tiebreak_point p1 p2 use_adjustment i ;;
      ws <- play_tiebreak_points n p1 p2 use_adjustment (i + 1) ;;
      ret (w :: ws)
  end.

(** *** Replaying the games of a set (section 4.4) *)

(** One game with the given server, its winner mapped back to 1 or 2. *)
Definition set_game
    (p1 p2 : PlayerStats) (use_adjustment : option bool) (p1_serves : bool) : M Z :=
  if p1_serves then
    g <- simulate_game p1 (Some p2) use_adjustment ;;
    ret (if game_winner g =? 1 then 1 else 2)
  else
    g <- simulate_game p2 (Some p1) use_adjustment ;;
    ret (if game_winner g =? 1 then 2 else 1).

(** [n] games in a row, the server alternating every game. *)
Fixpoint play_games (n : nat)
    (p1 p2 : PlayerStats) (use_adjustment : option bool) (p1_serves : bool)
    : M (list Z) :=
  match n with
  | O => ret []
  | S n =>
      w <- set_game p1 p2 use_adjustment p1_serves ;;
      ws <- play_games n p1 p2 use_adjustment (negb p1_serves) ;;
      ret (w :: ws)
  end.

(** The final-set tiebreak policies of the interface. *)
Definition is_policy (policy : string) : bool :=
  ((policy =? "normal") || (policy =? "super") || (policy =? "none"))%string.

(** How a returned set [s] ended, given the score after its games, the
    state [rs1] of the generator after them and its final state [rs']:
    on a lead of two with six games or more, or on a tiebreak at
    [tiebreak_at] all. *)
Definition set_ending
    (p1 p2 : PlayerStats) (tiebreak_at : Z) (final_set_tb : string)
    (use_adjustment : option bool)
    (score : Z * Z) (rs1 : RandomSource)
    (s : SetResult) (rs' : RandomSource) : Prop :=
  (tiebreak s = false /\ tiebreak_score s = None /\ rs' = rs1
   /\ set_score s = score
   /\ ((set_winner s = 1 /\ fst score >= 6 /\ fst score - snd score >= 2)
       \/ (set_winner s = 2 /\ snd score >= 6 /\ snd score - fst score >= 2)))
  \/
  (tiebreak s = true /\ (final_set_tb =? "none")%string = false
   /\ score = (tiebreak_at, tiebreak_at)
   /\ exists tb,
        simulate_tiebreak p1 p2
          (if (final_set_tb =? "super")%string then 10 else 7)
          use_adjustment rs1 = Ret tb rs'
        /\ tiebreak_score s = Some (tb_score tb)
        /\ set_winner s = tb_winner tb
        /\ set_score s = add_point score (tb_winner tb)).

(** *** The run of a match (section 4.5) *)

(** [ceil(best_of / 2)]. *)
Definition ceil_half (best_of : Z) : Z := - ((- best_of) / 2).

Definition other_player (p : Z) : Z := if p =? 1 then 2 else 1.

Section MatchRun.

Variables (p1 p2 : PlayerStats) (sets_to_win : Z) (policy : string)
          (use_adjustment : option bool).

(** The sets of a match from a given state on.  A state is the pair of
    set counts and the player serving first in the coming set.  While
    neither player has [sets_to_win] sets, one more set is played: with
    the caller's policy iff both players are one set away from winning
    and with "normal" otherwise; its winner gains a set, and the first
    server flips iff the set had an odd number of games. *)
Inductive sets_played :
    Z * Z -> Z -> RandomSource ->
    list SetResult ->
    Z * Z -> Z -> RandomSource -> Prop :=
| sets_played_end : forall score server rs,
    sets_played score server rs [] score server rs
| sets_played_next : forall a b server rs s rs1 sets score' server' rs',
    a < sets_to_win -> b < sets_to_win ->
    simulate_set p1 p2 server 6
      (if (a =? sets_to_win - 1) && (b =? sets_to_win - 1)
       then policy else "normal"%string)
      use_adjustment rs = Ret s rs1 ->
    sets_played
      (add_point (a, b) (set_winner s))
      (if Z.odd (fst (set_score s) + snd (set_score s))
       then other_player server else server)
      rs1 sets score' server' rs' ->
    sets_played (a, b) server rs (s :: sets) score' server' rs'.

End MatchRun.

(** *** Estimation (section 4.6) *)

Definition in_unit_interval (x : float) : bool := ((0 <=? x) && (x <=? 1))%float.

(** The estimate of a call that returned. *)
Definition p1_win_prob_of (o : outcome EstimationResult) : option float :=
  match o with
  | Ret res _ => Some (p1_win_prob res)
  | _ => None
  end.

(** The Wilson score bounds for a proportion [p] over [n] trials:
    [center = p + z^2/(2n)], [spread = z*sqrt((p(1-p) + z^2/(4n))/n)],
    [denom = 1 + z^2/n], bounds [(center -/+ spread)/denom]. *)
Definition documented_wilson (z p : float) (n : Z) : float * float :=
  let z2 := (z * z)%float in
  let center := (p + z2 / float_of_Z (2 * n))%float in
  let spread :=
    (z * sqrt ((p * (1 - p) + z2 / float_of_Z (4 * n)) / float_of_Z n))%float in
  let denom := (1 + z2 / float_of_Z n)%float in
  ((center - spread) / denom, (center + spread) / denom)%float.

(* ======================================================================= *)
(** ** Sample players and recorded draws *)
(* ======================================================================= *)

(** The two players of the verification run in the source. *)
Definition player1 : PlayerStats :=
  mkPlayerStats 0.62 0.75 0.52 0.08 0.03 (Some 0.30%float) (Some 0.50%float).

Definition player2 : PlayerStats :=
  mkPlayerStats 0.65 0.72 0.50 0.05 0.04 (Some 0.32%float) (Some 0.52%float).

(** Draws that make the server win a point (first serve in, ace) and lose
    one (first serve out, double fault), for either sample player. *)
Definition server_wins : list float := [0%float; 0%float].
Definition server_loses : list float := [0.99%float; 0%float].

Fixpoint repeat_draws (n : nat) (l : list float) : list float :=
  match n with
  | O => []
  | S n => l ++ repeat_draws n l
  end.

(** A game won to love by the server, and one by the returner. *)
Definition hold : list float := repeat_draws 4 server_wins.
Definition break : list float := repeat_draws 4 server_loses.

(** The draws of six love games, all won by the player who serves the
    first of them. *)
Definition set_6_0 : list float := repeat_draws 3 (hold ++ break).

(** A stand-in for the generator's seeding: every seed gives the draws of
    a match of two such sets, the seed's parity deciding who serves first. *)
Definition sample_seeded (seed : Z) : RandomSource :=
  mkSource (set_6_0 ++ set_6_0) [Z.even seed].

(** Twelve games held in turn (6-6), and ten (5-5). *)
Definition twelve_holds : list float := repeat_draws 12 hold.
Definition ten_holds : list float := repeat_draws 10 hold.

(** A tiebreak won 7-0 by player 1, who serves points 0, 1, 2, 5 and 6. *)
Definition tiebreak_7_0 : list float :=
  repeat_draws 3 server_wins ++ repeat_draws 2 server_loses
  ++ repeat_draws 2 server_wins.

(** Sets served first by player 1 and won by player 1: 7-6 on a tiebreak,
    and 8-6 and 7-5 on a hold followed by a break. *)
Definition set_7_6 : list float := twelve_holds ++ tiebreak_7_0.
Definition set_8_6 : list float := twelve_holds ++ hold ++ break.
Definition set_7_5 : list float := ten_holds ++ hold ++ break.

(** Statistics that break every rule of the data model: a serve-in rate
    of 0, a win rate above 1, an ace rate above the serve-in rate. *)
Definition never_in : PlayerStats :=
  mkPlayerStats 0 1.5 0.5 0.1 0.1 None None.

(** A serve-in rate of 1 with a positive double-fault rate. *)
Definition always_in : PlayerStats :=
  mkPlayerStats 1 0.7 0.5 0.1 0.1 None None.

(* ======================================================================= *)
(** ** Notions for the properties beyond the specification *)
(* ======================================================================= *)

(** A computation whose every returning run relates the generator states
    before and after it by [R]. *)
Definition respects {A} (R : RandomSource -> RandomSource -> Prop) (m : M A)
    : Prop :=
  forall rs a rs', m rs = Ret a rs' -> R rs rs'.

(** The choices still to come are untouched. *)
Definition same_choices (rs rs' : RandomSource) : Prop :=
  choices rs' = choices rs.

(** The generator with more values recorded behind those it has. *)
Definition extend_source (more_uniforms : list float) (more_choices : list bool)
    (rs : RandomSource) : RandomSource :=
  mkSource (uniforms rs ++ more_uniforms) (choices rs ++ more_choices).

(** A computation that does not look ahead: a returning run returns the
    same value when more values are recorded behind those it consumed, and
    leaves them unread. *)
Definition no_look_ahead {A} (m : M A) : Prop :=
  forall rs a rs' more_uniforms more_choices,
    m rs = Ret a rs' ->
    m (extend_source more_uniforms more_choices rs)
    = Ret a (extend_source more_uniforms more_choices rs').

(** The two sample players with their return rates left out. *)
Definition player1_no_rates : PlayerStats :=
  mkPlayerStats 0.62 0.75 0.52 0.08 0.03 None None.

Definition player2_no_rates : PlayerStats :=
  mkPlayerStats 0.65 0.72 0.50 0.05 0.04 None None.

(** A returner whose two return rates are exactly the tour averages. *)
Definition average_returner (r : PlayerStats) : Prop :=
  return_vs_first r = Some AVG_RETURN_VS_FIRST
  /\ return_vs_second r = Some AVG_RETURN_VS_SECOND.

(** A loop whose returning runs are unchanged by more fuel. *)
Definition fuel_monotone {A} (loop : nat -> M A) : Prop :=
  forall f f' rs a rs',
    loop f rs = Ret a rs' -> (f <= f')%nat -> loop f' rs = Ret a rs'.

(** Two players with the same five serve statistics. *)
Definition same_serve (s s' : PlayerStats) : Prop :=
  first_in_pct s = first_in_pct s'
  /\ first_won_pct s = first_won_pct s'
  /\ second_won_pct s = second_won_pct s'
  /\ ace_pct s = ace_pct s'
  /\ df_pct s = df_pct s'.

(** A player with no return rate on record. *)
Definition no_return_rates (s : PlayerStats) : Prop :=
  return_vs_first s = None /\ return_vs_second s = None.

(** The score of a contest played to [target] with a lead of two, as
    (winner's count, loser's count): the winner stops at [target] with
    the loser at least two behind, or beyond it with a lead of exactly
    two. *)
Definition first_to (target w l : Z) : Prop :=
  0 <= l /\ ((w = target /\ l <= target - 2) \/ (target < w /\ w = l + 2)).

(** The scores of a set with a tiebreak at six games all. *)
Definition tiebreak_set_scores : list (Z * Z) :=
  [(6, 0); (6, 1); (6, 2); (6, 3); (6, 4); (7, 5); (7, 6);
   (0, 6); (1, 6); (2, 6); (3, 6); (4, 6); (5, 7); (6, 7)].

(** The sets of a list of set scores that went to player 1, and to
    player 2. *)
Definition sets_of_p1 (scores : list (Z * Z)) : Z :=
  Z.of_nat (List.length (filter (fun s => fst s >? snd s) scores)).

Definition sets_of_p2 (scores : list (Z * Z)) : Z :=
  Z.of_nat (List.length (filter (fun s => snd s >? fst s) scores)).

(* ======================================================================= *)
(** ** Auxiliary notions on binary64 values *)
(* ======================================================================= *)

Definition emin64 : Z := SpecFloat.emin prec emax.

Definition SF_is_zero (x : spec_float) : bool :=
  match x with
  | S754_zero _ => true
  | _ => false
  end.

Definition SF_one : spec_float := S754_finite false 4503599627370496 (-52).

(** ** Tactics for the order on binary64 values *)

(** Case analysis on the shape of every [spec_float] in sight, then on
    the comparisons of exponents and mantissas that [SFcompare] makes. *)
Ltac sf_cases :=
  repeat match goal with
  | x : spec_float |- _ => destruct x as [[] | [] | | [] ? ?]
  end.

Ltac cmp_cases :=
  repeat match goal with
  | |- context [Z.compare ?a ?b] => destruct (Z.compare_spec a b)
  | H : context [Z.compare ?a ?b] |- _ => destruct (Z.compare_spec a b)
  | |- context [Pos.compare_cont Eq ?a ?b] =>
      change (Pos.compare_cont Eq a b) with (Pos.compare a b);
      destruct (Pos.compare_spec a b)
  | H : context [Pos.compare_cont Eq ?a ?b] |- _ =>
      change (Pos.compare_cont Eq a b) with (Pos.compare a b) in H;
      destruct (Pos.compare_spec a b)
  end.

Ltac sf_order :=
  unfold SFltb, SFleb, SFeqb, SFcompare in *; sf_cases; cbn in *;
  try congruence; cmp_cases; cbn in *; subst;
  try congruence; try lia.


(* ======================================================================= *)
(** * Properties *)
(* ======================================================================= *)

(** ** Binary64 facts used by the simulator proofs *)

Module Binary64.

(** *** Rounding never turns a nonzero integer mantissa into zero *)
Lemma fexp_ge_emin k : emin64 <= fexp prec emax k.
Proof. unfold fexp, emin64, SpecFloat.emin. lia. Qed.

Lemma fexp_above k e : emin64 <= e -> e < fexp prec emax k -> fexp prec emax k = k - prec.
Proof. unfold fexp, emin64, SpecFloat.emin. lia. Qed.

Lemma digits2_pos_iter_xO (d m : positive) :
  Zpos (digits2_pos (Pos.iter xO m d)) = Zpos (digits2_pos m) + Zpos d.
Proof.
  revert m. induction d using Pos.peano_ind; intros m.
  - simpl. lia.
  - rewrite Pos.iter_succ. cbn [digits2_pos]. rewrite Pos2Z.inj_succ, IHd. lia.
Qed.

(** One right shift of a mantissa of at least two digits keeps it positive. *)
Lemma shr_1_pos m r s :
  1 < Zpos (digits2_pos m) ->
  exists m', shr_m (shr_1 (Build_shr_record (Zpos m) r s)) = Zpos m'
             /\ Zpos (digits2_pos m') = Zpos (digits2_pos m) - 1.
Proof.
  destruct m as [q | q | ]; cbn [digits2_pos shr_1 shr_m]; intros H.
  - exists q. split; [reflexivity | rewrite Pos2Z.inj_succ; lia].
  - exists q. split; [reflexivity | rewrite Pos2Z.inj_succ; lia].
  - lia.
Qed.

Lemma iter_shr_1_pos (p : positive) : forall mrs m,
  shr_m mrs = Zpos m ->
  Zpos p < Zpos (digits2_pos m) ->
  exists m', shr_m (SpecFloat.iter_pos shr_1 p mrs) = Zpos m'
             /\ Zpos (digits2_pos m') = Zpos (digits2_pos m) - Zpos p.
Proof.
  induction p as [p IH | p IH | ]; intros [mz r s] m Hm Hlt; simpl in Hm; subst mz.
  - cbn [SpecFloat.iter_pos].
    destruct (shr_1_pos m r s) as (m1 & E1 & D1); [lia |].
    destruct (IH _ m1 E1) as (m2 & E2 & D2); [lia |].
    destruct (IH _ m2 E2) as (m3 & E3 & D3); [lia |].
    exists m3. split; [exact E3 | lia].
  - cbn [SpecFloat.iter_pos].
    destruct (IH (Build_shr_record (Zpos m) r s) m eq_refl) as (m2 & E2 & D2); [lia |].
    destruct (IH _ m2 E2) as (m3 & E3 & D3); [lia |].
    exists m3. split; [exact E3 | lia].
  - cbn [SpecFloat.iter_pos]. destruct (shr_1_pos m r s) as (m1 & E1 & D1); [lia |].
    exists m1. split; [exact E1 | lia].
Qed.

Lemma shr_record_of_loc_m m l : shr_m (shr_record_of_loc m l) = m.
Proof. destruct l as [| []]; reflexivity. Qed.

Lemma shr_fexp_pos m e l :
  emin64 <= e ->
  exists m' , shr_m (fst (shr_fexp prec emax (Zpos m) e l)) = Zpos m'
              /\ emin64 <= snd (shr_fexp prec emax (Zpos m) e l).
Proof.
  intros He. unfold shr_fexp, shr.
  destruct (fexp prec emax (Zdigits2 (Zpos m) + e) - e) as [| p | p] eqn:En.
  - exists m. simpl. rewrite shr_record_of_loc_m. split; [reflexivity | exact He].
  - assert (Hf : fexp prec emax (Zdigits2 (Zpos m) + e) = Zdigits2 (Zpos m) + e - prec)
      by (apply fexp_above with (e := e); lia).
    cbn [fst snd].
    destruct (iter_shr_1_pos p (shr_record_of_loc (Zpos m) l) m) as (m' & E & _).
    + apply shr_record_of_loc_m.
    + cbn [Zdigits2] in Hf, En. rewrite Hf in En. change prec with 53 in En. lia.
    + exists m'. split; [exact E | lia].
  - exists m. simpl. rewrite shr_record_of_loc_m. split; [reflexivity | exact He].
Qed.

Lemma round_nearest_even_pos m l : exists m', round_nearest_even (Zpos m) l = Zpos m'.
Proof.
  destruct l as [| []]; simpl.
  - now exists m.
  - destruct m; simpl; eexists; reflexivity.
  - now exists m.
  - destruct m; simpl; eexists; reflexivity.
Qed.


Lemma binary_round_aux_nonzero s m e l :
  emin64 <= e -> SF_is_zero (binary_round_aux prec emax s (Zpos m) e l) = false.
Proof.
  intros He. unfold binary_round_aux.
  destruct (shr_fexp_pos m e l He) as (m1 & E1 & He1).
  destruct (shr_fexp prec emax (Zpos m) e l) as [mrs1 e1]. cbn [fst snd] in *.
  rewrite E1.
  destruct (round_nearest_even_pos m1 (loc_of_shr_record mrs1)) as (m2 & E2).
  rewrite E2.
  destruct (shr_fexp_pos m2 e1 loc_Exact He1) as (m3 & E3 & He3).
  destruct (shr_fexp prec emax (Zpos m2) e1 loc_Exact) as [mrs2 e2]. cbn [fst snd] in *.
  rewrite E3. destruct (e2 <=? emax - prec); reflexivity.
Qed.

Lemma binary_round_nonzero s m e :
  emin64 <= e -> SF_is_zero (binary_round prec emax s m e) = false.
Proof.
  intros He. unfold binary_round.
  pose proof (fexp_ge_emin (Zpos (digits2_pos m) + e)) as Hf.
  unfold shl_align.
  destruct (fexp prec emax (Zpos (digits2_pos m) + e) - e);
    apply binary_round_aux_nonzero; assumption.
Qed.

Lemma binary_normalize_zero m e sz :
  emin64 <= e -> SF_is_zero (binary_normalize prec emax m e sz) = true -> m = 0.
Proof.
  intros He. destruct m as [| m | m]; simpl; intros H; [reflexivity | |];
    rewrite binary_round_nonzero in H by assumption; discriminate.
Qed.



Lemma Prim2SF_one : Prim2SF 1%float = SF_one.
Proof. vm_compute. reflexivity. Qed.

Lemma Prim2SF_zero : Prim2SF 0%float = S754_zero false.
Proof. vm_compute. reflexivity. Qed.

Lemma valid_finite s m e :
  valid_binary (S754_finite s m e) = true ->
  emin64 <= e /\ Zpos (digits2_pos m) <= 53
  /\ (emin64 < e -> Zpos (digits2_pos m) = 53).
Proof.
  unfold valid_binary, bounded, canonical_mantissa, fexp, emin64, SpecFloat.emin.
  change prec with 53. change emax with 1024.
  rewrite andb_true_iff, Z.eqb_eq, Z.leb_le. lia.
Qed.

Lemma shl_align_digits m e ez :
  ez <= e ->
  Zpos (digits2_pos (fst (shl_align m e ez))) = Zpos (digits2_pos m) + (e - ez).
Proof.
  intros Hle. unfold shl_align.
  destruct (ez - e) as [| d | d] eqn:Ed; cbn [fst].
  - lia.
  - lia.
  - rewrite digits2_pos_iter_xO. lia.
Qed.

Lemma shl_align_same m e : fst (shl_align m e e) = m.
Proof. unfold shl_align. rewrite Z.sub_diag. reflexivity. Qed.

(** [1 - y] is a zero only for [y = 1]. *)
Lemma SFsub_one_zero y :
  valid_binary y = true -> SF_is_zero (SF64sub SF_one y) = true -> y = SF_one.
Proof.
  destruct y as [sy | sy | | sy my ey]; intros Hv Hz;
    try (cbn in Hz; discriminate).
  destruct (valid_finite _ _ _ Hv) as (He & Hd & Hn).
  unfold SF64sub, SF_one, SFsub in Hz.
  apply binary_normalize_zero in Hz; [| unfold emin64, SpecFloat.emin in *;
    change prec with 53 in *; change emax with 1024 in *; lia].
  pose proof (shl_align_digits 4503599627370496 (-52) (Z.min (-52) ey)
                (Z.le_min_l _ _)) as D1.
  pose proof (shl_align_digits my ey (Z.min (-52) ey) (Z.le_min_r _ _)) as D2.
  change (Zpos (digits2_pos 4503599627370496)) with 53 in D1.
  destruct sy; cbn [cond_Zopp] in Hz; [lia |].
  assert (Ha : fst (shl_align 4503599627370496 (-52) (Z.min (-52) ey))
               = fst (shl_align my ey (Z.min (-52) ey))) by lia.
  rewrite Ha in D1.
  assert (Hey : ey = -52).
  { unfold emin64, SpecFloat.emin in *.
    change prec with 53 in *; change emax with 1024 in *. lia. }
  subst ey. change (Z.min (-52) (-52)) with (-52) in Ha.
  rewrite !shl_align_same in Ha. subst my. reflexivity.
Qed.

Lemma SFeqb_zero x : SFeqb x (S754_zero false) = SF_is_zero x.
Proof. destruct x as [s | s | | s m e]; try destruct s; reflexivity. Qed.

Lemma sub_one_eq_zero (f : float) : (1 - f =? 0)%float = true -> f = 1%float.
Proof.
  rewrite FloatAxioms.eqb_spec, sub_spec, Prim2SF_zero, Prim2SF_one, SFeqb_zero.
  intros H. apply Prim2SF_inj. rewrite Prim2SF_one.
  apply SFsub_one_zero; [apply Prim2SF_valid | exact H].
Qed.

(** *** The order on floats *)

Lemma SFltb_trans x y z : SFltb x y = true -> SFltb y z = true -> SFltb x z = true.
Proof. intros H1 H2. sf_order. Qed.

Lemma SFltb_asym x y : SFltb x y = true -> SFltb y x = false.
Proof. intros H1. sf_order. Qed.

Lemma SFltb_leb x y : SFltb x y = true -> SFleb x y = true.
Proof. intros H1. sf_order. Qed.

Lemma SFleb_ltb_trans x y z : SFleb x y = true -> SFltb y z = true -> SFltb x z = true.
Proof. intros H1 H2. sf_order. Qed.

Lemma SFleb_not_ltb x y :
  SFleb x y = true -> SFltb x y = false -> SF_is_zero y = false -> x = y.
Proof. intros H1 H2 H3. sf_order. Qed.

Lemma SFnot_ltb_total x y :
  SFltb x y = false -> SFltb y x = false -> SFleb x y = true ->
  SF_is_zero y = false -> x = y.
Proof. intros H1 H2 H3. sf_order. Qed.


End Binary64.

(** *** The same facts on primitive floats *)

Section FloatOrder.

Local Open Scope float_scope.

Lemma ltb_trans (x y z : float) :
  (x <? y) = true -> (y <? z) = true -> (x <? z) = true.
Proof. rewrite !ltb_spec. apply Binary64.SFltb_trans. Qed.

Lemma ltb_asym (x y : float) : (x <? y) = true -> (y <? x) = false.
Proof. rewrite !ltb_spec. apply Binary64.SFltb_asym. Qed.

Lemma ltb_leb (x y : float) : (x <? y) = true -> (x <=? y) = true.
Proof. rewrite ltb_spec, leb_spec. apply Binary64.SFltb_leb. Qed.

Lemma leb_ltb_trans (x y z : float) :
  (x <=? y) = true -> (y <? z) = true -> (x <? z) = true.
Proof. rewrite !ltb_spec, leb_spec. apply Binary64.SFleb_ltb_trans. Qed.

Lemma eqb_zero (x : float) : (x =? 0) = SF_is_zero (Prim2SF x).
Proof.
  rewrite FloatAxioms.eqb_spec, Binary64.Prim2SF_zero.
  apply Binary64.SFeqb_zero.
Qed.

(** Two floats that compare equal are the same float, signed zeros
    apart. *)
Lemma leb_not_ltb (x y : float) :
  (x <=? y) = true -> (x <? y) = false -> (y =? 0) = false -> x = y.
Proof.
  rewrite ltb_spec, leb_spec, eqb_zero. intros H1 H2 H3.
  apply Prim2SF_inj. now apply Binary64.SFleb_not_ltb.
Qed.

Lemma not_ltb_total (x y hi : float) :
  (x <? y) = false -> (y <? x) = false ->
  (x <=? hi) = true -> (y <? hi) = true -> (y =? 0) = false -> x = y.
Proof.
  rewrite !ltb_spec, leb_spec, eqb_zero. intros H1 H2 H3 H4 H5.
  apply Prim2SF_inj. revert H1 H2 H3 H4 H5.
  generalize (Prim2SF x) (Prim2SF y) (Prim2SF hi). intros a b c.
  intros. sf_order.
Qed.

(** A value above a nonnegative one is not zero. *)
Lemma above_nonneg_nonzero (u f : float) :
  (0 <=? u) = true -> (u <? f) = true -> (f =? 0) = false.
Proof.
  rewrite ltb_spec, leb_spec, eqb_zero, Binary64.Prim2SF_zero.
  generalize (Prim2SF u) (Prim2SF f). intros a b. intros.
  sf_order.
Qed.

Lemma positive_nonzero (f : float) : (0 <? f) = true -> (f =? 0) = false.
Proof. intros H. apply above_nonneg_nonzero with (u := 0); [reflexivity | exact H]. Qed.

Lemma below_one_sub_nonzero (f : float) :
  (f <? 1) = true -> (1 - f =? 0) = false.
Proof.
  intros H. destruct (1 - f =? 0) eqn:E; [| reflexivity].
  apply Binary64.sub_one_eq_zero in E. subst f. discriminate H.
Qed.

(** The double-fault division cannot fail after a draw below 1 that did
    not fall below the serve-in rate. *)
Lemma not_below_sub_nonzero (u f : float) :
  (u <? 1) = true -> (u <? f) = false -> (1 - f =? 0) = false.
Proof.
  intros H1 H2. destruct (1 - f =? 0) eqn:E; [| reflexivity].
  apply Binary64.sub_one_eq_zero in E. subst f. congruence.
Qed.

(** Python's [max(lo, min(hi, x))] is the clamp of the specification. *)
Lemma py_max_min_clamp (lo hi x : float) :
  (lo <? hi) = true -> (lo =? 0) = false -> (hi =? 0) = false ->
  py_max lo (py_min hi x) = clamp lo hi x.
Proof.
  intros Hlh Hlo Hhi. unfold py_max, py_min, clamp.
  destruct (x <? lo) eqn:A.
  - rewrite (ltb_trans _ _ _ A Hlh), (ltb_asym _ _ A). reflexivity.
  - destruct (x <=? hi) eqn:B.
    + destruct (x <? hi) eqn:C.
      * destruct (lo <? x) eqn:D; [reflexivity |].
        symmetry. now apply (not_ltb_total x lo hi).
      * rewrite Hlh. symmetry. now apply leb_not_ltb.
    + destruct (x <? hi) eqn:C.
      * apply ltb_leb in C. congruence.
      * rewrite Hlh. reflexivity.
Qed.

(** The clamp stays in its interval, whatever the value (a NaN
    included). *)
Lemma clamp_bounds (lo hi x : float) :
  (lo <? hi) = true ->
  (lo <=? clamp lo hi x) = true /\ (clamp lo hi x <=? hi) = true.
Proof.
  intros Hlh. unfold clamp.
  destruct (x <? lo) eqn:A; [| destruct (x <=? hi) eqn:B].
  - split; [| now apply ltb_leb].
    revert Hlh. rewrite ltb_spec, leb_spec.
    generalize (Prim2SF lo) (Prim2SF hi). intros a b ?. sf_order.
  - split; [| exact B].
    revert A B Hlh. rewrite !ltb_spec, !leb_spec.
    generalize (Prim2SF lo) (Prim2SF hi) (Prim2SF x). intros a b c ? ? ?.
    sf_order.
  - split; [now apply ltb_leb |].
    revert Hlh. rewrite ltb_spec, leb_spec.
    generalize (Prim2SF lo) (Prim2SF hi). intros a b ?. sf_order.
Qed.

End FloatOrder.

(* ======================================================================= *)
(** ** Point simulation *)
(* ======================================================================= *)

Section PointProperties.

Local Open Scope float_scope.

Variables (server : PlayerStats) (returner : option PlayerStats)
          (use_adjustment : option bool).

(** The two rally win probabilities of the source are the documented
    ones. *)
Lemma first_serve_win_prob :
  match adjustment_enabled use_adjustment, returner with
  | true, Some r =>
      match return_vs_first r with
      | Some rvf =>
          py_max 0.3 (py_min 0.95 (first_won_pct server + (AVG_RETURN_VS_FIRST - rvf)))
      | None => first_won_pct server
      end
  | _, _ => first_won_pct server
  end
  = documented_win_prob (adjustment_enabled use_adjustment) (first_won_pct server)
      AVG_RETURN_VS_FIRST (returner_rate returner return_vs_first) 0.30 0.95.
Proof.
  unfold documented_win_prob, returner_rate.
  destruct (adjustment_enabled use_adjustment); [| reflexivity].
  destruct returner as [r |]; [| reflexivity].
  destruct (return_vs_first r) as [rvf |]; [| reflexivity].
  apply py_max_min_clamp; reflexivity.
Qed.

Lemma second_serve_win_prob :
  match adjustment_enabled use_adjustment, returner with
  | true, Some r =>
      match return_vs_second r with
      | Some rvs =>
          py_max 0.2 (py_min 0.85 (second_won_pct server + (AVG_RETURN_VS_SECOND - rvs)))
      | None => second_won_pct server
      end
  | _, _ => second_won_pct server
  end
  = documented_win_prob (adjustment_enabled use_adjustment) (second_won_pct server)
      AVG_RETURN_VS_SECOND (returner_rate returner return_vs_second) 0.20 0.85.
Proof.
  unfold documented_win_prob, returner_rate.
  destruct (adjustment_enabled use_adjustment); [| reflexivity].
  destruct returner as [r |]; [| reflexivity].
  destruct (return_vs_second r) as [rvs |]; [| reflexivity].
  apply py_max_min_clamp; reflexivity.
Qed.

(** The source's point, with its two divisions left symbolic: the
    outcome depends on the divisors only through their being zero. *)
Lemma simulate_point_unfold (rs : RandomSource) :
  simulate_point server returner use_adjustment rs =
  match uniforms rs with
  | [] => Starved
  | u1 :: rest1 =>
      if u1 <? first_in_pct server then
        if first_in_pct server =? 0 then Raise ZeroDivisionError
        else
          match documented_point server returner use_adjustment (uniforms rs) with
          | Some (r, rest) => Ret r (mkSource rest (choices rs))
          | None => Starved
          end
      else
        if 1 - first_in_pct server =? 0 then Raise ZeroDivisionError
        else
          match documented_point server returner use_adjustment (uniforms rs) with
          | Some (r, rest) => Ret r (mkSource rest (choices rs))
          | None => Starved
          end
  end.
Proof.
  destruct rs as [us cs].
  unfold simulate_point, documented_point, bind, random_random, float_truediv,
    raise, ret.
  fold (adjustment_enabled use_adjustment).
  rewrite first_serve_win_prob, second_serve_win_prob.
  cbn [uniforms choices].
  destruct us as [| u1 [| u2 [| u3 us]]]; [reflexivity | | |];
    destruct (u1 <? first_in_pct server);
    [ destruct (first_in_pct server =? 0)
    | destruct (1 - first_in_pct server =? 0)
    | destruct (first_in_pct server =? 0)
    | destruct (1 - first_in_pct server =? 0)
    | destruct (first_in_pct server =? 0)
    | destruct (1 - first_in_pct server =? 0) ];
    cbn [uniforms choices]; try reflexivity;
    match goal with
    | |- context [?u <? ?a / ?b] => destruct (u <? a / b); reflexivity
    end.
Qed.

End PointProperties.

(** C1: for a serve-in rate strictly between 0 and 1, [simulate_point] is
    the documented algorithm.  It resolves the point from the next draws
    exactly as steps 1-3 of the specification say (first serve in iff the
    first draw is below [first_in_pct]; ace iff the second draw is below
    [ace_pct / first_in_pct]; double fault iff the second draw is below
    [df_pct / (1 - first_in_pct)]; otherwise a rally won by the server iff
    the third draw is below the win probability, adjusted and clamped when
    the adjustment is enabled and the returner's rate is known, with the
    global flag deciding when [use_adjustment] is unset), it leaves the
    remaining draws, it raises nothing, and it stops short only when the
    draws run out. *)
Theorem simulate_point_documented
    (server : PlayerStats) (returner : option PlayerStats)
    (use_adjustment : option bool) (rs : RandomSource) :
  (0 <? first_in_pct server)%float = true ->
  (first_in_pct server <? 1)%float = true ->
  simulate_point server returner use_adjustment rs =
  match documented_point server returner use_adjustment (uniforms rs) with
  | Some (r, rest) => Ret r (mkSource rest (choices rs))
  | None => Starved
  end.
Proof.
  intros Hpos Hlt. rewrite simulate_point_unfold.
  rewrite (positive_nonzero _ Hpos), (below_one_sub_nonzero _ Hlt).
  destruct (uniforms rs) as [| u1 rest1]; [reflexivity |].
  destruct (u1 <? first_in_pct server)%float; reflexivity.
Qed.

Lemma simulate_point_documented_witness :
  simulate_point player1 (Some player2) None
    (mkSource [0.5; 0.5; 0.5]%float [true]) =
  Ret (mkPointResult 1 "rally" "first") (mkSource [] [true]).
Proof.
  rewrite (simulate_point_documented player1 (Some player2) None
             (mkSource [0.5; 0.5; 0.5]%float [true]));
    reflexivity.
Defined.

(* ======================================================================= *)
(** ** Estimation *)
(* ======================================================================= *)

(** C3, as stated, fails: with [n_sims = 0] and no seed nothing stops the
    call ahead of the loop.  The seeding step and the (empty) trial loop
    both complete, and the error is the division by zero itself. *)
Lemma zero_trials_reach_division :
  reseed sample_seeded None (mkSource [] []) = Ret tt (mkSource [] [])
  /\ trials (Z.to_nat 0) player1 player2 3 "normal" None 0 (mkSource [] [])
     = Ret 0 (mkSource [] [])
  /\ int_truediv 0 0 (mkSource [] []) = Raise ZeroDivisionError
  /\ estimate_win_probability sample_seeded player1 player2 0 3 "normal" None None
       (mkSource [] [])
     = Raise ZeroDivisionError.
Proof. repeat split. Qed.

(** C3, amended: with [n_sims = 0] the call always fails and simulates no
    match, but no check rejects the count: the trial loop runs its zero
    iterations without touching the generator, and the error is the
    [ZeroDivisionError] of the division [p1_wins / n_sims] after the loop
    (or, ahead of it, the [ValueError] of numpy's seeding when the seed lies
    outside [0, 2**32 - 1]). *)
Theorem zero_trials_fail_at_division
    (seeded : Z -> RandomSource) (p1 p2 : PlayerStats) (best_of : Z)
    (final_set_tb : string) (use_adjustment : option bool)
    (seed : option Z) (rs : RandomSource) :
  (forall w rs0,
     trials (Z.to_nat 0) p1 p2 best_of final_set_tb use_adjustment w rs0 = Ret w rs0)
  /\ estimate_win_probability seeded p1 p2 0 best_of final_set_tb use_adjustment
       seed rs
     = Raise (match seed with
              | None => ZeroDivisionError
              | Some s =>
                  if (0 <=? s) && (s <=? 4294967295) then ZeroDivisionError
                  else ValueError
              end).
Proof.
  split; [reflexivity |].
  unfold estimate_win_probability, bind, reseed.
  destruct seed as [s |]; [| reflexivity].
  destruct ((0 <=? s) && (s <=? 4294967295)); reflexivity.
Qed.

(** C8: with a seed supplied, the outcome of [estimate_win_probability] is
    a function of the seed and the other arguments alone: two calls with
    the same seed and inputs give the same [EstimationResult], field for
    field, whatever state the generator was in before each call. *)
Theorem estimate_win_probability_seeded_deterministic
    (seeded : Z -> RandomSource) (p1 p2 : PlayerStats) (n_trials best_of : Z)
    (final_set_tb : string) (use_adjustment : option bool) (seed : Z)
    (rs1 rs2 : RandomSource) :
  estimate_win_probability seeded p1 p2 n_trials best_of final_set_tb
    use_adjustment (Some seed) rs1
  = estimate_win_probability seeded p1 p2 n_trials best_of final_set_tb
      use_adjustment (Some seed) rs2.
Proof.
  unfold estimate_win_probability, bind, reseed.
  destruct ((0 <=? seed) && (seed <=? 4294967295)); reflexivity.
Qed.

(** C9: a single trial gives a win probability of exactly 0.0 or exactly
    1.0, and the Wilson score bounds, computed by the documented formula
    with the 97.5th-percentile normal quantile, both lie in [0, 1]. *)
Theorem single_trial_estimate
    (seeded : Z -> RandomSource) (p1 p2 : PlayerStats) (best_of : Z)
    (final_set_tb : string) (use_adjustment : option bool) (seed : option Z)
    (rs : RandomSource) (res : EstimationResult) (rs' : RandomSource) :
  estimate_win_probability seeded p1 p2 1 best_of final_set_tb use_adjustment
    seed rs = Ret res rs' ->
  (p1_win_prob res = 0%float \/ p1_win_prob res = 1%float)
  /\ (ci_lower res, ci_upper res)
     = documented_wilson norm_ppf_0975 (p1_win_prob res) 1
  /\ in_unit_interval (ci_lower res) = true
  /\ in_unit_interval (ci_upper res) = true.
Proof.
  unfold estimate_win_probability, bind.
  destruct (reseed seeded seed rs) as [[] rs0 | |]; try discriminate.
  change (Z.to_nat 1) with 1%nat. cbn [trials]. unfold bind.
  destruct (simulate_match p1 p2 best_of final_set_tb use_adjustment rs0)
    as [m rs1 | |]; try discriminate.
  unfold ret, int_truediv. cbn [Z.eqb].
  destruct (match_winner m =? 1); intros H; injection H as <- _;
    cbn [p1_win_prob ci_lower ci_upper];
    (split; [ (left; vm_compute; reflexivity) || (right; vm_compute; reflexivity)
            | repeat split; vm_compute; reflexivity ]).
Qed.

Lemma single_trial_estimate_witness :
  (p1_win_prob
     (mkEstimationResult 1 0 0.20654931437723742 1 1) = 0%float
   \/ p1_win_prob
        (mkEstimationResult 1 0 0.20654931437723742 1 1) = 1%float)
  /\ (ci_lower (mkEstimationResult 1 0 0.20654931437723742 1 1),
      ci_upper (mkEstimationResult 1 0 0.20654931437723742 1 1))
     = documented_wilson norm_ppf_0975
         (p1_win_prob (mkEstimationResult 1 0 0.20654931437723742 1 1)) 1
  /\ in_unit_interval
       (ci_lower (mkEstimationResult 1 0 0.20654931437723742 1 1)) = true
  /\ in_unit_interval
       (ci_upper (mkEstimationResult 1 0 0.20654931437723742 1 1)) = true.
Proof.
  apply (single_trial_estimate sample_seeded player1 player2 3 "normal" None
           (Some 42) (mkSource [] [])
           (mkEstimationResult 1 0 0.20654931437723742 1 1)
           (mkSource [] [])).
  vm_compute. reflexivity.
Defined.

(* ======================================================================= *)
(** ** Running computations *)
(* ======================================================================= *)

Lemma bind_Ret {A B} (m : M A) (k : A -> M B) rs b rs' :
  bind m k rs = Ret b rs' ->
  exists a rs1, m rs = Ret a rs1 /\ k a rs1 = Ret b rs'.
Proof.
  unfold bind. destruct (m rs) as [a rs1 | e |]; try discriminate.
  intros H. now exists a, rs1.
Qed.

Lemma ret_Ret {A} (a b : A) rs rs' : ret a rs = Ret b rs' -> a = b /\ rs = rs'.
Proof. unfold ret. intros H. injection H as -> ->. now split. Qed.

Lemma draws_keeps {A} (m : M A) : draws m -> keeps m.
Proof. intros H rs a rs' E. apply H in E. lia. Qed.

Lemma keeps_ret {A} (a : A) : keeps (ret a).
Proof. intros rs b rs' E. apply ret_Ret in E. destruct E as [_ <-]. lia. Qed.

Lemma draws_bind_l {A B} (m : M A) (k : A -> M B) :
  draws m -> (forall a, keeps (k a)) -> draws (bind m k).
Proof.
  intros Hm Hk rs b rs' E. apply bind_Ret in E.
  destruct E as (a & rs1 & E1 & E2). apply Hm in E1. apply Hk in E2. lia.
Qed.

Lemma keeps_bind {A B} (m : M A) (k : A -> M B) :
  keeps m -> (forall a, keeps (k a)) -> keeps (bind m k).
Proof.
  intros Hm Hk rs b rs' E. apply bind_Ret in E.
  destruct E as (a & rs1 & E1 & E2). apply Hm in E1. apply Hk in E2. lia.
Qed.

Lemma documented_point_draws server returner use_adjustment us r rest :
  documented_point server returner use_adjustment us = Some (r, rest) ->
  (List.length rest < List.length us)%nat.
Proof.
  unfold documented_point.
  destruct us as [| u1 [| u2 [| u3 us]]]; try discriminate;
    destruct (u1 <? first_in_pct server)%float;
    match goal with
    | |- context [(?u <? ?a / ?b)%float] => destruct (u <? a / b)%float
    end; intros H; try discriminate; injection H as _ <-; cbn; lia.
Qed.

Lemma simulate_point_draws server returner use_adjustment :
  draws (simulate_point server returner use_adjustment).
Proof.
  intros rs r rs'. rewrite simulate_point_unfold.
  destruct (uniforms rs) as [| u1 rest1] eqn:Eu; [discriminate |].
  destruct (documented_point server returner use_adjustment (u1 :: rest1))
    as [[r0 rest] |] eqn:Ed.
  - apply documented_point_draws in Ed.
    destruct (u1 <? first_in_pct server)%float;
      [ destruct (first_in_pct server =? 0)%float
      | destruct (1 - first_in_pct server =? 0)%float ];
      try discriminate; intros H; injection H as _ <-; exact Ed.
  - destruct (u1 <? first_in_pct server)%float;
      [ destruct (first_in_pct server =? 0)%float
      | destruct (1 - first_in_pct server =? 0)%float ]; discriminate.
Qed.

(* ======================================================================= *)
(** ** Game simulation *)
(* ======================================================================= *)

Lemma add_point_eq (a b w : Z) :
  add_point (a, b) w
  = (if w =? 1 then a + 1 else a, if w =? 1 then b else b + 1).
Proof. unfold add_point. cbn [fst snd]. destruct (w =? 1); reflexivity. Qed.

Lemma tally_from_cons score w ws :
  tally_from score (w :: ws) = tally_from (add_point score w) ws.
Proof. reflexivity. Qed.

(** The decision taken after each point, for a target of [target]
    points. *)
Lemma won_by_two_false target a b :
  (a >=? target) && (a - b >=? 2) = false ->
  (b >=? target) && (b - a >=? 2) = false ->
  won_by_two target (a, b) = false.
Proof. unfold won_by_two. cbn [fst snd]. intros -> ->. reflexivity. Qed.

Section GameProperties.

Variables (server : PlayerStats) (returner : option PlayerStats)
          (use_adjustment : option bool).

(** The loop from an arbitrary score on: the game it returns is the
    score after the points it played, it is won, and no earlier point had
    won it. *)
Lemma game_loop_first_win (fuel : nat) : forall a b rs g rs',
  game_loop fuel server returner use_adjustment a b rs = Ret g rs' ->
  exists pts,
    pts <> []
    /\ play_points (List.length pts) server returner use_adjustment rs = Ret pts rs'
    /\ game_score g = tally_from (a, b) (map point_winner pts)
    /\ ((game_winner g = 1 /\ fst (game_score g) >= 4
         /\ fst (game_score g) - snd (game_score g) >= 2)
        \/ (game_winner g = 0 /\ snd (game_score g) >= 4
            /\ snd (game_score g) - fst (game_score g) >= 2))
    /\ forall k, (0 < k < List.length pts)%nat ->
         won_by_two 4 (tally_from (a, b) (map point_winner (firstn k pts))) = false.
Proof.
  induction fuel as [| fuel IH]; intros a b rs g rs' H; [discriminate |].
  cbn [game_loop] in H. apply bind_Ret in H.
  destruct H as (p & rs1 & Hp & H).
  pose proof (add_point_eq a b (point_winner p)) as Ea.
  destruct ((if point_winner p =? 1 then a + 1 else a) >=? 4) eqn:G1a;
    [destruct ((if point_winner p =? 1 then a + 1 else a)
               - (if point_winner p =? 1 then b else b + 1) >=? 2) eqn:G1b |];
    cbn [andb] in H.
  1: { apply ret_Ret in H. destruct H as [<- <-].
       exists [p]. cbn [List.length map play_points firstn tally_from fold_left
                        game_score game_winner fst snd].
       rewrite Ea. cbn [fst snd]. repeat split.
       - discriminate.
       - unfold bind. rewrite Hp. reflexivity.
       - left. split; [reflexivity |]. split; lia.
       - intros k Hk. lia. }
  all: destruct ((if point_winner p =? 1 then b else b + 1) >=? 4) eqn:G2a;
    [destruct ((if point_winner p =? 1 then b else b + 1)
               - (if point_winner p =? 1 then a + 1 else a) >=? 2) eqn:G2b |];
    cbn [andb] in H.
  all: try (apply ret_Ret in H; destruct H as [<- <-];
       exists [p]; cbn [List.length map play_points firstn tally_from fold_left
                        game_score game_winner fst snd];
       rewrite Ea; cbn [fst snd]; repeat split;
       [ discriminate
       | unfold bind; rewrite Hp; reflexivity
       | right; split; [reflexivity |]; split; lia
       | intros k Hk; lia ]).
  all: apply IH in H; destruct H as (pts & Hne & Hplay & Hscore & Hwin & Hfirst);
    exists (p :: pts); cbn [List.length map play_points];
    rewrite tally_from_cons, Ea; repeat split;
    [ discriminate
    | unfold bind; rewrite Hp; unfold bind in Hplay; rewrite Hplay; reflexivity
    | exact Hscore
    | exact Hwin
    | intros [| k] Hk; [lia |];
      cbn [firstn map]; rewrite tally_from_cons, Ea;
      destruct k as [| k];
      [ cbn [firstn map tally_from fold_left];
        apply won_by_two_false; rewrite ?G1a, ?G1b, ?G2a, ?G2b;
        cbn [andb]; rewrite ?andb_false_r; reflexivity
      | apply Hfirst; cbn [List.length] in Hk; lia ] ].
Qed.

End GameProperties.

(** Fuel beyond the number of draws left changes nothing: the loop stops,
    or is starved, before the fuel is used up. *)
Lemma game_loop_fuel server returner use_adjustment (f1 : nat) :
  forall f2 a b rs,
  (List.length (uniforms rs) < f1)%nat -> (List.length (uniforms rs) < f2)%nat ->
  game_loop f1 server returner use_adjustment a b rs
  = game_loop f2 server returner use_adjustment a b rs.
Proof.
  induction f1 as [| f1 IH]; intros f2 a b rs H1 H2; [lia |].
  destruct f2 as [| f2]; [lia |].
  cbn [game_loop]. unfold bind.
  destruct (simulate_point server returner use_adjustment rs) as [p rs1 | e |] eqn:Hp;
    try reflexivity.
  apply simulate_point_draws in Hp.
  repeat match goal with
  | |- context [if ?c then _ else _] => destruct c
  end; try reflexivity; apply IH; lia.
Qed.

Lemma play_points_keeps server returner use_adjustment (n : nat) :
  keeps (play_points n server returner use_adjustment).
Proof.
  induction n as [| n IH]; [apply keeps_ret |].
  cbn [play_points]. apply keeps_bind.
  - apply draws_keeps, simulate_point_draws.
  - intros p. apply keeps_bind; [exact IH | intros ps; apply keeps_ret].
Qed.

Lemma simulate_game_draws server returner use_adjustment :
  draws (simulate_game server returner use_adjustment).
Proof.
  intros rs g rs' H. unfold simulate_game, with_fuel in H.
  apply game_loop_first_win in H. destruct H as (pts & Hne & Hplay & _).
  destruct pts as [| p pts]; [congruence |].
  cbn [List.length play_points] in Hplay. revert Hplay.
  apply draws_bind_l; [apply simulate_point_draws |].
  intros p0. apply keeps_bind; [apply play_points_keeps | intros ps; apply keeps_ret].
Qed.

(** C4: a returned game is won by its winner with at least four points
    and a lead of at least two, and its score is the score after the first
    point at which one side had four points and a lead of two: replaying
    the point sequence, no proper prefix (the empty one included) already
    satisfies the condition. *)
Theorem simulate_game_first_win
    (server : PlayerStats) (returner : option PlayerStats)
    (use_adjustment : option bool) (rs : RandomSource)
    (g : GameResult) (rs' : RandomSource) :
  simulate_game server returner use_adjustment rs = Ret g rs' ->
  exists pts,
    play_points (List.length pts) server returner use_adjustment rs = Ret pts rs'
    /\ game_score g = tally (map point_winner pts)
    /\ ((game_winner g = 1 /\ fst (game_score g) >= 4
         /\ fst (game_score g) - snd (game_score g) >= 2)
        \/ (game_winner g = 0 /\ snd (game_score g) >= 4
            /\ snd (game_score g) - fst (game_score g) >= 2))
    /\ forall k, (k < List.length pts)%nat ->
         won_by_two 4 (tally (map point_winner (firstn k pts))) = false.
Proof.
  intros H. unfold simulate_game, with_fuel in H.
  apply game_loop_first_win in H.
  destruct H as (pts & Hne & Hplay & Hscore & Hwin & Hfirst).
  exists pts. repeat split; try assumption.
  intros [| k] Hk; [reflexivity |]. apply Hfirst. lia.
Qed.

Lemma simulate_game_first_win_witness :
  exists pts,
    play_points (List.length pts) player1 (Some player2) None (mkSource hold [])
      = Ret pts (mkSource [] [])
    /\ game_score (mkGameResult 1 (4, 0)) = tally (map point_winner pts)
    /\ ((game_winner (mkGameResult 1 (4, 0)) = 1
         /\ fst (game_score (mkGameResult 1 (4, 0))) >= 4
         /\ fst (game_score (mkGameResult 1 (4, 0)))
            - snd (game_score (mkGameResult 1 (4, 0))) >= 2)
        \/ (game_winner (mkGameResult 1 (4, 0)) = 0
            /\ snd (game_score (mkGameResult 1 (4, 0))) >= 4
            /\ snd (game_score (mkGameResult 1 (4, 0)))
               - fst (game_score (mkGameResult 1 (4, 0))) >= 2))
    /\ forall k, (k < List.length pts)%nat ->
         won_by_two 4 (tally (map point_winner (firstn k pts))) = false.
Proof.
  apply (simulate_game_first_win player1 (Some player2) None (mkSource hold [])
           (mkGameResult 1 (4, 0)) (mkSource [] [])).
  vm_compute. reflexivity.
Defined.

(* ======================================================================= *)
(** ** Tiebreak simulation *)
(* ======================================================================= *)

Section TiebreakProperties.

Variables (p1 p2 : PlayerStats) (to_points : Z) (use_adjustment : option bool).

(** One turn of the loop: the point is [tiebreak_point] at the current
    index. *)
Lemma tiebreak_loop_step (fuel : nat) (a b i : Z) :
  tiebreak_loop (S fuel) p1 p2 to_points use_adjustment a b i =
  (w <- tiebreak_point p1 p2 use_adjustment i ;;
   let a' := if w =? 1 then a + 1 else a in
   let b' := if w =? 1 then b else b + 1 in
   if (a' >=? to_points) && (a' - b' >=? 2) then
     ret (mkTiebreakResult 1 (a', b'))
   else if (b' >=? to_points) && (b' - a' >=? 2) then
     ret (mkTiebreakResult 2 (a', b'))
   else tiebreak_loop fuel p1 p2 to_points use_adjustment a' b' (i + 1)).
Proof. reflexivity. Qed.

Lemma tiebreak_point_draws (i : Z) : draws (tiebreak_point p1 p2 use_adjustment i).
Proof.
  unfold tiebreak_point. destruct (tiebreak_server_is_p1 i);
    (apply draws_bind_l; [apply simulate_point_draws | intros r; apply keeps_ret]).
Qed.

Lemma tiebreak_loop_first_win (fuel : nat) : forall a b i rs tb rs',
  tiebreak_loop fuel p1 p2 to_points use_adjustment a b i rs = Ret tb rs' ->
  exists ws,
    ws <> []
    /\ play_tiebreak_points (List.length ws) p1 p2 use_adjustment i rs = Ret ws rs'
    /\ tb_score tb = tally_from (a, b) ws
    /\ ((tb_winner tb = 1 /\ fst (tb_score tb) >= to_points
         /\ fst (tb_score tb) - snd (tb_score tb) >= 2)
        \/ (tb_winner tb = 2 /\ snd (tb_score tb) >= to_points
            /\ snd (tb_score tb) - fst (tb_score tb) >= 2))
    /\ forall k, (0 < k < List.length ws)%nat ->
         won_by_two to_points (tally_from (a, b) (firstn k ws)) = false.
Proof.
  induction fuel as [| fuel IH]; intros a b i rs tb rs' H; [discriminate |].
  rewrite tiebreak_loop_step in H. apply bind_Ret in H.
  destruct H as (w & rs1 & Hw & H). cbv zeta in H.
  pose proof (add_point_eq a b w) as Ea.
  set (a' := if w =? 1 then a + 1 else a) in *.
  set (b' := if w =? 1 then b else b + 1) in *.
  destruct ((a' >=? to_points) && (a' - b' >=? 2)) eqn:G1.
  { apply ret_Ret in H. destruct H as [<- <-].
    apply andb_true_iff in G1.
    exists [w]. cbn [List.length play_tiebreak_points firstn tally_from fold_left
                     tb_score tb_winner fst snd].
    rewrite Ea. repeat split.
    - discriminate.
    - unfold bind. rewrite Hw. reflexivity.
    - left. split; [reflexivity |]. split; lia.
    - intros k Hk. lia. }
  destruct ((b' >=? to_points) && (b' - a' >=? 2)) eqn:G2.
  { apply ret_Ret in H. destruct H as [<- <-].
    apply andb_true_iff in G2.
    exists [w]. cbn [List.length play_tiebreak_points firstn tally_from fold_left
                     tb_score tb_winner fst snd].
    rewrite Ea. repeat split.
    - discriminate.
    - unfold bind. rewrite Hw. reflexivity.
    - right. split; [reflexivity |]. split; lia.
    - intros k Hk. lia. }
  apply IH in H. destruct H as (ws & Hne & Hplay & Hscore & Hwin & Hfirst).
  exists (w :: ws). cbn [List.length play_tiebreak_points].
  rewrite tally_from_cons, Ea. repeat split.
  - discriminate.
  - unfold bind. rewrite Hw. unfold bind in Hplay. rewrite Hplay. reflexivity.
  - exact Hscore.
  - exact Hwin.
  - intros [| k] Hk; [lia |].
    cbn [firstn]. rewrite tally_from_cons, Ea.
    destruct k as [| k].
    + cbn [firstn tally_from fold_left]. now apply won_by_two_false.
    + apply Hfirst. cbn [List.length] in Hk. lia.
Qed.

Lemma tiebreak_loop_fuel (f1 : nat) : forall f2 a b i rs,
  (List.length (uniforms rs) < f1)%nat -> (List.length (uniforms rs) < f2)%nat ->
  tiebreak_loop f1 p1 p2 to_points use_adjustment a b i rs
  = tiebreak_loop f2 p1 p2 to_points use_adjustment a b i rs.
Proof.
  induction f1 as [| f1 IH]; intros f2 a b i rs H1 H2; [lia |].
  destruct f2 as [| f2]; [lia |].
  rewrite !tiebreak_loop_step. unfold bind.
  destruct (tiebreak_point p1 p2 use_adjustment i rs) as [w rs1 | e |] eqn:Hw;
    try reflexivity.
  apply tiebreak_point_draws in Hw. cbv zeta.
  repeat match goal with
  | |- context [if ?c && ?d then _ else _] => destruct (c && d)
  end; try reflexivity; apply IH; lia.
Qed.

Lemma play_tiebreak_points_keeps (n : nat) : forall i,
  keeps (play_tiebreak_points n p1 p2 use_adjustment i).
Proof.
  induction n as [| n IH]; intros i; [apply keeps_ret |].
  cbn [play_tiebreak_points]. apply keeps_bind.
  - apply draws_keeps, tiebreak_point_draws.
  - intros w. apply keeps_bind; [apply IH | intros ws; apply keeps_ret].
Qed.

Lemma simulate_tiebreak_draws :
  draws (simulate_tiebreak p1 p2 to_points use_adjustment).
Proof.
  intros rs tb rs' H. unfold simulate_tiebreak, with_fuel in H.
  apply tiebreak_loop_first_win in H. destruct H as (ws & Hne & Hplay & _).
  destruct ws as [| w ws]; [congruence |].
  cbn [List.length play_tiebreak_points] in Hplay. revert Hplay.
  apply draws_bind_l; [apply tiebreak_point_draws |].
  intros w0. apply keeps_bind;
    [apply play_tiebreak_points_keeps | intros ws0; apply keeps_ret].
Qed.

End TiebreakProperties.

(** The rotation the loop follows: player 1 serves points 0, 1 and 2,
    player 2 points 3 and 4, player 1 points 5 and 6, and so on. *)
Example tiebreak_first_servers :
  map tiebreak_server_is_p1 [0; 1; 2; 3; 4; 5; 6; 7; 8]
  = [true; true; true; false; false; true; true; false; false].
Proof. reflexivity. Qed.

(** C5: in a returned tiebreak with target [to_points], point 0 is served
    by player 1 and each later point [i] by player 1 iff
    [((i - 1) // 2) % 2 == 0]; every point is resolved by [simulate_point]
    with the current server's statistics as server and the opponent's as
    returner, its winner mapped back to player 1 or 2; and the returned
    score has the winner at [to_points] or more with a lead of at least
    two, reached at the first point where that holds. *)
Theorem simulate_tiebreak_first_win
    (p1 p2 : PlayerStats) (to_points : Z) (use_adjustment : option bool)
    (rs : RandomSource) (tb : TiebreakResult) (rs' : RandomSource) :
  simulate_tiebreak p1 p2 to_points use_adjustment rs = Ret tb rs' ->
  (tiebreak_server_is_p1 0 = true
   /\ forall i, 1 <= i ->
        (tiebreak_server_is_p1 i = true <-> ((i - 1) / 2) mod 2 = 0))
  /\ (forall i,
        tiebreak_point p1 p2 use_adjustment i =
        if tiebreak_server_is_p1 i then
          bind (simulate_point p1 (Some p2) use_adjustment)
               (fun r => ret (if point_winner r =? 1 then 1 else 2))
        else
          bind (simulate_point p2 (Some p1) use_adjustment)
               (fun r => ret (if point_winner r =? 1 then 2 else 1)))
  /\ exists ws,
       play_tiebreak_points (List.length ws) p1 p2 use_adjustment 0 rs = Ret ws rs'
       /\ tb_score tb = tally ws
       /\ ((tb_winner tb = 1 /\ fst (tb_score tb) >= to_points
            /\ fst (tb_score tb) - snd (tb_score tb) >= 2)
           \/ (tb_winner tb = 2 /\ snd (tb_score tb) >= to_points
               /\ snd (tb_score tb) - fst (tb_score tb) >= 2))
       /\ forall k, (k < List.length ws)%nat ->
            won_by_two to_points (tally (firstn k ws)) = false.
Proof.
  intros H. split; [| split].
  - split; [reflexivity |]. intros i Hi. unfold tiebreak_server_is_p1.
    destruct (i =? 0) eqn:E; [lia |]. apply Z.eqb_eq.
  - reflexivity.
  - unfold simulate_tiebreak, with_fuel in H.
    apply tiebreak_loop_first_win in H.
    destruct H as (ws & Hne & Hplay & Hscore & Hwin & Hfirst).
    exists ws. repeat split; try assumption.
    intros [| k] Hk.
    + unfold won_by_two. cbn. rewrite !andb_false_r. reflexivity.
    + apply Hfirst. lia.
Qed.

Lemma simulate_tiebreak_first_win_witness :
  (tiebreak_server_is_p1 0 = true
   /\ forall i, 1 <= i ->
        (tiebreak_server_is_p1 i = true <-> ((i - 1) / 2) mod 2 = 0))
  /\ (forall i,
        tiebreak_point player1 player2 None i =
        if tiebreak_server_is_p1 i then
          bind (simulate_point player1 (Some player2) None)
               (fun r => ret (if point_winner r =? 1 then 1 else 2))
        else
          bind (simulate_point player2 (Some player1) None)
               (fun r => ret (if point_winner r =? 1 then 2 else 1)))
  /\ exists ws,
       play_tiebreak_points (List.length ws) player1 player2 None 0
         (mkSource tiebreak_7_0 []) = Ret ws (mkSource [] [])
       /\ (7, 0) = tally ws
       /\ ((1 = 1 /\ 7 >= 7 /\ 7 - 0 >= 2) \/ (1 = 2 /\ 0 >= 7 /\ 0 - 7 >= 2))
       /\ forall k, (k < List.length ws)%nat ->
            won_by_two 7 (tally (firstn k ws)) = false.
Proof.
  apply (simulate_tiebreak_first_win player1 player2 7 None
           (mkSource tiebreak_7_0 []) (mkTiebreakResult 1 (7, 0)) (mkSource [] [])).
  vm_compute. reflexivity.
Defined.

(* ======================================================================= *)
(** ** Set simulation *)
(* ======================================================================= *)

Lemma flip_server_is_p1 (server : Z) :
  ((if server =? 1 then 2 else 1) =? 1) = negb (server =? 1).
Proof. destruct (server =? 1); reflexivity. Qed.

Section SetProperties.

Variables (p1 p2 : PlayerStats) (tiebreak_at : Z) (final_set_tb : string)
          (use_adjustment : option bool).

(** One turn of the loop: the game is [set_game] with the current
    server. *)
Lemma set_loop_step (fuel : nat) (a b server : Z) :
  set_loop (S fuel) p1 p2 tiebreak_at final_set_tb use_adjustment a b server =
  (w <- set_game p1 p2 use_adjustment (server =? 1) ;;
   let a' := if w =? 1 then a + 1 else a in
   let b' := if w =? 1 then b else b + 1 in
   if (a' >=? 6) && (a' - b' >=? 2) then
     ret (mkSetResult 1 (a', b') false None)
   else if (b' >=? 6) && (b' - a' >=? 2) then
     ret (mkSetResult 2 (a', b') false None)
   else if (a' =? tiebreak_at) && (b' =? tiebreak_at) then
     if (final_set_tb =? "none")%string then
       set_loop fuel p1 p2 tiebreak_at final_set_tb use_adjustment a' b'
                (if server =? 1 then 2 else 1)
     else
       tb <- simulate_tiebreak p1 p2
               (if (final_set_tb =? "super")%string then 10 else 7)
               use_adjustment ;;
       ret (mkSetResult (tb_winner tb)
              (if tb_winner tb =? 1 then a' + 1 else a',
               if tb_winner tb =? 1 then b' else b' + 1)
              true (Some (tb_score tb)))
   else
     set_loop fuel p1 p2 tiebreak_at final_set_tb use_adjustment a' b'
              (if server =? 1 then 2 else 1)).
Proof.
  cbn [set_loop]. unfold set_game. destruct (server =? 1); reflexivity.
Qed.

Lemma set_loop_ending (fuel : nat) : forall a b server rs s rs',
  set_loop fuel p1 p2 tiebreak_at final_set_tb use_adjustment a b server rs
    = Ret s rs' ->
  exists gs rs1,
    gs <> []
    /\ play_games (List.length gs) p1 p2 use_adjustment (server =? 1) rs
       = Ret gs rs1
    /\ set_ending p1 p2 tiebreak_at final_set_tb use_adjustment
         (tally_from (a, b) gs) rs1 s rs'.
Proof.
  induction fuel as [| fuel IH]; intros a b server rs s rs' H; [discriminate |].
  rewrite set_loop_step in H. apply bind_Ret in H.
  destruct H as (w & rs1 & Hw & H). cbv zeta in H.
  pose proof (add_point_eq a b w) as Ea.
  set (a' := if w =? 1 then a + 1 else a) in *.
  set (b' := if w =? 1 then b else b + 1) in *.
  assert (Hone : play_games 1 p1 p2 use_adjustment (server =? 1) rs = Ret [w] rs1).
  { cbn [play_games]. unfold bind. rewrite Hw. reflexivity. }
  assert (Hmore : forall gs rs2,
            play_games (List.length gs) p1 p2 use_adjustment
              ((if server =? 1 then 2 else 1) =? 1) rs1 = Ret gs rs2 ->
            play_games (List.length (w :: gs)) p1 p2 use_adjustment
              (server =? 1) rs = Ret (w :: gs) rs2).
  { intros gs rs2 Hg. rewrite flip_server_is_p1 in Hg.
    cbn [List.length play_games]. unfold bind. rewrite Hw.
    unfold bind in Hg. rewrite Hg. reflexivity. }
  destruct ((a' >=? 6) && (a' - b' >=? 2)) eqn:G1.
  { apply ret_Ret in H. destruct H as [<- <-]. apply andb_true_iff in G1.
    exists [w], rs1. split; [discriminate |]. split; [exact Hone |].
    left. cbn [tally_from fold_left]. rewrite Ea. cbn.
    repeat split; try reflexivity. left. split; [reflexivity |]. lia. }
  destruct ((b' >=? 6) && (b' - a' >=? 2)) eqn:G2.
  { apply ret_Ret in H. destruct H as [<- <-]. apply andb_true_iff in G2.
    exists [w], rs1. split; [discriminate |]. split; [exact Hone |].
    left. cbn [tally_from fold_left]. rewrite Ea. cbn.
    repeat split; try reflexivity. right. split; [reflexivity |]. lia. }
  destruct ((a' =? tiebreak_at) && (b' =? tiebreak_at)) eqn:G3.
  - destruct (final_set_tb =? "none")%string eqn:Epol.
    + apply IH in H. destruct H as (gs & rs2 & Hne & Hplay & Hend).
      exists (w :: gs), rs2. split; [discriminate |].
      split; [now apply Hmore |].
      rewrite tally_from_cons, Ea. exact Hend.
    + apply bind_Ret in H. destruct H as (tb & rs2 & Htb & H).
      apply ret_Ret in H. destruct H as [<- <-].
      apply andb_true_iff in G3. destruct G3 as [Ga Gb].
      apply Z.eqb_eq in Ga, Gb.
      exists [w], rs1. split; [discriminate |]. split; [exact Hone |].
      right. cbn [tally_from fold_left]. rewrite Ea.
      cbn [tiebreak tiebreak_score set_winner set_score].
      split; [reflexivity |]. split; [exact Epol |].
      split; [f_equal; assumption |].
      exists tb. split; [exact Htb |]. split; [reflexivity |].
      split; [reflexivity |]. now rewrite add_point_eq.
  - apply IH in H. destruct H as (gs & rs2 & Hne & Hplay & Hend).
    exists (w :: gs), rs2. split; [discriminate |].
    split; [now apply Hmore |].
    rewrite tally_from_cons, Ea. exact Hend.
Qed.

Lemma set_game_draws (p1_serves : bool) :
  draws (set_game p1 p2 use_adjustment p1_serves).
Proof.
  unfold set_game. destruct p1_serves;
    (apply draws_bind_l; [apply simulate_game_draws | intros g; apply keeps_ret]).
Qed.

Lemma play_games_keeps (n : nat) : forall p1_serves,
  keeps (play_games n p1 p2 use_adjustment p1_serves).
Proof.
  induction n as [| n IH]; intros p1_serves; [apply keeps_ret |].
  cbn [play_games]. apply keeps_bind.
  - apply draws_keeps, set_game_draws.
  - intros w. apply keeps_bind; [apply IH | intros ws; apply keeps_ret].
Qed.

Lemma simulate_set_draws (first_server : Z) :
  draws (simulate_set p1 p2 first_server tiebreak_at final_set_tb use_adjustment).
Proof.
  intros rs s rs' H. unfold simulate_set, with_fuel in H.
  apply set_loop_ending in H. destruct H as (gs & rs1 & Hne & Hplay & Hend).
  assert (Hlt : (List.length (uniforms rs1) < List.length (uniforms rs))%nat).
  { destruct gs as [| g gs]; [congruence |].
    cbn [List.length play_games] in Hplay. revert Hplay.
    apply draws_bind_l; [apply set_game_draws |].
    intros w. apply keeps_bind; [apply play_games_keeps | intros ws; apply keeps_ret]. }
  destruct Hend as [(_ & _ & -> & _) | (_ & _ & _ & tb & Htb & _)]; [exact Hlt |].
  apply simulate_tiebreak_draws in Htb. lia.
Qed.

Lemma set_loop_fuel (f1 : nat) : forall f2 a b server rs,
  (List.length (uniforms rs) < f1)%nat -> (List.length (uniforms rs) < f2)%nat ->
  set_loop f1 p1 p2 tiebreak_at final_set_tb use_adjustment a b server rs
  = set_loop f2 p1 p2 tiebreak_at final_set_tb use_adjustment a b server rs.
Proof.
  induction f1 as [| f1 IH]; intros f2 a b server rs H1 H2; [lia |].
  destruct f2 as [| f2]; [lia |].
  rewrite !set_loop_step. unfold bind.
  destruct (set_game p1 p2 use_adjustment (server =? 1) rs) as [w rs1 | e |] eqn:Hw;
    try reflexivity.
  apply set_game_draws in Hw. cbv zeta.
  repeat match goal with
  | |- context [if ?c && ?d then _ else _] => destruct (c && d)
  end; try reflexivity; try (apply IH; lia).
  destruct (final_set_tb =? "none")%string; [apply IH; lia | reflexivity].
Qed.

End SetProperties.

(** C6: a returned set ended in exactly one of two ways, told apart by
    its tiebreak flag.  Either (a) one player has six games or more with a
    lead of two, the flag is unset and there is no tiebreak score; or (b)
    the players were level at [tiebreak_at] games, the policy is "normal"
    or "super", a tiebreak to 7 or 10 points respectively was run, its
    winner got one more game, and the flag is set with the tiebreak score
    attached.  In both the games were served in alternation from
    [first_server] on.  Under "none" only (a) occurs, so the lead is two
    and 7-6 or 8-7 is never returned, while 7-5 and 8-6 are. *)
Theorem simulate_set_endings :
  (forall (p1 p2 : PlayerStats) (first_server tiebreak_at : Z)
          (final_set_tb : string) (use_adjustment : option bool)
          (rs : RandomSource) (s : SetResult) (rs' : RandomSource),
     is_policy final_set_tb = true ->
     simulate_set p1 p2 first_server tiebreak_at final_set_tb use_adjustment rs
       = Ret s rs' ->
     exists gs rs1,
       play_games (List.length gs) p1 p2 use_adjustment (first_server =? 1) rs
         = Ret gs rs1
       /\ ((tiebreak s = false /\ tiebreak_score s = None /\ rs' = rs1
            /\ set_score s = tally gs
            /\ ((set_winner s = 1 /\ fst (set_score s) >= 6
                 /\ fst (set_score s) - snd (set_score s) >= 2)
                \/ (set_winner s = 2 /\ snd (set_score s) >= 6
                    /\ snd (set_score s) - fst (set_score s) >= 2)))
           \/
           (tiebreak s = true /\ tally gs = (tiebreak_at, tiebreak_at)
            /\ exists target tb,
                 ((final_set_tb = "normal"%string /\ target = 7)
                  \/ (final_set_tb = "super"%string /\ target = 10))
                 /\ simulate_tiebreak p1 p2 target use_adjustment rs1 = Ret tb rs'
                 /\ tiebreak_score s = Some (tb_score tb)
                 /\ set_winner s = tb_winner tb
                 /\ ((tb_winner tb = 1
                      /\ set_score s = (tiebreak_at + 1, tiebreak_at))
                     \/ (tb_winner tb = 2
                         /\ set_score s = (tiebreak_at, tiebreak_at + 1)))))
       /\ (final_set_tb = "none"%string ->
           tiebreak s = false
           /\ (fst (set_score s) - snd (set_score s) >= 2
               \/ snd (set_score s) - fst (set_score s) >= 2)
           /\ ~ In (set_score s) [(7, 6); (6, 7); (8, 7); (7, 8)]))
  /\ simulate_set player1 player2 1 6 "none" None (mkSource set_7_5 [])
     = Ret (mkSetResult 1 (7, 5) false None) (mkSource [] [])
  /\ simulate_set player1 player2 1 6 "none" None (mkSource set_8_6 [])
     = Ret (mkSetResult 1 (8, 6) false None) (mkSource [] []).
Proof.
  split; [| split; vm_compute; reflexivity].
  intros p1 p2 first_server tiebreak_at final_set_tb use_adjustment rs s rs'
         Hpol H.
  unfold simulate_set, with_fuel in H. apply set_loop_ending in H.
  destruct H as (gs & rs1 & _ & Hplay & Hend).
  exists gs, rs1. split; [exact Hplay |].
  fold (tally gs) in Hend.
  destruct Hend as [(Hflag & Hsub & Hrs & Hscore & Hwin)
                   | (Hflag & Hnone & Htie & tb & Htb & Hsub & Hw & Hscore)].
  - split.
    + left. rewrite Hscore. repeat split; assumption.
    + intros _. split; [exact Hflag |]. rewrite Hscore.
      split; [destruct Hwin as [(_ & _ & L) | (_ & _ & L)]; [left | right]; exact L |].
      intros Hin. cbn [In] in Hin.
      destruct Hin as [E | [E | [E | [E | []]]]]; rewrite <- E in Hwin;
        cbn [fst snd] in Hwin; lia.
  - split.
    + right. split; [exact Hflag |]. split; [exact Htie |].
      exists (if (final_set_tb =? "super")%string then 10 else 7), tb.
      split.
      { unfold is_policy in Hpol. rewrite Hnone, orb_false_r in Hpol.
        destruct (final_set_tb =? "super")%string eqn:Es.
        - right. split; [now apply String.eqb_eq | reflexivity].
        - left. rewrite orb_false_r in Hpol.
          split; [now apply String.eqb_eq | reflexivity]. }
      split; [exact Htb |]. split; [exact Hsub |]. split; [exact Hw |].
      unfold simulate_tiebreak, with_fuel in Htb.
      apply tiebreak_loop_first_win in Htb.
      destruct Htb as (ws & _ & _ & _ & Hwinner & _).
      rewrite Hscore, Htie.
      destruct Hwinner as [(W & _) | (W & _)]; rewrite W; [left | right];
        split; reflexivity.
    + intros ->. discriminate Hnone.
Qed.

Lemma simulate_set_endings_witness :
  exists gs rs1,
    play_games (List.length gs) player1 player2 None (1 =? 1) (mkSource set_7_6 [])
      = Ret gs rs1
    /\ tally gs = (6, 6)
    /\ simulate_tiebreak player1 player2 7 None rs1
       = Ret (mkTiebreakResult 1 (7, 0)) (mkSource [] []).
Proof.
  destruct (proj1 simulate_set_endings player1 player2 1 6 "normal"%string None
              (mkSource set_7_6 [])
              (mkSetResult 1 (7, 6) true (Some (7, 0))) (mkSource [] []))
    as (gs & rs1 & Hplay & Hend & _).
  - reflexivity.
  - vm_compute. reflexivity.
  - exists gs, rs1. split; [exact Hplay |].
    destruct Hend as [(Hflag & _) | (_ & Htie & target & tb & Htarget & Htb & Hsub & _)].
    + discriminate Hflag.
    + split; [exact Htie |].
      destruct Htarget as [(_ & ->) | (Hs & _)]; [| discriminate Hs].
      cbn [tiebreak_score] in Hsub. injection Hsub as Hsub.
      rewrite Htb. f_equal.
      apply tiebreak_loop_first_win in Htb as Htb'.
      destruct tb as [w sc]. cbn [tb_score] in Hsub. subst sc.
      destruct Htb' as (ws & _ & _ & _ & Hwinner & _).
      cbn [tb_winner tb_score fst snd] in Hwinner.
      destruct Hwinner as [(-> & _) | (_ & L & _)]; [reflexivity | lia].
Defined.

(* ======================================================================= *)
(** ** Match simulation *)
(* ======================================================================= *)

(** [(best_of + 1) // 2] is [ceil(best_of / 2)]. *)
Lemma sets_to_win_ceil (best_of : Z) : (best_of + 1) / 2 = ceil_half best_of.
Proof. unfold ceil_half. Z.div_mod_to_equations. lia. Qed.

Section MatchProperties.

Variables (p1 p2 : PlayerStats) (sets_to_win : Z) (final_set_tb : string)
          (use_adjustment : option bool).

(** The loop is the run of sets described by [sets_played], and it stops
    only when a player has [sets_to_win] sets. *)
Lemma match_loop_run (fuel : nat) : forall a b scores server rs a' b' scores' rs',
  match_loop fuel p1 p2 sets_to_win final_set_tb use_adjustment
             a b scores server rs = Ret (a', b', scores') rs' ->
  exists sets server',
    sets_played p1 p2 sets_to_win final_set_tb use_adjustment
                (a, b) server rs sets (a', b') server' rs'
    /\ scores' = scores ++ map set_score sets
    /\ (a' <? sets_to_win) && (b' <? sets_to_win) = false.
Proof.
  induction fuel as [| fuel IH]; intros a b scores server rs a' b' scores' rs' H;
    cbn [match_loop] in H;
    destruct ((a <? sets_to_win) && (b <? sets_to_win)) eqn:Hgo;
    try discriminate.
  - apply ret_Ret in H. destruct H as [H <-]. injection H as <- <- <-.
    exists [], server. split; [constructor |].
    split; [now rewrite app_nil_r | exact Hgo].
  - apply bind_Ret in H. destruct H as (s & rs1 & Hs & H).
    apply IH in H. destruct H as (sets & server' & Hrun & Hscores & Hstop).
    apply andb_true_iff in Hgo. destruct Hgo as [Ha Hb].
    apply Z.ltb_lt in Ha, Hb.
    exists (s :: sets), server'. split; [| split; [| exact Hstop]].
    + apply sets_played_next with (rs1 := rs1); try assumption.
      rewrite add_point_eq, Zodd_mod. exact Hrun.
    + rewrite Hscores, <- app_assoc. reflexivity.
  - apply ret_Ret in H. destruct H as [H <-]. injection H as <- <- <-.
    exists [], server. split; [constructor |].
    split; [now rewrite app_nil_r | exact Hgo].
Qed.

(** Along a run no player passes [sets_to_win], and the two never reach
    it together. *)
Lemma sets_played_bound score server rs sets score' server' rs' :
  sets_played p1 p2 sets_to_win final_set_tb use_adjustment
              score server rs sets score' server' rs' ->
  fst score <= sets_to_win -> snd score <= sets_to_win ->
  ~ (fst score = sets_to_win /\ snd score = sets_to_win) ->
  fst score' <= sets_to_win /\ snd score' <= sets_to_win
  /\ ~ (fst score' = sets_to_win /\ snd score' = sets_to_win).
Proof.
  induction 1 as [| a b server rs s rs1 sets score' server' rs' Ha Hb Hs Hrun IH];
    intros H1 H2 H3; [now repeat split |].
  apply IH; rewrite add_point_eq; cbn [fst snd];
    destruct (set_winner s =? 1); lia.
Qed.

Lemma match_loop_fuel (f1 : nat) : forall f2 a b scores server rs,
  (List.length (uniforms rs) < f1)%nat -> (List.length (uniforms rs) < f2)%nat ->
  match_loop f1 p1 p2 sets_to_win final_set_tb use_adjustment a b scores server rs
  = match_loop f2 p1 p2 sets_to_win final_set_tb use_adjustment a b scores server rs.
Proof.
  induction f1 as [| f1 IH]; intros f2 a b scores server rs H1 H2; [lia |].
  destruct f2 as [| f2]; [lia |].
  cbn [match_loop].
  destruct ((a <? sets_to_win) && (b <? sets_to_win)); [| reflexivity].
  unfold bind.
  match goal with
  | |- context [simulate_set ?x1 ?x2 ?x3 ?x4 ?x5 ?x6 rs] =>
      destruct (simulate_set x1 x2 x3 x4 x5 x6 rs) as [s rs1 | e |] eqn:Hs
  end; try reflexivity.
  apply simulate_set_draws in Hs. apply IH; lia.
Qed.

End MatchProperties.

(** A returned match, for a positive [best_of]: who served first, the run
    of its sets, and its final score. *)
Lemma simulate_match_inversion
    (p1 p2 : PlayerStats) (best_of : Z) (final_set_tb : string)
    (use_adjustment : option bool) (rs : RandomSource)
    (m : MatchResult) (rs' : RandomSource) :
  1 <= best_of ->
  simulate_match p1 p2 best_of final_set_tb use_adjustment rs = Ret m rs' ->
  exists c cs sets last_server,
    choices rs = c :: cs
    /\ sets_played p1 p2 ((best_of + 1) / 2) final_set_tb use_adjustment
         (0, 0) (if c then 1 else 2) (mkSource (uniforms rs) cs)
         sets (match_score m) last_server rs'
    /\ set_scores m = map set_score sets
    /\ score_string m = format_score (set_scores m)
    /\ ((match_winner m = 1 /\ fst (match_score m) = (best_of + 1) / 2
         /\ snd (match_score m) < (best_of + 1) / 2)
        \/ (match_winner m = 2 /\ snd (match_score m) = (best_of + 1) / 2
            /\ fst (match_score m) < (best_of + 1) / 2)).
Proof.
  intros Hbest H. unfold simulate_match in H.
  apply bind_Ret in H. destruct H as (first_server & rs0 & Hc & H).
  unfold random_choice_1_2 in Hc.
  destruct (choices rs) as [| c cs] eqn:Ec; [discriminate |].
  injection Hc as <- <-.
  apply bind_Ret in H. destruct H as ([[a b] scores] & rs1 & Hloop & H).
  apply ret_Ret in H. destruct H as [<- <-].
  unfold with_fuel in Hloop. apply match_loop_run in Hloop.
  destruct Hloop as (sets & last_server & Hrun & Hscores & Hstop).
  exists c, cs, sets, last_server.
  cbn [match_score match_winner set_scores score_string fst snd].
  split; [reflexivity |]. split; [exact Hrun |]. split; [exact Hscores |].
  split; [reflexivity |].
  assert (Hstw : 1 <= (best_of + 1) / 2) by (Z.div_mod_to_equations; lia).
  apply sets_played_bound in Hrun; cbn [fst snd] in *; try lia.
  apply andb_false_iff in Hstop. rewrite !Z.ltb_ge in Hstop.
  destruct (a >? b) eqn:Hab; [left | right];
    (split; [reflexivity |]); rewrite ?Z.gtb_ltb, ?Z.ltb_lt, ?Z.ltb_ge in Hab; lia.
Qed.

(** C7: for a positive [best_of], a returned match was played to
    [ceil(best_of / 2)] sets (2 for a best of 3, 3 for a best of 5): the
    winner has exactly that many sets and the loser fewer.  Its sets form a
    run of [sets_played]: a set is played only while neither player has
    [sets_to_win] sets, with the caller's final-set policy iff both
    players are one set away from winning and with "normal" otherwise, and
    after each set the first server flips iff the set had an odd number of
    games. *)
Theorem simulate_match_run
    (p1 p2 : PlayerStats) (best_of : Z) (final_set_tb : string)
    (use_adjustment : option bool) (rs : RandomSource)
    (m : MatchResult) (rs' : RandomSource) :
  1 <= best_of ->
  simulate_match p1 p2 best_of final_set_tb use_adjustment rs = Ret m rs' ->
  (best_of = 3 -> ceil_half best_of = 2)
  /\ (best_of = 5 -> ceil_half best_of = 3)
  /\ exists c cs sets last_server,
       choices rs = c :: cs
       /\ sets_played p1 p2 (ceil_half best_of) final_set_tb use_adjustment
            (0, 0) (if c then 1 else 2) (mkSource (uniforms rs) cs)
            sets (match_score m) last_server rs'
       /\ set_scores m = map set_score sets
       /\ ((match_winner m = 1 /\ fst (match_score m) = ceil_half best_of
            /\ snd (match_score m) < ceil_half best_of)
           \/ (match_winner m = 2 /\ snd (match_score m) = ceil_half best_of
               /\ fst (match_score m) < ceil_half best_of)).
Proof.
  intros Hbest H.
  split; [intros ->; reflexivity |]. split; [intros ->; reflexivity |].
  apply simulate_match_inversion in H; [| exact Hbest].
  rewrite sets_to_win_ceil in H.
  destruct H as (c & cs & sets & last_server & Hc & Hrun & Hscores & _ & Hwin).
  now exists c, cs, sets, last_server.
Qed.

Lemma simulate_match_run_witness :
  (3 = 3 -> ceil_half 3 = 2)
  /\ (3 = 5 -> ceil_half 3 = 3)
  /\ exists c cs sets last_server,
       [true] = c :: cs
       /\ sets_played player1 player2 (ceil_half 3) "normal" None
            (0, 0) (if c then 1 else 2) (mkSource (set_6_0 ++ set_6_0) cs)
            sets (2, 0) last_server (mkSource [] [])
       /\ [(6, 0); (6, 0)] = map set_score sets
       /\ ((1 = 1 /\ 2 = ceil_half 3 /\ 0 < ceil_half 3)
           \/ (1 = 2 /\ 0 = ceil_half 3 /\ 2 < ceil_half 3)).
Proof.
  apply (simulate_match_run player1 player2 3 "normal" None
           (mkSource (set_6_0 ++ set_6_0) [true])
           (mkMatchResult 1 (2, 0) [(6, 0); (6, 0)] "6-0 6-0")
           (mkSource [] [])).
  - lia.
  - vm_compute. reflexivity.
Defined.

(* ======================================================================= *)
(** ** Winner and score *)
(* ======================================================================= *)

(** A result won by [x] when the first count is larger and by [y] when
    the second is: the winner field and the score then determine each
    other. *)
Lemma winner_iff (w x y a b : Z) :
  x <> y ->
  (w = x /\ a > b) \/ (w = y /\ b > a) ->
  (w = x <-> a > b) /\ (w = y <-> b > a).
Proof. intros Hxy [[-> H] | [-> H]]; repeat split; intros; try lia; congruence. Qed.

(** C10: in every returned result the winner field names the side with
    the strictly larger score component: 1 (server) against 0 (returner)
    in a [GameResult], 1 against 2 in a [TiebreakResult], a [SetResult]
    and, for a positive [best_of], a [MatchResult].  A set decided by a
    tiebreak is won by exactly one game, and no result carries a tied
    score. *)
Theorem winner_matches_score :
  (forall server returner use_adjustment rs g rs',
     simulate_game server returner use_adjustment rs = Ret g rs' ->
     (game_winner g = 1 <-> fst (game_score g) > snd (game_score g))
     /\ (game_winner g = 0 <-> snd (game_score g) > fst (game_score g)))
  /\ (forall p1 p2 to_points use_adjustment rs tb rs',
        simulate_tiebreak p1 p2 to_points use_adjustment rs = Ret tb rs' ->
        (tb_winner tb = 1 <-> fst (tb_score tb) > snd (tb_score tb))
        /\ (tb_winner tb = 2 <-> snd (tb_score tb) > fst (tb_score tb)))
  /\ (forall p1 p2 first_server tiebreak_at final_set_tb use_adjustment rs s rs',
        simulate_set p1 p2 first_server tiebreak_at final_set_tb use_adjustment rs
          = Ret s rs' ->
        (set_winner s = 1 <-> fst (set_score s) > snd (set_score s))
        /\ (set_winner s = 2 <-> snd (set_score s) > fst (set_score s))
        /\ (tiebreak s = true ->
            (set_winner s = 1 /\ fst (set_score s) = snd (set_score s) + 1)
            \/ (set_winner s = 2 /\ snd (set_score s) = fst (set_score s) + 1)))
  /\ (forall p1 p2 best_of final_set_tb use_adjustment rs m rs',
        1 <= best_of ->
        simulate_match p1 p2 best_of final_set_tb use_adjustment rs = Ret m rs' ->
        (match_winner m = 1 <-> fst (match_score m) > snd (match_score m))
        /\ (match_winner m = 2 <-> snd (match_score m) > fst (match_score m))).
Proof.
  split; [| split; [| split]].
  - intros server returner use_adjustment rs g rs' H.
    unfold simulate_game, with_fuel in H. apply game_loop_first_win in H.
    destruct H as (pts & _ & _ & _ & Hwin & _).
    apply winner_iff; [discriminate |].
    destruct Hwin as [(W & ? & ?) | (W & ? & ?)]; [left | right]; split; (exact W || lia).
  - intros p1 p2 to_points use_adjustment rs tb rs' H.
    unfold simulate_tiebreak, with_fuel in H. apply tiebreak_loop_first_win in H.
    destruct H as (ws & _ & _ & _ & Hwin & _).
    apply winner_iff; [discriminate |].
    destruct Hwin as [(W & ? & ?) | (W & ? & ?)]; [left | right]; split; (exact W || lia).
  - intros p1 p2 first_server tiebreak_at final_set_tb use_adjustment rs s rs' H.
    unfold simulate_set, with_fuel in H. apply set_loop_ending in H.
    destruct H as (gs & rs1 & _ & _ & Hend).
    destruct Hend as [(Hflag & _ & _ & Hscore & Hwin)
                     | (Hflag & _ & Htie & tb & Htb & _ & Hw & Hscore)].
    + rewrite Hscore.
      assert (Hiff := winner_iff (set_winner s) 1 2
                        (fst (tally_from (0, 0) gs)) (snd (tally_from (0, 0) gs))).
      destruct Hiff as [I1 I2]; [discriminate | |].
      * destruct Hwin as [(W & ? & ?) | (W & ? & ?)]; [left | right];
          split; (exact W || lia).
      * split; [exact I1 |]. split; [exact I2 |]. congruence.
    + unfold simulate_tiebreak, with_fuel in Htb.
      apply tiebreak_loop_first_win in Htb.
      destruct Htb as (ws & _ & _ & _ & Hwinner & _).
      rewrite Hscore, Htie, Hw, add_point_eq. cbn [fst snd].
      destruct Hwinner as [(W & _) | (W & _)]; rewrite W; cbn [Z.eqb Pos.eqb];
        repeat split; intros; try lia; discriminate.
  - intros p1 p2 best_of final_set_tb use_adjustment rs m rs' Hbest H.
    apply simulate_match_inversion in H; [| exact Hbest].
    destruct H as (c & cs & sets & last_server & _ & _ & _ & _ & Hwin).
    apply winner_iff; [discriminate |].
    destruct Hwin as [(W & ? & ?) | (W & ? & ?)]; [left | right]; split; (exact W || lia).
Qed.

Lemma winner_matches_score_witness :
  ((1 = 1 <-> 4 > 0) /\ (1 = 0 <-> 0 > 4))
  /\ ((1 = 1 <-> 7 > 0) /\ (1 = 2 <-> 0 > 7))
  /\ ((1 = 1 <-> 7 > 6) /\ (1 = 2 <-> 6 > 7)
      /\ (true = true -> (1 = 1 /\ 7 = 6 + 1) \/ (1 = 2 /\ 6 = 7 + 1)))
  /\ ((2 = 1 <-> 0 > 2) /\ (2 = 2 <-> 2 > 0)).
Proof.
  destruct winner_matches_score as (Hgame & Htb & Hset & Hmatch).
  split; [| split; [| split]].
  - apply (Hgame player1 (Some player2) None (mkSource hold [])
             (mkGameResult 1 (4, 0)) (mkSource [] [])).
    vm_compute. reflexivity.
  - apply (Htb player1 player2 7 None (mkSource tiebreak_7_0 [])
             (mkTiebreakResult 1 (7, 0)) (mkSource [] [])).
    vm_compute. reflexivity.
  - apply (Hset player1 player2 1 6 "normal"%string None (mkSource set_7_6 [])
             (mkSetResult 1 (7, 6) true (Some (7, 0))) (mkSource [] [])).
    vm_compute. reflexivity.
  - apply (Hmatch player1 player2 3 "normal"%string None
             (mkSource (set_6_0 ++ set_6_0) [false])
             (mkMatchResult 2 (0, 2) [(0, 6); (0, 6)] "0-6 0-6") (mkSource [] [])).
    + lia.
    + vm_compute. reflexivity.
Defined.

(* ======================================================================= *)
(** ** Errors *)
(* ======================================================================= *)

Lemma never_raises_ret {A} (a : A) : never_raises (ret a).
Proof.
  intros rs Hrs. split; [discriminate |].
  intros b rs' E. apply ret_Ret in E. destruct E as [_ <-]. exact Hrs.
Qed.

Lemma never_raises_starve {A} : never_raises (@starve A).
Proof. intros rs Hrs. split; discriminate. Qed.

Lemma never_raises_bind {A B} (m : M A) (k : A -> M B) :
  never_raises m -> (forall a, never_raises (k a)) -> never_raises (bind m k).
Proof.
  intros Hm Hk rs Hrs. destruct (Hm rs Hrs) as [Hm1 Hm2]. unfold bind.
  destruct (m rs) as [a rs1 | e |] eqn:E.
  - apply (Hk a rs1). now apply (Hm2 a).
  - now destruct (Hm1 e).
  - split; discriminate.
Qed.

Lemma never_raises_with_fuel {A} (loop : nat -> M A) :
  (forall fuel, never_raises (loop fuel)) -> never_raises (with_fuel loop).
Proof. intros H rs. apply H. Qed.

Lemma never_raises_random_choice : never_raises random_choice_1_2.
Proof.
  intros rs Hrs. unfold random_choice_1_2.
  destruct (choices rs) as [| c cs]; split; try discriminate.
  intros a rs' E. injection E as _ <-. exact Hrs.
Qed.

(** The draws a documented point leaves are a suffix of those it got. *)
Lemma documented_point_suffix server returner use_adjustment us r rest :
  documented_point server returner use_adjustment us = Some (r, rest) ->
  exists used, us = used ++ rest.
Proof.
  unfold documented_point.
  destruct us as [| u1 [| u2 [| u3 us]]]; try discriminate;
    destruct (u1 <? first_in_pct server)%float;
    match goal with
    | |- context [(?u <? ?a / ?b)%float] => destruct (u <? a / b)%float
    end; intros H; try discriminate; injection H as _ <-;
    first [ now exists [u1; u2] | now exists [u1; u2; u3] ].
Qed.

(** On draws in [0, 1) neither division of [simulate_point] can fail, so
    the point is the documented one for any statistics. *)
Lemma simulate_point_unit_draws server returner use_adjustment rs :
  unit_draws rs ->
  simulate_point server returner use_adjustment rs =
  match documented_point server returner use_adjustment (uniforms rs) with
  | Some (r, rest) => Ret r (mkSource rest (choices rs))
  | None => Starved
  end.
Proof.
  intros Hdraws. rewrite simulate_point_unfold. unfold unit_draws in Hdraws.
  destruct (uniforms rs) as [| u1 rest1] eqn:Eu; [reflexivity |].
  inversion Hdraws as [| ? ? Hu1 _]; subst.
  unfold unit_draw in Hu1. apply andb_true_iff in Hu1. destruct Hu1 as [H0 H1].
  destruct (u1 <? first_in_pct server)%float eqn:Hin.
  - rewrite (above_nonneg_nonzero _ _ H0 Hin). reflexivity.
  - rewrite (not_below_sub_nonzero _ _ H1 Hin). reflexivity.
Qed.

Lemma never_raises_simulate_point server returner use_adjustment :
  never_raises (simulate_point server returner use_adjustment).
Proof.
  intros rs Hrs. rewrite (simulate_point_unit_draws _ _ _ _ Hrs).
  destruct (documented_point server returner use_adjustment (uniforms rs))
    as [[r rest] |] eqn:Ed; split; try discriminate.
  intros a rs' E. injection E as _ <-.
  apply documented_point_suffix in Ed. destruct Ed as (used & Eu).
  unfold unit_draws in *. cbn [uniforms]. rewrite Eu in Hrs.
  now apply Forall_app in Hrs.
Qed.

Lemma never_raises_game_loop server returner use_adjustment (fuel : nat) :
  forall a b, never_raises (game_loop fuel server returner use_adjustment a b).
Proof.
  induction fuel as [| fuel IH]; intros a b; [apply never_raises_starve |].
  cbn [game_loop]. apply never_raises_bind; [apply never_raises_simulate_point |].
  intros p.
  repeat match goal with
  | |- context [if ?c && ?d then _ else _] => destruct (c && d)
  end; first [apply never_raises_ret | apply IH].
Qed.

Lemma never_raises_simulate_game server returner use_adjustment :
  never_raises (simulate_game server returner use_adjustment).
Proof.
  apply never_raises_with_fuel. intros fuel. apply never_raises_game_loop.
Qed.

Lemma never_raises_tiebreak_point p1 p2 use_adjustment i :
  never_raises (tiebreak_point p1 p2 use_adjustment i).
Proof.
  unfold tiebreak_point. destruct (tiebreak_server_is_p1 i);
    (apply never_raises_bind;
     [apply never_raises_simulate_point | intros r; apply never_raises_ret]).
Qed.

Lemma never_raises_tiebreak_loop p1 p2 to_points use_adjustment (fuel : nat) :
  forall a b i,
  never_raises (tiebreak_loop fuel p1 p2 to_points use_adjustment a b i).
Proof.
  induction fuel as [| fuel IH]; intros a b i; [apply never_raises_starve |].
  rewrite tiebreak_loop_step.
  apply never_raises_bind; [apply never_raises_tiebreak_point |].
  intros w. cbv zeta.
  repeat match goal with
  | |- context [if ?c && ?d then _ else _] => destruct (c && d)
  end; first [apply never_raises_ret | apply IH].
Qed.

Lemma never_raises_simulate_tiebreak p1 p2 to_points use_adjustment :
  never_raises (simulate_tiebreak p1 p2 to_points use_adjustment).
Proof.
  apply never_raises_with_fuel. intros fuel. apply never_raises_tiebreak_loop.
Qed.

Lemma never_raises_set_game p1 p2 use_adjustment p1_serves :
  never_raises (set_game p1 p2 use_adjustment p1_serves).
Proof.
  unfold set_game. destruct p1_serves;
    (apply never_raises_bind;
     [apply never_raises_simulate_game | intros g; apply never_raises_ret]).
Qed.

Lemma never_raises_set_loop p1 p2 tiebreak_at final_set_tb use_adjustment
    (fuel : nat) : forall a b server,
  never_raises
    (set_loop fuel p1 p2 tiebreak_at final_set_tb use_adjustment a b server).
Proof.
  induction fuel as [| fuel IH]; intros a b server; [apply never_raises_starve |].
  rewrite set_loop_step.
  apply never_raises_bind; [apply never_raises_set_game |].
  intros w. cbv zeta.
  repeat match goal with
  | |- context [if ?c && ?d then _ else _] => destruct (c && d)
  end; try first [apply never_raises_ret | apply IH].
  destruct (final_set_tb =? "none")%string; [apply IH |].
  apply never_raises_bind; [apply never_raises_simulate_tiebreak |].
  intros tb. apply never_raises_ret.
Qed.

Lemma never_raises_simulate_set p1 p2 first_server tiebreak_at final_set_tb
    use_adjustment :
  never_raises
    (simulate_set p1 p2 first_server tiebreak_at final_set_tb use_adjustment).
Proof.
  apply never_raises_with_fuel. intros fuel. apply never_raises_set_loop.
Qed.

Lemma never_raises_match_loop p1 p2 sets_to_win final_set_tb use_adjustment
    (fuel : nat) : forall a b scores server,
  never_raises
    (match_loop fuel p1 p2 sets_to_win final_set_tb use_adjustment
                a b scores server).
Proof.
  induction fuel as [| fuel IH]; intros a b scores server; cbn [match_loop];
    destruct ((a <? sets_to_win) && (b <? sets_to_win));
    try apply never_raises_ret; [apply never_raises_starve |].
  apply never_raises_bind; [apply never_raises_simulate_set |].
  intros s. apply IH.
Qed.

Lemma never_raises_simulate_match p1 p2 best_of final_set_tb use_adjustment :
  never_raises (simulate_match p1 p2 best_of final_set_tb use_adjustment).
Proof.
  unfold simulate_match.
  apply never_raises_bind; [apply never_raises_random_choice |].
  intros first_server. apply never_raises_bind.
  - apply never_raises_with_fuel. intros fuel. apply never_raises_match_loop.
  - intros [[a b] scores]. apply never_raises_ret.
Qed.

(** C2, as stated, fails: statistics that are invalid in every documented
    way are not rejected.  With a serve-in rate of 0 no draw falls below
    it, so the division by [first_in_pct] is never reached and the point is
    played on the second serve; with a serve-in rate of 1 every draw falls
    below it, so the division by [1 - first_in_pct] is never reached.  Both
    calls return a point. *)
Lemma invalid_statistics_not_rejected :
  invalid_statistics never_in = true
  /\ simulate_point never_in None None (mkSource [0.5; 0.5; 0.5]%float [])
     = Ret (mkPointResult 0 "rally" "second") (mkSource [] [])
  /\ invalid_statistics always_in = true
  /\ simulate_point always_in None None (mkSource [0.5; 0.5; 0.5]%float [])
     = Ret (mkPointResult 1 "rally" "first") (mkSource [] []).
Proof. repeat split; vm_compute; reflexivity. Qed.

(** C2, amended: the simulator validates nothing and reports no error.
    For any statistics whatsoever, as long as the draws lie in [0, 1),
    [simulate_point] behaves as the documented algorithm with plain IEEE
    divisions: it never raises, and it returns a point as soon as three
    draws are available.  Nor does any simulator built on it raise, from
    the game to the match. *)
Theorem simulate_point_never_rejects
    (server : PlayerStats) (returner : option PlayerStats)
    (use_adjustment : option bool) (rs : RandomSource) :
  unit_draws rs ->
  simulate_point server returner use_adjustment rs =
    match documented_point server returner use_adjustment (uniforms rs) with
    | Some (r, rest) => Ret r (mkSource rest (choices rs))
    | None => Starved
    end
  /\ (forall e, simulate_point server returner use_adjustment rs <> Raise e)
  /\ ((3 <= List.length (uniforms rs))%nat ->
      exists r rs', simulate_point server returner use_adjustment rs = Ret r rs')
  /\ (forall opponent to_points first_server tiebreak_at final_set_tb best_of e,
        simulate_game server returner use_adjustment rs <> Raise e
        /\ simulate_tiebreak server opponent to_points use_adjustment rs <> Raise e
        /\ simulate_set server opponent first_server tiebreak_at final_set_tb
             use_adjustment rs <> Raise e
        /\ simulate_match server opponent best_of final_set_tb use_adjustment rs
           <> Raise e).
Proof.
  intros Hdraws.
  pose proof (simulate_point_unit_draws server returner use_adjustment rs Hdraws)
    as E.
  split; [exact E |]. split; [| split].
  - apply never_raises_simulate_point, Hdraws.
  - intros Hlen. rewrite E. unfold documented_point.
    destruct (uniforms rs) as [| u1 [| u2 [| u3 rest]]];
      try (cbn in Hlen; lia).
    destruct (u1 <? first_in_pct server)%float;
      match goal with
      | |- context [(?u <? ?a / ?b)%float] => destruct (u <? a / b)%float
      end; eexists; eexists; reflexivity.
  - intros opponent to_points first_server tiebreak_at final_set_tb best_of e.
    repeat split.
    + apply never_raises_simulate_game, Hdraws.
    + apply never_raises_simulate_tiebreak, Hdraws.
    + apply never_raises_simulate_set, Hdraws.
    + apply never_raises_simulate_match, Hdraws.
Qed.

Lemma simulate_point_never_rejects_witness :
  simulate_point never_in None None (mkSource [0.5; 0.5; 0.5]%float []) =
    match documented_point never_in None None [0.5; 0.5; 0.5]%float with
    | Some (r, rest) => Ret r (mkSource rest [])
    | None => Starved
    end
  /\ (forall e, simulate_point never_in None None
                  (mkSource [0.5; 0.5; 0.5]%float []) <> Raise e)
  /\ ((3 <= 3)%nat ->
      exists r rs', simulate_point never_in None None
                      (mkSource [0.5; 0.5; 0.5]%float []) = Ret r rs')
  /\ (forall opponent to_points first_server tiebreak_at final_set_tb best_of e,
        simulate_game never_in None None
          (mkSource [0.5; 0.5; 0.5]%float []) <> Raise e
        /\ simulate_tiebreak never_in opponent to_points None
             (mkSource [0.5; 0.5; 0.5]%float []) <> Raise e
        /\ simulate_set never_in opponent first_server tiebreak_at final_set_tb
             None (mkSource [0.5; 0.5; 0.5]%float []) <> Raise e
        /\ simulate_match never_in opponent best_of final_set_tb None
             (mkSource [0.5; 0.5; 0.5]%float []) <> Raise e).
Proof.
  apply (simulate_point_never_rejects never_in None None
           (mkSource [0.5; 0.5; 0.5]%float [])).
  repeat constructor.
Defined.

(* ======================================================================= *)
(** ** The loops and their fuel *)
(* ======================================================================= *)

(** Each simulator is its loop run with any fuel above the number of
    uniform draws left: a [Starved] outcome always means that the draws
    ran out, never that the fuel did. *)
Lemma simulate_game_fuel server returner use_adjustment rs (fuel : nat) :
  (List.length (uniforms rs) < fuel)%nat ->
  simulate_game server returner use_adjustment rs
  = game_loop fuel server returner use_adjustment 0 0 rs.
Proof. intros H. apply game_loop_fuel; lia. Qed.

Lemma simulate_tiebreak_fuel p1 p2 to_points use_adjustment rs (fuel : nat) :
  (List.length (uniforms rs) < fuel)%nat ->
  simulate_tiebreak p1 p2 to_points use_adjustment rs
  = tiebreak_loop fuel p1 p2 to_points use_adjustment 0 0 0 rs.
Proof. intros H. apply tiebreak_loop_fuel; lia. Qed.

Lemma simulate_set_fuel p1 p2 first_server tiebreak_at final_set_tb
    use_adjustment rs (fuel : nat) :
  (List.length (uniforms rs) < fuel)%nat ->
  simulate_set p1 p2 first_server tiebreak_at final_set_tb use_adjustment rs
  = set_loop fuel p1 p2 tiebreak_at final_set_tb use_adjustment 0 0 first_server rs.
Proof. intros H. apply set_loop_fuel; lia. Qed.

(** Without a seed the estimate does depend on the state the generator
    is in: the two first servers give the two opposite estimates. *)
Example unseeded_estimates_differ :
  p1_win_prob_of
    (estimate_win_probability sample_seeded player1 player2 1 3 "normal" None None
       (sample_seeded 0)) = Some 1%float
  /\ p1_win_prob_of
       (estimate_win_probability sample_seeded player1 player2 1 3 "normal" None None
          (sample_seeded 1)) = Some 0%float.
Proof. split; vm_compute; reflexivity. Qed.

(* ======================================================================= *)
(** * Further properties of the simulator *)
(* ======================================================================= *)

(** ** The anatomy of a point *)

(** What [simulate_point] can return, and what it consumed to get there. *)
Lemma simulate_point_cases server returner use_adjustment rs p rs' :
  simulate_point server returner use_adjustment rs = Ret p rs' ->
  exists u1 u2 rest,
    uniforms rs = u1 :: u2 :: rest
    /\ choices rs' = choices rs
    /\ ((p = mkPointResult 1 "ace" "first" /\ uniforms rs' = rest
         /\ (u1 <? first_in_pct server)%float = true)
        \/ (p = mkPointResult 0 "double_fault" "second" /\ uniforms rs' = rest
            /\ (u1 <? first_in_pct server)%float = false)
        \/ (exists u3 w,
              rest = u3 :: uniforms rs'
              /\ ((p = mkPointResult (if (u3 <? w)%float then 1 else 0)
                                     "rally" "first"
                   /\ (u1 <? first_in_pct server)%float = true
                   /\ w = documented_win_prob (adjustment_enabled use_adjustment)
                             (first_won_pct server) AVG_RETURN_VS_FIRST
                             (returner_rate returner return_vs_first)
                             0.30%float 0.95%float)
                  \/ (p = mkPointResult (if (u3 <? w)%float then 1 else 0)
                                        "rally" "second"
                      /\ (u1 <? first_in_pct server)%float = false
                      /\ w = documented_win_prob (adjustment_enabled use_adjustment)
                                (second_won_pct server) AVG_RETURN_VS_SECOND
                                (returner_rate returner return_vs_second)
                                0.20%float 0.85%float)))).
Proof.
  rewrite simulate_point_unfold. unfold documented_point.
  destruct (uniforms rs) as [| u1 [| u2 rest]] eqn:Eu; try discriminate.
  - destruct (u1 <? first_in_pct server)%float;
      [ destruct (first_in_pct server =? 0)%float
      | destruct (1 - first_in_pct server =? 0)%float ]; discriminate.
  - intros H. exists u1, u2, rest. split; [reflexivity |].
    destruct (u1 <? first_in_pct server)%float eqn:Hin;
      [ destruct (first_in_pct server =? 0)%float
      | destruct (1 - first_in_pct server =? 0)%float ]; try discriminate;
      match type of H with
      | context [(?u <? ?a / ?b)%float] => destruct (u <? a / b)%float
      end;
      try (injection H as <- <-; cbn [choices uniforms];
           split; [reflexivity |]; auto);
      destruct rest as [| u3 rest']; try discriminate;
      injection H as <- <-; cbn [choices uniforms];
      (split; [reflexivity |]); right; right;
      eexists u3, _; (split; [reflexivity |]); [left | right]; auto.
Qed.

(** X1: whatever the statistics, a returned point is well formed: the
    winner is 0 or 1, an ace is a first serve won by the server, a double
    fault a second serve won by the returner, and everything else a rally
    on the first or the second serve. *)
Theorem simulate_point_well_formed
    (server : PlayerStats) (returner : option PlayerStats)
    (use_adjustment : option bool) (rs : RandomSource)
    (p : PointResult) (rs' : RandomSource) :
  simulate_point server returner use_adjustment rs = Ret p rs' ->
  (point_winner p = 0 \/ point_winner p = 1)
  /\ In (point_type p) ["ace"; "double_fault"; "rally"]%string
  /\ In (serve p) ["first"; "second"]%string
  /\ (point_type p = "ace"%string ->
      serve p = "first"%string /\ point_winner p = 1)
  /\ (point_type p = "double_fault"%string ->
      serve p = "second"%string /\ point_winner p = 0).
Proof.
  intros H. apply simulate_point_cases in H.
  destruct H as (u1 & u2 & rest & _ & _ & [(-> & _) | [(-> & _) | H]]).
  - cbn. repeat split; auto; discriminate.
  - cbn. repeat split; auto; discriminate.
  - destruct H as (u3 & w & _ & [(-> & _) | (-> & _)]); cbn;
      destruct (u3 <? w)%float; repeat split; auto; discriminate.
Qed.

Lemma simulate_point_well_formed_witness :
  (point_winner (mkPointResult 0 "double_fault" "second") = 0
   \/ point_winner (mkPointResult 0 "double_fault" "second") = 1)
  /\ In (point_type (mkPointResult 0 "double_fault" "second"))
        ["ace"; "double_fault"; "rally"]%string
  /\ In (serve (mkPointResult 0 "double_fault" "second"))
        ["first"; "second"]%string
  /\ (point_type (mkPointResult 0 "double_fault" "second") = "ace"%string ->
      serve (mkPointResult 0 "double_fault" "second") = "first"%string
      /\ point_winner (mkPointResult 0 "double_fault" "second") = 1)
  /\ (point_type (mkPointResult 0 "double_fault" "second")
      = "double_fault"%string ->
      serve (mkPointResult 0 "double_fault" "second") = "second"%string
      /\ point_winner (mkPointResult 0 "double_fault" "second") = 0).
Proof.
  apply (simulate_point_well_formed player1 (Some player2) None
           (mkSource server_loses []) (mkPointResult 0 "double_fault" "second")
           (mkSource [] [])).
  vm_compute. reflexivity.
Defined.

(** X2: a point reads the generator strictly in order and never touches
    the choices: an ace or a double fault consumes exactly two uniform
    draws, a rally exactly three, and the serve is the first one iff the
    first draw read is below [first_in_pct]. *)
Theorem simulate_point_draw_count
    (server : PlayerStats) (returner : option PlayerStats)
    (use_adjustment : option bool) (rs : RandomSource)
    (p : PointResult) (rs' : RandomSource) :
  simulate_point server returner use_adjustment rs = Ret p rs' ->
  choices rs' = choices rs
  /\ exists u1 used,
       uniforms rs = (u1 :: used) ++ uniforms rs'
       /\ List.length (u1 :: used)
          = (if (point_type p =? "rally")%string then 3%nat else 2%nat)
       /\ (serve p = "first"%string
           <-> (u1 <? first_in_pct server)%float = true).
Proof.
  intros H. apply simulate_point_cases in H.
  destruct H as (u1 & u2 & rest & Eu & Ec & H). split; [exact Ec |].
  exists u1. rewrite Eu.
  destruct H as [(-> & <- & Hin) | [(-> & <- & Hin) | H]].
  - exists [u2]. cbn. repeat split; auto.
  - exists [u2]. cbn. repeat split; try reflexivity; [discriminate | congruence].
  - destruct H as (u3 & w & -> & [(-> & Hin & _) | (-> & Hin & _)]);
      exists [u2; u3]; cbn; repeat split; auto; try discriminate; congruence.
Qed.

Lemma simulate_point_draw_count_witness :
  choices (mkSource [0.25%float] [true]) = choices
    (mkSource [0.5; 0.5; 0.5; 0.25]%float [true])
  /\ exists u1 used,
       uniforms (mkSource [0.5; 0.5; 0.5; 0.25]%float [true])
       = (u1 :: used) ++ uniforms (mkSource [0.25%float] [true])
       /\ List.length (u1 :: used)
          = (if (point_type (mkPointResult 1 "rally" "first") =? "rally")%string
             then 3%nat else 2%nat)
       /\ (serve (mkPointResult 1 "rally" "first") = "first"%string
           <-> (u1 <? first_in_pct player1)%float = true).
Proof.
  apply (simulate_point_draw_count player1 (Some player2) None
           (mkSource [0.5; 0.5; 0.5; 0.25]%float [true])
           (mkPointResult 1 "rally" "first") (mkSource [0.25%float] [true])).
  vm_compute. reflexivity.
Defined.

(** ** The opponent adjustment *)

Lemma ltb_leb_trans (x y z : float) :
  (x <? y)%float = true -> (y <=? z)%float = true -> (x <? z)%float = true.
Proof.
  rewrite !ltb_spec, leb_spec.
  generalize (Prim2SF x) (Prim2SF y) (Prim2SF z). intros a b c H1 H2.
  sf_order.
Qed.

Lemma leb_leb_not_ltb (x y z : float) :
  (x <=? y)%float = true -> (y <=? z)%float = true -> (z <? x)%float = false.
Proof.
  rewrite ltb_spec, !leb_spec.
  generalize (Prim2SF x) (Prim2SF y) (Prim2SF z). intros a b c H1 H2.
  sf_order.
Qed.

(** X3: with the adjustment enabled and the returner's two return rates
    on record, the win probability of a rally is confined to [0.3, 0.95]
    on the first serve and to [0.2, 0.85] on the second, whatever the
    statistics are (out of range, infinite or NaN): the server wins
    every rally decided by a draw below the lower bound and loses every
    rally decided by a draw at or above the upper one. *)
Theorem adjusted_rally_bounds
    (server r : PlayerStats) (use_adjustment : option bool) (rvf rvs : float)
    (rs : RandomSource) (p : PointResult) (rs' : RandomSource) :
  adjustment_enabled use_adjustment = true ->
  return_vs_first r = Some rvf ->
  return_vs_second r = Some rvs ->
  simulate_point server (Some r) use_adjustment rs = Ret p rs' ->
  point_type p = "rally"%string ->
  exists u1 u2 u3,
    uniforms rs = u1 :: u2 :: u3 :: uniforms rs'
    /\ (serve p = "first"%string ->
        ((u3 <? 0.3)%float = true -> point_winner p = 1)
        /\ ((0.95 <=? u3)%float = true -> point_winner p = 0))
    /\ (serve p = "second"%string ->
        ((u3 <? 0.2)%float = true -> point_winner p = 1)
        /\ ((0.85 <=? u3)%float = true -> point_winner p = 0)).
Proof.
  intros Hon Hf Hs H Hrally. apply simulate_point_cases in H.
  destruct H as (u1 & u2 & rest & Eu & _ & [(-> & _) | [(-> & _) | H]]);
    try discriminate Hrally.
  destruct H as (u3 & w & -> & H). exists u1, u2, u3. split; [exact Eu |].
  unfold documented_win_prob, returner_rate in H. rewrite Hon, Hf, Hs in H.
  destruct H as [(-> & _ & ->) | (-> & _ & ->)]; cbn [serve point_winner];
    split; intros Hserve; try discriminate Hserve.
  - destruct (clamp_bounds 0.3 0.95
                (first_won_pct server + (AVG_RETURN_VS_FIRST - rvf))%float
                eq_refl) as [Hlo Hhi].
    split; intros Hu.
    + now rewrite (ltb_leb_trans _ _ _ Hu Hlo).
    + now rewrite (leb_leb_not_ltb _ _ _ Hhi Hu).
  - destruct (clamp_bounds 0.2 0.85
                (second_won_pct server + (AVG_RETURN_VS_SECOND - rvs))%float
                eq_refl) as [Hlo Hhi].
    split; intros Hu.
    + now rewrite (ltb_leb_trans _ _ _ Hu Hlo).
    + now rewrite (leb_leb_not_ltb _ _ _ Hhi Hu).
Qed.

Lemma adjusted_rally_bounds_witness :
  exists u1 u2 u3,
    uniforms (mkSource [0.5; 0.5; 0.1]%float []) = u1 :: u2 :: u3 :: uniforms (mkSource [] [])
    /\ (serve (mkPointResult 1 "rally" "first") = "first"%string ->
        ((u3 <? 0.3)%float = true
         -> point_winner (mkPointResult 1 "rally" "first") = 1)
        /\ ((0.95 <=? u3)%float = true
            -> point_winner (mkPointResult 1 "rally" "first") = 0))
    /\ (serve (mkPointResult 1 "rally" "first") = "second"%string ->
        ((u3 <? 0.2)%float = true
         -> point_winner (mkPointResult 1 "rally" "first") = 1)
        /\ ((0.85 <=? u3)%float = true
            -> point_winner (mkPointResult 1 "rally" "first") = 0)).
Proof.
  apply (adjusted_rally_bounds player1 player2 None 0.32%float 0.52%float
           (mkSource [0.5; 0.5; 0.1]%float [])
           (mkPointResult 1 "rally" "first") (mkSource [] []));
    reflexivity.
Defined.

(* ======================================================================= *)
(** ** What a run does to the generator *)
(* ======================================================================= *)

Section Respects.

Variable R : RandomSource -> RandomSource -> Prop.
Hypothesis R_refl : forall rs, R rs rs.
Hypothesis R_trans : forall rs1 rs2 rs3, R rs1 rs2 -> R rs2 rs3 -> R rs1 rs3.
Hypothesis R_uniform : respects R random_random.

Lemma respects_ret {A} (a : A) : respects R (ret a).
Proof. intros rs b rs' E. apply ret_Ret in E. destruct E as [_ <-]. apply R_refl. Qed.

Lemma respects_bind {A B} (m : M A) (k : A -> M B) :
  respects R m -> (forall a, respects R (k a)) -> respects R (bind m k).
Proof.
  intros Hm Hk rs b rs' E. apply bind_Ret in E.
  destruct E as (a & rs1 & E1 & E2).
  apply R_trans with rs1; [now apply (Hm rs a) | now apply (Hk a rs1 b)].
Qed.

Lemma respects_starve {A} : respects R (@starve A).
Proof. intros rs a rs' E. discriminate. Qed.

Lemma respects_with_fuel {A} (loop : nat -> M A) :
  (forall fuel, respects R (loop fuel)) -> respects R (with_fuel loop).
Proof. intros H rs. apply H. Qed.

Lemma respects_float_truediv a b : respects R (float_truediv a b).
Proof.
  unfold float_truediv. destruct (b =? 0)%float; [| apply respects_ret].
  intros rs x rs' E. discriminate.
Qed.

Lemma respects_simulate_point server returner use_adjustment :
  respects R (simulate_point server returner use_adjustment).
Proof.
  unfold simulate_point.
  apply respects_bind; [exact R_uniform |]. intros u1.
  destruct (u1 <? first_in_pct server)%float;
    (apply respects_bind; [apply respects_float_truediv |]); intros rate;
    (apply respects_bind; [exact R_uniform |]); intros u2;
    destruct (u2 <? rate)%float; try apply respects_ret;
    (apply respects_bind; [exact R_uniform |]); intros u3; apply respects_ret.
Qed.

Lemma respects_game_loop server returner use_adjustment (fuel : nat) :
  forall a b, respects R (game_loop fuel server returner use_adjustment a b).
Proof.
  induction fuel as [| fuel IH]; intros a b; [apply respects_starve |].
  cbn [game_loop]. apply respects_bind; [apply respects_simulate_point |].
  intros p.
  repeat match goal with
  | |- context [if ?c && ?d then _ else _] => destruct (c && d)
  end; first [apply respects_ret | apply IH].
Qed.

Lemma respects_simulate_game server returner use_adjustment :
  respects R (simulate_game server returner use_adjustment).
Proof. apply respects_with_fuel. intros fuel. apply respects_game_loop. Qed.

Lemma respects_tiebreak_point p1 p2 use_adjustment i :
  respects R (tiebreak_point p1 p2 use_adjustment i).
Proof.
  unfold tiebreak_point. destruct (tiebreak_server_is_p1 i);
    (apply respects_bind;
     [apply respects_simulate_point | intros r; apply respects_ret]).
Qed.

Lemma respects_tiebreak_loop p1 p2 to_points use_adjustment (fuel : nat) :
  forall a b i,
  respects R (tiebreak_loop fuel p1 p2 to_points use_adjustment a b i).
Proof.
  induction fuel as [| fuel IH]; intros a b i; [apply respects_starve |].
  rewrite tiebreak_loop_step.
  apply respects_bind; [apply respects_tiebreak_point |].
  intros w. cbv zeta.
  repeat match goal with
  | |- context [if ?c && ?d then _ else _] => destruct (c && d)
  end; first [apply respects_ret | apply IH].
Qed.

Lemma respects_simulate_tiebreak p1 p2 to_points use_adjustment :
  respects R (simulate_tiebreak p1 p2 to_points use_adjustment).
Proof. apply respects_with_fuel. intros fuel. apply respects_tiebreak_loop. Qed.

Lemma respects_set_game p1 p2 use_adjustment p1_serves :
  respects R (set_game p1 p2 use_adjustment p1_serves).
Proof.
  unfold set_game. destruct p1_serves;
    (apply respects_bind;
     [apply respects_simulate_game | intros g; apply respects_ret]).
Qed.

Lemma respects_set_loop p1 p2 tiebreak_at final_set_tb use_adjustment
    (fuel : nat) : forall a b server,
  respects R
    (set_loop fuel p1 p2 tiebreak_at final_set_tb use_adjustment a b server).
Proof.
  induction fuel as [| fuel IH]; intros a b server; [apply respects_starve |].
  rewrite set_loop_step.
  apply respects_bind; [apply respects_set_game |].
  intros w. cbv zeta.
  repeat match goal with
  | |- context [if ?c && ?d then _ else _] => destruct (c && d)
  end; try first [apply respects_ret | apply IH].
  destruct (final_set_tb =? "none")%string; [apply IH |].
  apply respects_bind; [apply respects_simulate_tiebreak |].
  intros tb. apply respects_ret.
Qed.

Lemma respects_simulate_set p1 p2 first_server tiebreak_at final_set_tb
    use_adjustment :
  respects R
    (simulate_set p1 p2 first_server tiebreak_at final_set_tb use_adjustment).
Proof. apply respects_with_fuel. intros fuel. apply respects_set_loop. Qed.

Lemma respects_match_loop p1 p2 sets_to_win final_set_tb use_adjustment
    (fuel : nat) : forall a b scores server,
  respects R
    (match_loop fuel p1 p2 sets_to_win final_set_tb use_adjustment
                a b scores server).
Proof.
  induction fuel as [| fuel IH]; intros a b scores server; cbn [match_loop];
    destruct ((a <? sets_to_win) && (b <? sets_to_win));
    try apply respects_ret; [apply respects_starve |].
  apply respects_bind; [apply respects_simulate_set |].
  intros s. apply IH.
Qed.

End Respects.

Lemma same_choices_refl rs : same_choices rs rs.
Proof. reflexivity. Qed.

Lemma same_choices_trans rs1 rs2 rs3 :
  same_choices rs1 rs2 -> same_choices rs2 rs3 -> same_choices rs1 rs3.
Proof. unfold same_choices. congruence. Qed.

Lemma same_choices_random_random : respects same_choices random_random.
Proof.
  intros rs u rs'. unfold random_random.
  destruct (uniforms rs) as [| u0 us]; [discriminate |].
  intros E. injection E as _ <-. reflexivity.
Qed.

(** A match asks for one choice, the first server, and for no other. *)
Lemma simulate_match_one_choice p1 p2 best_of final_set_tb use_adjustment
    rs m rs' :
  simulate_match p1 p2 best_of final_set_tb use_adjustment rs = Ret m rs' ->
  exists c, choices rs = c :: choices rs'.
Proof.
  intros H. unfold simulate_match in H. apply bind_Ret in H.
  destruct H as (first_server & rs0 & Hc & H).
  unfold random_choice_1_2 in Hc.
  destruct (choices rs) as [| c cs] eqn:Ec; [discriminate |].
  injection Hc as _ <-. exists c. f_equal.
  apply bind_Ret in H. destruct H as (final & rs1 & Hloop & H).
  destruct final as [[a b] scores]. apply ret_Ret in H. destruct H as [_ <-].
  unfold with_fuel in Hloop.
  apply (respects_match_loop same_choices same_choices_refl same_choices_trans
           same_choices_random_random) in Hloop.
  symmetry. exact Hloop.
Qed.

Lemma trials_count (n : nat) : forall p1 p2 best_of final_set_tb use_adjustment
    w0 rs w rs',
  trials n p1 p2 best_of final_set_tb use_adjustment w0 rs = Ret w rs' ->
  w0 <= w <= w0 + Z.of_nat n
  /\ exists used, choices rs = used ++ choices rs' /\ List.length used = n.
Proof.
  induction n as [| n IH]; intros p1 p2 best_of final_set_tb use_adjustment
                                  w0 rs w rs' H.
  - apply ret_Ret in H. destruct H as [<- <-]. split; [lia |]. now exists [].
  - cbn [trials] in H. apply bind_Ret in H. destruct H as (m & rs1 & Hm & H).
    apply simulate_match_one_choice in Hm. destruct Hm as (c & Hc).
    apply IH in H. destruct H as (Hw & used & Hused & Hlen).
    split; [destruct (match_winner m =? 1); lia |].
    exists (c :: used). rewrite Hc, Hused. split; [reflexivity |].
    cbn [List.length]. now rewrite Hlen.
Qed.

(** X4: an estimate that is returned is the ratio of a count of wins,
    between 0 and the number of trials run, to [n_sims]; its complement
    is [1 - p]; and the run asked the generator for exactly one first
    server per trial, counted from the seeded state when a seed is
    given. *)
Theorem estimate_counts
    (seeded : Z -> RandomSource) (p1 p2 : PlayerStats) (n best_of : Z)
    (final_set_tb : string) (use_adjustment : option bool) (seed : option Z)
    (rs : RandomSource) (res : EstimationResult) (rs' : RandomSource) :
  estimate_win_probability seeded p1 p2 n best_of final_set_tb use_adjustment
    seed rs = Ret res rs' ->
  n <> 0
  /\ n_sims res = n
  /\ (exists wins,
        0 <= wins <= Z.max 0 n
        /\ p1_win_prob res = (float_of_Z wins / float_of_Z n)%float
        /\ p2_win_prob res = (1 - p1_win_prob res)%float)
  /\ exists used,
       choices (match seed with Some s => seeded s | None => rs end)
       = used ++ choices rs'
       /\ List.length used = Z.to_nat n.
Proof.
  unfold estimate_win_probability. intros H.
  apply bind_Ret in H. destruct H as ([] & rs0 & Hseed & H).
  apply bind_Ret in H. destruct H as (wins & rs1 & Htrials & H).
  apply bind_Ret in H. destruct H as (p & rs2 & Hdiv & H).
  apply ret_Ret in H. destruct H as [<- <-].
  unfold int_truediv in Hdiv. destruct (n =? 0) eqn:En; [discriminate |].
  apply ret_Ret in Hdiv. destruct Hdiv as [<- <-].
  apply Z.eqb_neq in En. apply trials_count in Htrials.
  destruct Htrials as (Hw & used & Hused & Hlen).
  assert (Hrs0 : rs0 = match seed with Some s => seeded s | None => rs end).
  { unfold reseed in Hseed. destruct seed as [s |].
    - destruct ((0 <=? s) && (s <=? 4294967295)); [| discriminate].
      now injection Hseed as <-.
    - apply ret_Ret in Hseed. now destruct Hseed as [_ <-]. }
  cbn [n_sims p1_win_prob p2_win_prob].
  split; [exact En |]. split; [reflexivity |]. split.
  - exists wins. split; [lia |]. split; reflexivity.
  - exists used. rewrite <- Hrs0. split; assumption.
Qed.

Lemma estimate_counts_witness :
  1 <> 0
  /\ n_sims (mkEstimationResult 1 0 0.20654931437723742 1 1) = 1
  /\ (exists wins,
        0 <= wins <= Z.max 0 1
        /\ p1_win_prob (mkEstimationResult 1 0 0.20654931437723742 1 1)
           = (float_of_Z wins / float_of_Z 1)%float
        /\ p2_win_prob (mkEstimationResult 1 0 0.20654931437723742 1 1)
           = (1 - p1_win_prob
                    (mkEstimationResult 1 0 0.20654931437723742 1 1))%float)
  /\ exists used,
       choices (sample_seeded 42) = used ++ choices (mkSource [] [])
       /\ List.length used = Z.to_nat 1.
Proof.
  apply (estimate_counts sample_seeded player1 player2 1 3 "normal" None
           (Some 42) (mkSource [] [])
           (mkEstimationResult 1 0 0.20654931437723742 1 1) (mkSource [] [])).
  vm_compute. reflexivity.
Defined.



(* ======================================================================= *)
(** ** No look-ahead *)
(* ======================================================================= *)

Lemma no_look_ahead_ret {A} (a : A) : no_look_ahead (ret a).
Proof.
  intros rs b rs' mu mc E. apply ret_Ret in E. destruct E as [<- <-]. reflexivity.
Qed.

Lemma no_look_ahead_starve {A} : no_look_ahead (@starve A).
Proof. intros rs a rs' mu mc E. discriminate. Qed.

Lemma no_look_ahead_bind {A B} (m : M A) (k : A -> M B) :
  no_look_ahead m -> (forall a, no_look_ahead (k a)) -> no_look_ahead (bind m k).
Proof.
  intros Hm Hk rs b rs' mu mc E. apply bind_Ret in E.
  destruct E as (a & rs1 & E1 & E2).
  unfold bind. rewrite (Hm _ _ _ mu mc E1). now apply Hk.
Qed.

Lemma no_look_ahead_random_random : no_look_ahead random_random.
Proof.
  intros rs u rs' mu mc. unfold random_random, extend_source.
  destruct (uniforms rs) as [| u0 us]; [discriminate |].
  intros E. injection E as <- <-. reflexivity.
Qed.

Lemma no_look_ahead_random_choice : no_look_ahead random_choice_1_2.
Proof.
  intros rs c rs' mu mc. unfold random_choice_1_2, extend_source.
  destruct (choices rs) as [| c0 cs]; [discriminate |].
  intros E. injection E as <- <-. reflexivity.
Qed.

Lemma no_look_ahead_float_truediv a b : no_look_ahead (float_truediv a b).
Proof.
  unfold float_truediv. destruct (b =? 0)%float; [| apply no_look_ahead_ret].
  intros rs x rs' mu mc E. discriminate.
Qed.

Lemma no_look_ahead_with_fuel {A} (loop : nat -> M A) :
  (forall fuel, no_look_ahead (loop fuel)) -> fuel_monotone loop ->
  no_look_ahead (with_fuel loop).
Proof.
  intros Hloop Hmono rs a rs' mu mc E. unfold with_fuel in *.
  apply (Hloop _ _ _ _ mu mc) in E.
  apply Hmono with (f := S (List.length (uniforms rs))); [exact E |].
  cbn [extend_source uniforms]. rewrite length_app. lia.
Qed.

Lemma no_look_ahead_simulate_point server returner use_adjustment :
  no_look_ahead (simulate_point server returner use_adjustment).
Proof.
  unfold simulate_point.
  apply no_look_ahead_bind; [exact no_look_ahead_random_random |]. intros u1.
  destruct (u1 <? first_in_pct server)%float;
    (apply no_look_ahead_bind; [apply no_look_ahead_float_truediv |]);
    intros rate;
    (apply no_look_ahead_bind; [exact no_look_ahead_random_random |]);
    intros u2;
    destruct (u2 <? rate)%float; try apply no_look_ahead_ret;
    (apply no_look_ahead_bind; [exact no_look_ahead_random_random |]);
    intros u3; apply no_look_ahead_ret.
Qed.

(** *** Game *)

Lemma game_loop_monotone server returner use_adjustment a b :
  fuel_monotone (fun fuel => game_loop fuel server returner use_adjustment a b).
Proof.
  intros f. revert a b.
  induction f as [| f IH]; intros a b f' rs g rs' H Hle; [discriminate |].
  destruct f' as [| f']; [lia |].
  cbn [game_loop] in *. unfold bind in *.
  destruct (simulate_point server returner use_adjustment rs) as [p rs1 | e |];
    try discriminate.
  repeat match goal with
  | |- context [if ?c && ?d then _ else _] => destruct (c && d)
  end; try exact H.
  apply IH; [exact H | lia].
Qed.

Lemma no_look_ahead_game_loop server returner use_adjustment (fuel : nat) :
  forall a b, no_look_ahead (game_loop fuel server returner use_adjustment a b).
Proof.
  induction fuel as [| fuel IH]; intros a b; [apply no_look_ahead_starve |].
  cbn [game_loop].
  apply no_look_ahead_bind; [apply no_look_ahead_simulate_point |].
  intros p.
  repeat match goal with
  | |- context [if ?c && ?d then _ else _] => destruct (c && d)
  end; first [apply no_look_ahead_ret | apply IH].
Qed.

Lemma no_look_ahead_simulate_game server returner use_adjustment :
  no_look_ahead (simulate_game server returner use_adjustment).
Proof.
  apply no_look_ahead_with_fuel.
  - intros fuel. apply no_look_ahead_game_loop.
  - apply game_loop_monotone.
Qed.

(** *** Tiebreak *)

Lemma tiebreak_loop_monotone p1 p2 to_points use_adjustment a b i :
  fuel_monotone
    (fun fuel => tiebreak_loop fuel p1 p2 to_points use_adjustment a b i).
Proof.
  intros f. revert a b i.
  induction f as [| f IH]; intros a b i f' rs tb rs' H Hle; [discriminate |].
  destruct f' as [| f']; [lia |].
  rewrite tiebreak_loop_step in *. unfold bind in *.
  destruct (tiebreak_point p1 p2 use_adjustment i rs) as [w rs1 | e |];
    try discriminate.
  cbv zeta in *.
  repeat match goal with
  | |- context [if ?c && ?d then _ else _] => destruct (c && d)
  end; try exact H.
  apply IH; [exact H | lia].
Qed.

Lemma no_look_ahead_tiebreak_point p1 p2 use_adjustment i :
  no_look_ahead (tiebreak_point p1 p2 use_adjustment i).
Proof.
  unfold tiebreak_point. destruct (tiebreak_server_is_p1 i);
    (apply no_look_ahead_bind;
     [apply no_look_ahead_simulate_point | intros r; apply no_look_ahead_ret]).
Qed.

Lemma no_look_ahead_tiebreak_loop p1 p2 to_points use_adjustment (fuel : nat) :
  forall a b i,
  no_look_ahead (tiebreak_loop fuel p1 p2 to_points use_adjustment a b i).
Proof.
  induction fuel as [| fuel IH]; intros a b i; [apply no_look_ahead_starve |].
  rewrite tiebreak_loop_step.
  apply no_look_ahead_bind; [apply no_look_ahead_tiebreak_point |].
  intros w. cbv zeta.
  repeat match goal with
  | |- context [if ?c && ?d then _ else _] => destruct (c && d)
  end; first [apply no_look_ahead_ret | apply IH].
Qed.

Lemma no_look_ahead_simulate_tiebreak p1 p2 to_points use_adjustment :
  no_look_ahead (simulate_tiebreak p1 p2 to_points use_adjustment).
Proof.
  apply no_look_ahead_with_fuel.
  - intros fuel. apply no_look_ahead_tiebreak_loop.
  - apply tiebreak_loop_monotone.
Qed.

(** *** Set *)

Lemma set_loop_monotone p1 p2 tiebreak_at final_set_tb use_adjustment a b server :
  fuel_monotone
    (fun fuel => set_loop fuel p1 p2 tiebreak_at final_set_tb use_adjustment
                          a b server).
Proof.
  intros f. revert a b server.
  induction f as [| f IH]; intros a b server f' rs s rs' H Hle; [discriminate |].
  destruct f' as [| f']; [lia |].
  rewrite set_loop_step in *. unfold bind in *.
  destruct (set_game p1 p2 use_adjustment (server =? 1) rs) as [w rs1 | e |];
    try discriminate.
  cbv zeta in *.
  repeat match goal with
  | |- context [if ?c && ?d then _ else _] => destruct (c && d)
  end; try exact H; try (apply IH; [exact H | lia]).
  destruct (final_set_tb =? "none")%string; [apply IH; [exact H | lia] | exact H].
Qed.

Lemma no_look_ahead_set_game p1 p2 use_adjustment p1_serves :
  no_look_ahead (set_game p1 p2 use_adjustment p1_serves).
Proof.
  unfold set_game. destruct p1_serves;
    (apply no_look_ahead_bind;
     [apply no_look_ahead_simulate_game | intros g; apply no_look_ahead_ret]).
Qed.

Lemma no_look_ahead_set_loop p1 p2 tiebreak_at final_set_tb use_adjustment
    (fuel : nat) : forall a b server,
  no_look_ahead
    (set_loop fuel p1 p2 tiebreak_at final_set_tb use_adjustment a b server).
Proof.
  induction fuel as [| fuel IH]; intros a b server; [apply no_look_ahead_starve |].
  rewrite set_loop_step.
  apply no_look_ahead_bind; [apply no_look_ahead_set_game |].
  intros w. cbv zeta.
  repeat match goal with
  | |- context [if ?c && ?d then _ else _] => destruct (c && d)
  end; try first [apply no_look_ahead_ret | apply IH].
  destruct (final_set_tb =? "none")%string; [apply IH |].
  apply no_look_ahead_bind; [apply no_look_ahead_simulate_tiebreak |].
  intros tb. apply no_look_ahead_ret.
Qed.

Lemma no_look_ahead_simulate_set p1 p2 first_server tiebreak_at final_set_tb
    use_adjustment :
  no_look_ahead
    (simulate_set p1 p2 first_server tiebreak_at final_set_tb use_adjustment).
Proof.
  apply no_look_ahead_with_fuel.
  - intros fuel. apply no_look_ahead_set_loop.
  - apply set_loop_monotone.
Qed.

(** *** Match and trials *)

Lemma match_loop_monotone p1 p2 sets_to_win final_set_tb use_adjustment
    a b scores server :
  fuel_monotone
    (fun fuel => match_loop fuel p1 p2 sets_to_win final_set_tb use_adjustment
                            a b scores server).
Proof.
  intros f. revert a b scores server.
  induction f as [| f IH]; intros a b scores server f' rs r rs' H Hle;
    destruct f' as [| f']; cbn [match_loop] in *;
    destruct ((a <? sets_to_win) && (b <? sets_to_win));
    try exact H; try discriminate; try lia.
  unfold bind in *.
  match goal with
  | |- context [simulate_set ?x1 ?x2 ?x3 ?x4 ?x5 ?x6 rs] =>
      destruct (simulate_set x1 x2 x3 x4 x5 x6 rs) as [s rs1 | e |]
  end; try discriminate.
  apply IH; [exact H | lia].
Qed.

Lemma no_look_ahead_match_loop p1 p2 sets_to_win final_set_tb use_adjustment
    (fuel : nat) : forall a b scores server,
  no_look_ahead
    (match_loop fuel p1 p2 sets_to_win final_set_tb use_adjustment
                a b scores server).
Proof.
  induction fuel as [| fuel IH]; intros a b scores server; cbn [match_loop];
    destruct ((a <? sets_to_win) && (b <? sets_to_win));
    try apply no_look_ahead_ret; [apply no_look_ahead_starve |].
  apply no_look_ahead_bind; [apply no_look_ahead_simulate_set |].
  intros s. apply IH.
Qed.

Lemma no_look_ahead_simulate_match p1 p2 best_of final_set_tb use_adjustment :
  no_look_ahead (simulate_match p1 p2 best_of final_set_tb use_adjustment).
Proof.
  unfold simulate_match.
  apply no_look_ahead_bind; [apply no_look_ahead_random_choice |].
  intros first_server. apply no_look_ahead_bind.
  - apply no_look_ahead_with_fuel.
    + intros fuel. apply no_look_ahead_match_loop.
    + apply match_loop_monotone.
  - intros [[a b] scores]. apply no_look_ahead_ret.
Qed.

Lemma no_look_ahead_trials (n : nat) : forall p1 p2 best_of final_set_tb
    use_adjustment w,
  no_look_ahead (trials n p1 p2 best_of final_set_tb use_adjustment w).
Proof.
  induction n as [| n IH]; intros p1 p2 best_of final_set_tb use_adjustment w;
    [apply no_look_ahead_ret |].
  cbn [trials]. apply no_look_ahead_bind; [apply no_look_ahead_simulate_match |].
  intros m. apply IH.
Qed.

(** X6: no simulator looks ahead.  When a point, game, tiebreak, set,
    match or run of trials returns, it returns the same result, and
    leaves the rest unread, on any generator that holds further values
    behind those it consumed: a result depends on the consumed draws
    only, so consecutive calls split one stream between them. *)
Theorem simulators_do_not_look_ahead
    (p1 p2 : PlayerStats) (returner : option PlayerStats)
    (use_adjustment : option bool) (to_points first_server tiebreak_at best_of : Z)
    (final_set_tb : string) (n : nat) (w : Z)
    (more_uniforms : list float) (more_choices : list bool)
    (rs rs' : RandomSource) :
  (forall p,
     simulate_point p1 returner use_adjustment rs = Ret p rs' ->
     simulate_point p1 returner use_adjustment
       (extend_source more_uniforms more_choices rs)
     = Ret p (extend_source more_uniforms more_choices rs'))
  /\ (forall g,
        simulate_game p1 returner use_adjustment rs = Ret g rs' ->
        simulate_game p1 returner use_adjustment
          (extend_source more_uniforms more_choices rs)
        = Ret g (extend_source more_uniforms more_choices rs'))
  /\ (forall tb,
        simulate_tiebreak p1 p2 to_points use_adjustment rs = Ret tb rs' ->
        simulate_tiebreak p1 p2 to_points use_adjustment
          (extend_source more_uniforms more_choices rs)
        = Ret tb (extend_source more_uniforms more_choices rs'))
  /\ (forall s,
        simulate_set p1 p2 first_server tiebreak_at final_set_tb use_adjustment rs
          = Ret s rs' ->
        simulate_set p1 p2 first_server tiebreak_at final_set_tb use_adjustment
          (extend_source more_uniforms more_choices rs)
        = Ret s (extend_source more_uniforms more_choices rs'))
  /\ (forall m,
        simulate_match p1 p2 best_of final_set_tb use_adjustment rs = Ret m rs' ->
        simulate_match p1 p2 best_of final_set_tb use_adjustment
          (extend_source more_uniforms more_choices rs)
        = Ret m (extend_source more_uniforms more_choices rs'))
  /\ (forall wins,
        trials n p1 p2 best_of final_set_tb use_adjustment w rs = Ret wins rs' ->
        trials n p1 p2 best_of final_set_tb use_adjustment w
          (extend_source more_uniforms more_choices rs)
        = Ret wins (extend_source more_uniforms more_choices rs')).
Proof.
  repeat split; intros x H.
  - now apply no_look_ahead_simulate_point.
  - now apply no_look_ahead_simulate_game.
  - now apply no_look_ahead_simulate_tiebreak.
  - now apply no_look_ahead_simulate_set.
  - now apply no_look_ahead_simulate_match.
  - now apply no_look_ahead_trials.
Qed.

Lemma simulators_do_not_look_ahead_witness :
  simulate_match player1 player2 3 "normal" None
    (extend_source [0.5; 0.25]%float [false]
       (mkSource (set_6_0 ++ set_6_0) [true]))
  = Ret (mkMatchResult 1 (2, 0) [(6, 0); (6, 0)] "6-0 6-0")
        (extend_source [0.5; 0.25]%float [false] (mkSource [] [])).
Proof.
  apply (simulators_do_not_look_ahead player1 player2 None None 7 1 6 3
           "normal" 0 0 [0.5; 0.25]%float [false]
           (mkSource (set_6_0 ++ set_6_0) [true]) (mkSource [] [])).
  vm_compute. reflexivity.
Defined.

(* ======================================================================= *)
(** ** The shape of a score *)
(* ======================================================================= *)

Lemma ge2_true (x t y : Z) :
  (x >=? t) && (x - y >=? 2) = true <-> x >= t /\ x - y >= 2.
Proof. rewrite andb_true_iff, !Z.geb_leb, !Z.leb_le. lia. Qed.

Lemma ge2_false (x t y : Z) :
  (x >=? t) && (x - y >=? 2) = false <-> x < t \/ x - y < 2.
Proof. rewrite andb_false_iff, !Z.geb_leb, !Z.leb_gt. lia. Qed.

Lemma won_by_two_false_iff (target a b : Z) :
  won_by_two target (a, b) = false
  <-> (a < target \/ a - b < 2) /\ (b < target \/ b - a < 2).
Proof.
  unfold won_by_two. cbn [fst snd].
  rewrite orb_false_iff, !ge2_false. reflexivity.
Qed.

Lemma tally_from_app score ws w :
  tally_from score (ws ++ [w]) = add_point (tally_from score ws) w.
Proof. unfold tally_from. now rewrite fold_left_app. Qed.

Lemma tally_from_count (ws : list Z) : forall score,
  fst score <= fst (tally_from score ws)
  /\ snd score <= snd (tally_from score ws)
  /\ fst (tally_from score ws) + snd (tally_from score ws)
     = fst score + snd score + Z.of_nat (List.length ws).
Proof.
  induction ws as [| w ws IH]; intros score; [cbn; lia |].
  rewrite tally_from_cons. specialize (IH (add_point score w)).
  destruct score as [a b]. rewrite add_point_eq in *.
  cbn [List.length fst snd] in *. destruct (w =? 1); lia.
Qed.

(** A contest stopped at the first score won by two from [target] on has
    a score of the shape [first_to]. *)
Lemma first_win_shape (target : Z) (ws : list Z) :
  ws <> [] ->
  (forall k, (0 < k < List.length ws)%nat ->
     won_by_two target (tally_from (0, 0) (firstn k ws)) = false) ->
  fst (tally_from (0, 0) ws) + snd (tally_from (0, 0) ws)
  = Z.of_nat (List.length ws)
  /\ (fst (tally_from (0, 0) ws) >= target
      /\ fst (tally_from (0, 0) ws) - snd (tally_from (0, 0) ws) >= 2 ->
      first_to target (fst (tally_from (0, 0) ws)) (snd (tally_from (0, 0) ws)))
  /\ (snd (tally_from (0, 0) ws) >= target
      /\ snd (tally_from (0, 0) ws) - fst (tally_from (0, 0) ws) >= 2 ->
      first_to target (snd (tally_from (0, 0) ws)) (fst (tally_from (0, 0) ws))).
Proof.
  intros Hne Hfirst.
  destruct (exists_last Hne) as (init & w & ->).
  assert (Hprev : won_by_two target (tally_from (0, 0) init) = false).
  { destruct init as [| w0 init].
    - apply won_by_two_false_iff. lia.
    - specialize (Hfirst (List.length (w0 :: init))).
      rewrite firstn_app, firstn_all, Nat.sub_diag, app_nil_r in Hfirst.
      apply Hfirst. rewrite length_app. cbn [List.length]. lia. }
  pose proof (tally_from_count init (0, 0)) as Hc.
  rewrite tally_from_app, length_app. cbn [List.length fst snd] in *.
  destruct (tally_from (0, 0) init) as [a b]. cbn [fst snd] in *.
  apply won_by_two_false_iff in Hprev.
  rewrite add_point_eq. cbn [fst snd]. unfold first_to.
  destruct (w =? 1); lia.
Qed.

(** X7: the score of a returned game is a legal game score.  The
    winner has four points with the loser on two or fewer (4-0, 4-1,
    4-2), or more than four with a lead of exactly two; the loser's count
    is never negative. *)
Theorem simulate_game_score_shape
    (server : PlayerStats) (returner : option PlayerStats)
    (use_adjustment : option bool) (rs : RandomSource)
    (g : GameResult) (rs' : RandomSource) :
  simulate_game server returner use_adjustment rs = Ret g rs' ->
  (game_winner g = 1
   /\ first_to 4 (fst (game_score g)) (snd (game_score g)))
  \/ (game_winner g = 0
      /\ first_to 4 (snd (game_score g)) (fst (game_score g))).
Proof.
  intros H. unfold simulate_game, with_fuel in H.
  apply game_loop_first_win in H.
  destruct H as (pts & Hne & _ & Hscore & Hwin & Hfirst).
  destruct (first_win_shape 4 (map point_winner pts)) as (_ & S1 & S2).
  - destruct pts; [congruence | discriminate].
  - intros k Hk. rewrite length_map in Hk. rewrite firstn_map. now apply Hfirst.
  - rewrite <- Hscore in S1, S2.
    destruct Hwin as [(W & ? & ?) | (W & ? & ?)]; [left | right];
      (split; [exact W |]); [apply S1 | apply S2]; lia.
Qed.

Lemma simulate_game_score_shape_witness :
  (game_winner (mkGameResult 0 (0, 4)) = 1
   /\ first_to 4 (fst (game_score (mkGameResult 0 (0, 4))))
                 (snd (game_score (mkGameResult 0 (0, 4)))))
  \/ (game_winner (mkGameResult 0 (0, 4)) = 0
      /\ first_to 4 (snd (game_score (mkGameResult 0 (0, 4))))
                    (fst (game_score (mkGameResult 0 (0, 4))))).
Proof.
  apply (simulate_game_score_shape player1 (Some player2) None
           (mkSource break []) (mkGameResult 0 (0, 4)) (mkSource [] [])).
  vm_compute. reflexivity.
Defined.

(** X8: the score of a returned tiebreak to [to_points], whatever
    the target: the winner has exactly [to_points] with the loser at
    least two behind, or more with a lead of exactly two. *)
Theorem simulate_tiebreak_score_shape
    (p1 p2 : PlayerStats) (to_points : Z) (use_adjustment : option bool)
    (rs : RandomSource) (tb : TiebreakResult) (rs' : RandomSource) :
  simulate_tiebreak p1 p2 to_points use_adjustment rs = Ret tb rs' ->
  (tb_winner tb = 1
   /\ first_to to_points (fst (tb_score tb)) (snd (tb_score tb)))
  \/ (tb_winner tb = 2
      /\ first_to to_points (snd (tb_score tb)) (fst (tb_score tb))).
Proof.
  intros H. unfold simulate_tiebreak, with_fuel in H.
  apply tiebreak_loop_first_win in H.
  destruct H as (ws & Hne & _ & Hscore & Hwin & Hfirst).
  destruct (first_win_shape to_points ws Hne Hfirst) as (_ & S1 & S2).
  rewrite <- Hscore in S1, S2.
  destruct Hwin as [(W & ? & ?) | (W & ? & ?)]; [left | right];
    (split; [exact W |]); [apply S1 | apply S2]; lia.
Qed.

Lemma simulate_tiebreak_score_shape_witness :
  (tb_winner (mkTiebreakResult 1 (7, 0)) = 1
   /\ first_to 7 (fst (tb_score (mkTiebreakResult 1 (7, 0))))
                 (snd (tb_score (mkTiebreakResult 1 (7, 0)))))
  \/ (tb_winner (mkTiebreakResult 1 (7, 0)) = 2
      /\ first_to 7 (snd (tb_score (mkTiebreakResult 1 (7, 0))))
                    (fst (tb_score (mkTiebreakResult 1 (7, 0))))).
Proof.
  apply (simulate_tiebreak_score_shape player1 player2 7 None
           (mkSource tiebreak_7_0 []) (mkTiebreakResult 1 (7, 0)) (mkSource [] [])).
  vm_compute. reflexivity.
Defined.

(** *** Sets *)

Lemma in_tiebreak_set_scores_6 (l : Z) :
  0 <= l <= 4 -> In (6, l) tiebreak_set_scores /\ In (l, 6) tiebreak_set_scores.
Proof.
  intros H.
  assert (C : l = 0 \/ l = 1 \/ l = 2 \/ l = 3 \/ l = 4) by lia.
  destruct C as [-> | [-> | [-> | [-> | ->]]]]; cbn; auto 20.
Qed.

Section SetShape.

Variables (p1 p2 : PlayerStats) (tiebreak_at : Z) (final_set_tb : string)
          (use_adjustment : option bool).

(** The loop from a score that is not yet won: a set that ends without
    a tiebreak has the shape [first_to 6]; and with a tiebreak at six all
    in force, from a score within 6-6 short of it, every set ends on one
    of [tiebreak_set_scores]. *)
Lemma set_loop_shape (fuel : nat) : forall a b server rs s rs',
  set_loop fuel p1 p2 tiebreak_at final_set_tb use_adjustment a b server rs
    = Ret s rs' ->
  0 <= a -> 0 <= b -> won_by_two 6 (a, b) = false ->
  (tiebreak s = false ->
   (set_winner s = 1 /\ first_to 6 (fst (set_score s)) (snd (set_score s)))
   \/ (set_winner s = 2 /\ first_to 6 (snd (set_score s)) (fst (set_score s))))
  /\ (tiebreak_at = 6 -> (final_set_tb =? "none")%string = false ->
      a <= 6 -> b <= 6 -> ~ (a = 6 /\ b = 6) ->
      In (set_score s) tiebreak_set_scores
      /\ (tiebreak s = true <-> In (set_score s) [(7, 6); (6, 7)])).
Proof.
  induction fuel as [| fuel IH]; intros a b server rs s rs' H Ha Hb Hnot;
    [discriminate |].
  rewrite set_loop_step in H. apply bind_Ret in H.
  destruct H as (w & rs1 & Hw & H). cbv zeta in H.
  apply won_by_two_false_iff in Hnot.
  set (a' := if w =? 1 then a + 1 else a) in *.
  set (b' := if w =? 1 then b else b + 1) in *.
  assert (Hstep : (a' = a + 1 /\ b' = b) \/ (a' = a /\ b' = b + 1))
    by (subst a' b'; destruct (w =? 1); lia).
  destruct ((a' >=? 6) && (a' - b' >=? 2)) eqn:G1.
  { apply ret_Ret in H. destruct H as [<- <-]. apply ge2_true in G1.
    cbn [tiebreak set_winner set_score fst snd]. split.
    - intros _. left. split; [reflexivity |]. unfold first_to. lia.
    - intros _ _ Ha6 Hb6 H66.
      assert (C : (a' = 6 /\ 0 <= b' <= 4) \/ (a' = 7 /\ b' = 5)) by lia.
      destruct C as [(-> & Hl) | (-> & ->)].
      + split; [now apply in_tiebreak_set_scores_6 |].
        split; [discriminate |].
        intros [E | [E | []]]; inversion E; lia.
      + split; [cbn; auto 20 |]. split; [discriminate |].
        intros [E | [E | []]]; discriminate E. }
  destruct ((b' >=? 6) && (b' - a' >=? 2)) eqn:G2.
  { apply ret_Ret in H. destruct H as [<- <-]. apply ge2_true in G2.
    cbn [tiebreak set_winner set_score fst snd]. split.
    - intros _. right. split; [reflexivity |]. unfold first_to. lia.
    - intros _ _ Ha6 Hb6 H66.
      assert (C : (b' = 6 /\ 0 <= a' <= 4) \/ (b' = 7 /\ a' = 5)) by lia.
      destruct C as [(-> & Hl) | (-> & ->)].
      + split; [now apply in_tiebreak_set_scores_6 |].
        split; [discriminate |].
        intros [E | [E | []]]; inversion E; lia.
      + split; [cbn; auto 20 |]. split; [discriminate |].
        intros [E | [E | []]]; discriminate E. }
  apply ge2_false in G1, G2.
  assert (Hnot' : won_by_two 6 (a', b') = false)
    by (apply won_by_two_false_iff; lia).
  destruct ((a' =? tiebreak_at) && (b' =? tiebreak_at)) eqn:G3.
  - apply andb_true_iff in G3. destruct G3 as [Ga Gb].
    apply Z.eqb_eq in Ga, Gb.
    destruct (final_set_tb =? "none")%string eqn:Epol.
    + apply IH in H; [| lia | lia | exact Hnot'].
      destruct H as [S1 S2]. split; [exact S1 |].
      intros _ Hpol. discriminate Hpol.
    + apply bind_Ret in H. destruct H as (tb & rs2 & Htb & H).
      apply ret_Ret in H. destruct H as [<- <-].
      cbn [tiebreak set_winner set_score fst snd].
      split; [discriminate |]. intros Hta _ _ _ _.
      unfold simulate_tiebreak, with_fuel in Htb.
      apply tiebreak_loop_first_win in Htb.
      destruct Htb as (ws & _ & _ & _ & Hwinner & _).
      assert (Ea : a' = 6) by lia. assert (Eb : b' = 6) by lia.
      rewrite Ea, Eb.
      destruct Hwinner as [(W & _) | (W & _)]; rewrite W; cbn;
        (split; [auto 20 | split; auto]).
  - apply andb_false_iff in G3. rewrite !Z.eqb_neq in G3.
    apply IH in H; [| lia | lia | exact Hnot'].
    destruct H as [S1 S2]. split; [exact S1 |].
    intros Hta Hpol Ha6 Hb6 H66. apply S2; try assumption; lia.
Qed.

End SetShape.

(** X9: a set that ends without a tiebreak, whatever the policy and
    the tiebreak threshold (an advantage set included), is won at six
    games with the loser on four or fewer, or beyond six with a lead of
    exactly two. *)
Theorem simulate_set_score_shape
    (p1 p2 : PlayerStats) (first_server tiebreak_at : Z) (final_set_tb : string)
    (use_adjustment : option bool) (rs : RandomSource)
    (s : SetResult) (rs' : RandomSource) :
  simulate_set p1 p2 first_server tiebreak_at final_set_tb use_adjustment rs
    = Ret s rs' ->
  tiebreak s = false ->
  (set_winner s = 1 /\ first_to 6 (fst (set_score s)) (snd (set_score s)))
  \/ (set_winner s = 2 /\ first_to 6 (snd (set_score s)) (fst (set_score s))).
Proof.
  intros H. unfold simulate_set, with_fuel in H.
  apply set_loop_shape in H; [| lia | lia | reflexivity].
  exact (proj1 H).
Qed.

Lemma simulate_set_score_shape_witness :
  (set_winner (mkSetResult 1 (8, 6) false None) = 1
   /\ first_to 6 (fst (set_score (mkSetResult 1 (8, 6) false None)))
                 (snd (set_score (mkSetResult 1 (8, 6) false None))))
  \/ (set_winner (mkSetResult 1 (8, 6) false None) = 2
      /\ first_to 6 (snd (set_score (mkSetResult 1 (8, 6) false None)))
                    (fst (set_score (mkSetResult 1 (8, 6) false None)))).
Proof.
  apply (simulate_set_score_shape player1 player2 1 6 "none" None
           (mkSource set_8_6 []) (mkSetResult 1 (8, 6) false None)
           (mkSource [] [])).
  - vm_compute. reflexivity.
  - reflexivity.
Defined.

(** X10: with the tiebreak at six games all and any policy other
    than "none", a returned set has one of the fourteen scores 6-0 to
    6-4, 7-5 and 7-6 (either way round), and its tiebreak flag is set
    exactly on 7-6 and 6-7. *)
Theorem simulate_set_tiebreak_scores
    (p1 p2 : PlayerStats) (first_server : Z) (final_set_tb : string)
    (use_adjustment : option bool) (rs : RandomSource)
    (s : SetResult) (rs' : RandomSource) :
  (final_set_tb =? "none")%string = false ->
  simulate_set p1 p2 first_server 6 final_set_tb use_adjustment rs = Ret s rs' ->
  In (set_score s) tiebreak_set_scores
  /\ (tiebreak s = true <-> In (set_score s) [(7, 6); (6, 7)]).
Proof.
  intros Hpol H. unfold simulate_set, with_fuel in H.
  apply set_loop_shape in H; [| lia | lia | reflexivity].
  apply (proj2 H); try lia; exact Hpol.
Qed.

Lemma simulate_set_tiebreak_scores_witness :
  In (set_score (mkSetResult 1 (7, 6) true (Some (7, 0)))) tiebreak_set_scores
  /\ (tiebreak (mkSetResult 1 (7, 6) true (Some (7, 0))) = true
      <-> In (set_score (mkSetResult 1 (7, 6) true (Some (7, 0))))
             [(7, 6); (6, 7)]).
Proof.
  apply (simulate_set_tiebreak_scores player1 player2 1 "normal" None
           (mkSource set_7_6 []) (mkSetResult 1 (7, 6) true (Some (7, 0)))
           (mkSource [] [])).
  - reflexivity.
  - vm_compute. reflexivity.
Defined.

(** *** Matches *)

(** The winner of a returned set is the player with more games. *)
Lemma simulate_set_winner_score
    p1 p2 first_server tiebreak_at final_set_tb use_adjustment rs s rs' :
  simulate_set p1 p2 first_server tiebreak_at final_set_tb use_adjustment rs
    = Ret s rs' ->
  (set_winner s = 1 /\ fst (set_score s) > snd (set_score s))
  \/ (set_winner s = 2 /\ snd (set_score s) > fst (set_score s)).
Proof.
  intros H. unfold simulate_set, with_fuel in H. apply set_loop_ending in H.
  destruct H as (gs & rs1 & _ & _ & Hend).
  destruct Hend as [(_ & _ & _ & Hscore & Hwin)
                   | (_ & _ & Htie & tb & Htb & _ & Hw & Hscore)].
  - rewrite Hscore.
    destruct Hwin as [(W & ? & ?) | (W & ? & ?)]; [left | right];
      (split; [exact W | lia]).
  - unfold simulate_tiebreak, with_fuel in Htb.
    apply tiebreak_loop_first_win in Htb.
    destruct Htb as (ws & _ & _ & _ & Hwinner & _).
    rewrite Hscore, Htie, Hw, add_point_eq. cbn [fst snd].
    destruct Hwinner as [(W & _) | (W & _)]; rewrite W; cbn [Z.eqb Pos.eqb];
      [left | right]; (split; [reflexivity | lia]).
Qed.

Lemma sets_of_p1_cons (sc : Z * Z) (scores : list (Z * Z)) :
  sets_of_p1 (sc :: scores)
  = (if fst sc >? snd sc then 1 else 0) + sets_of_p1 scores.
Proof.
  unfold sets_of_p1. cbn [filter]. destruct (fst sc >? snd sc);
    cbn [List.length]; lia.
Qed.

Lemma sets_of_p2_cons (sc : Z * Z) (scores : list (Z * Z)) :
  sets_of_p2 (sc :: scores)
  = (if snd sc >? fst sc then 1 else 0) + sets_of_p2 scores.
Proof.
  unfold sets_of_p2. cbn [filter]. destruct (snd sc >? fst sc);
    cbn [List.length]; lia.
Qed.

Section MatchShape.

Variables (p1 p2 : PlayerStats) (sets_to_win : Z) (final_set_tb : string)
          (use_adjustment : option bool).

(** Along a run of sets the set counts are those read off the list of
    set scores, every set played under a tiebreak rule has one of
    [tiebreak_set_scores], and a set played under the caller's policy
    while deciding is the last one. *)
Lemma sets_played_scores score server rs sets score' server' rs' :
  sets_played p1 p2 sets_to_win final_set_tb use_adjustment
              score server rs sets score' server' rs' ->
  fst score' = fst score + sets_of_p1 (map set_score sets)
  /\ snd score' = snd score + sets_of_p2 (map set_score sets)
  /\ fst score' + snd score' = fst score + snd score + Z.of_nat (List.length sets)
  /\ ((final_set_tb =? "none")%string = false ->
      Forall (fun sc => In sc tiebreak_set_scores) (map set_score sets))
  /\ Forall (fun sc => In sc tiebreak_set_scores)
            (removelast (map set_score sets)).
Proof.
  induction 1 as [| a b server rs s rs1 sets score' server' rs' Ha Hb Hs Hrun IH].
  - unfold sets_of_p1, sets_of_p2. cbn. repeat split; try lia; constructor.
  - destruct IH as (I1 & I2 & I3 & I4 & I5).
    pose proof (simulate_set_winner_score _ _ _ _ _ _ _ _ _ Hs) as Hw.
    rewrite add_point_eq in I1, I2, I3. cbn [fst snd] in I1, I2, I3.
    cbn [map List.length]. rewrite sets_of_p1_cons, sets_of_p2_cons.
    assert (Hp1 : (if set_winner s =? 1 then a + 1 else a)
                  = a + (if fst (set_score s) >? snd (set_score s) then 1 else 0)).
    { destruct Hw as [(-> & L) | (-> & L)]; cbn [Z.eqb Pos.eqb].
      - rewrite (proj2 (Z.gtb_gt _ _)) by lia. reflexivity.
      - destruct (fst (set_score s) >? snd (set_score s)) eqn:E;
          [apply Z.gtb_gt in E; lia | lia]. }
    assert (Hp2 : (if set_winner s =? 1 then b else b + 1)
                  = b + (if snd (set_score s) >? fst (set_score s) then 1 else 0)).
    { destruct Hw as [(-> & L) | (-> & L)]; cbn [Z.eqb Pos.eqb].
      - destruct (snd (set_score s) >? fst (set_score s)) eqn:E;
          [apply Z.gtb_gt in E; lia | lia].
      - rewrite (proj2 (Z.gtb_gt _ _)) by lia. reflexivity. }
    cbn [fst snd]. split; [lia |]. split; [lia |].
    split; [clear Hp1 Hp2; destruct (set_winner s =? 1); lia |].
    unfold simulate_set, with_fuel in Hs.
    apply set_loop_shape in Hs; [| lia | lia | reflexivity].
    destruct Hs as [_ Hlegal].
    split.
    + intros Hpol. constructor; [| now apply I4].
      apply Hlegal; try lia.
      destruct ((a =? sets_to_win - 1) && (b =? sets_to_win - 1));
        [exact Hpol | reflexivity].
    + destruct ((a =? sets_to_win - 1) && (b =? sets_to_win - 1)) eqn:Hdec.
      * apply andb_true_iff in Hdec. rewrite !Z.eqb_eq in Hdec.
        inversion Hrun as [| a0 b0 ? ? ? ? ? ? ? ? Ha0 Hb0 _ _ Est]; subst.
        -- cbn. constructor.
        -- rewrite add_point_eq in Est. injection Est as E1 E2.
           destruct (set_winner s =? 1); lia.
      * destruct sets as [| s0 sets]; [cbn; constructor |].
        change (removelast (set_score s :: map set_score (s0 :: sets)))
          with (set_score s :: removelast (map set_score (s0 :: sets))).
        constructor; [| exact I5].
        apply Hlegal; try lia. reflexivity.
Qed.

End MatchShape.

(** X11: for a positive [best_of], a returned match has at least
    [ceil(best_of / 2)] and at most [best_of] sets, its list of set
    scores has one entry per set played, and its score can be read back
    from that list: player 1's sets are the entries with the larger first
    component, player 2's those with the larger second one. *)
Theorem simulate_match_set_count
    (p1 p2 : PlayerStats) (best_of : Z) (final_set_tb : string)
    (use_adjustment : option bool) (rs : RandomSource)
    (m : MatchResult) (rs' : RandomSource) :
  1 <= best_of ->
  simulate_match p1 p2 best_of final_set_tb use_adjustment rs = Ret m rs' ->
  Z.of_nat (List.length (set_scores m))
  = fst (match_score m) + snd (match_score m)
  /\ ceil_half best_of <= Z.of_nat (List.length (set_scores m)) <= best_of
  /\ fst (match_score m) = sets_of_p1 (set_scores m)
  /\ snd (match_score m) = sets_of_p2 (set_scores m).
Proof.
  intros Hbest H. apply simulate_match_inversion in H; [| exact Hbest].
  destruct H as (c & cs & sets & last_server & _ & Hrun & Hscores & _ & Hwin).
  apply sets_played_scores in Hrun.
  destruct Hrun as (I1 & I2 & I3 & _ & _). cbn [fst snd] in I1, I2, I3.
  rewrite Hscores, length_map, <- sets_to_win_ceil.
  assert (Hstw : 2 * ((best_of + 1) / 2) - 1 <= best_of)
    by (Z.div_mod_to_equations; lia).
  assert (N1 : 0 <= sets_of_p1 (map set_score sets)) by (unfold sets_of_p1; lia).
  assert (N2 : 0 <= sets_of_p2 (map set_score sets)) by (unfold sets_of_p2; lia).
  repeat split; try lia;
    destruct Hwin as [(_ & ? & ?) | (_ & ? & ?)]; lia.
Qed.

Lemma simulate_match_set_count_witness :
  Z.of_nat (List.length [(6, 0); (6, 0)]) = 2 + 0
  /\ ceil_half 3 <= Z.of_nat (List.length [(6, 0); (6, 0)]) <= 3
  /\ 2 = sets_of_p1 [(6, 0); (6, 0)]
  /\ 0 = sets_of_p2 [(6, 0); (6, 0)].
Proof.
  apply (simulate_match_set_count player1 player2 3 "normal" None
           (mkSource (set_6_0 ++ set_6_0) [true])
           (mkMatchResult 1 (2, 0) [(6, 0); (6, 0)] "6-0 6-0")
           (mkSource [] [])).
  - lia.
  - vm_compute. reflexivity.
Defined.

(** X12: in a returned match every set but the last has one of the
    fourteen scores of a tiebreak set, and so has the last one unless the
    final-set policy is "none": only a deciding advantage set can run
    past 7-5. *)
Theorem simulate_match_set_scores_legal
    (p1 p2 : PlayerStats) (best_of : Z) (final_set_tb : string)
    (use_adjustment : option bool) (rs : RandomSource)
    (m : MatchResult) (rs' : RandomSource) :
  1 <= best_of ->
  simulate_match p1 p2 best_of final_set_tb use_adjustment rs = Ret m rs' ->
  Forall (fun sc => In sc tiebreak_set_scores) (removelast (set_scores m))
  /\ ((final_set_tb =? "none")%string = false ->
      Forall (fun sc => In sc tiebreak_set_scores) (set_scores m)).
Proof.
  intros Hbest H. apply simulate_match_inversion in H; [| exact Hbest].
  destruct H as (c & cs & sets & last_server & _ & Hrun & Hscores & _ & _).
  apply sets_played_scores in Hrun.
  destruct Hrun as (_ & _ & _ & I4 & I5). rewrite Hscores. now split.
Qed.

Lemma simulate_match_set_scores_legal_witness :
  Forall (fun sc => In sc tiebreak_set_scores) (removelast [(0, 6); (0, 6)])
  /\ (("none" =? "none")%string = false ->
      Forall (fun sc => In sc tiebreak_set_scores) [(0, 6); (0, 6)]).
Proof.
  apply (simulate_match_set_scores_legal player1 player2 3 "none" None
           (mkSource (set_6_0 ++ set_6_0) [false])
           (mkMatchResult 2 (0, 2) [(0, 6); (0, 6)] "0-6 0-6")
           (mkSource [] [])).
  - lia.
  - vm_compute. reflexivity.
Defined.

(* ======================================================================= *)
(** ** What the result does not depend on *)
(* ======================================================================= *)

Lemma bind_congr {A B} (m m' : M A) (k k' : A -> M B) rs :
  m rs = m' rs -> (forall a rs1, k a rs1 = k' a rs1) ->
  bind m k rs = bind m' k' rs.
Proof.
  intros Hm Hk. unfold bind. rewrite Hm.
  destruct (m' rs) as [a rs1 | e |]; [apply Hk | reflexivity | reflexivity].
Qed.

Section Congruence.

(** Two pairs of players and two settings of the adjustment under which
    every point is played alike, whoever serves. *)
Variables (p1 p2 q1 q2 : PlayerStats) (adj adj' : option bool).
Hypothesis point_12 : forall rs,
  simulate_point p1 (Some p2) adj rs = simulate_point q1 (Some q2) adj' rs.
Hypothesis point_21 : forall rs,
  simulate_point p2 (Some p1) adj rs = simulate_point q2 (Some q1) adj' rs.

Lemma game_loop_congr server returner server' returner' (fuel : nat) :
  (forall rs, simulate_point server returner adj rs
              = simulate_point server' returner' adj' rs) ->
  forall a b rs,
  game_loop fuel server returner adj a b rs
  = game_loop fuel server' returner' adj' a b rs.
Proof.
  intros Hpt. induction fuel as [| fuel IH]; intros a b rs; [reflexivity |].
  cbn [game_loop]. apply bind_congr; [apply Hpt |].
  intros p rs1.
  repeat match goal with
  | |- context [if ?c && ?d then _ else _] => destruct (c && d)
  end; try reflexivity. apply IH.
Qed.

Lemma set_game_congr p1_serves rs :
  set_game p1 p2 adj p1_serves rs = set_game q1 q2 adj' p1_serves rs.
Proof.
  unfold set_game. destruct p1_serves;
    (apply bind_congr; [| reflexivity]); unfold simulate_game, with_fuel;
    now apply game_loop_congr.
Qed.

Lemma tiebreak_point_congr i rs :
  tiebreak_point p1 p2 adj i rs = tiebreak_point q1 q2 adj' i rs.
Proof.
  unfold tiebreak_point. destruct (tiebreak_server_is_p1 i);
    (apply bind_congr; [| reflexivity]); [apply point_12 | apply point_21].
Qed.

Lemma tiebreak_loop_congr to_points (fuel : nat) : forall a b i rs,
  tiebreak_loop fuel p1 p2 to_points adj a b i rs
  = tiebreak_loop fuel q1 q2 to_points adj' a b i rs.
Proof.
  induction fuel as [| fuel IH]; intros a b i rs; [reflexivity |].
  rewrite !tiebreak_loop_step. apply bind_congr; [apply tiebreak_point_congr |].
  intros w rs1. cbv zeta.
  repeat match goal with
  | |- context [if ?c && ?d then _ else _] => destruct (c && d)
  end; try reflexivity. apply IH.
Qed.

Lemma set_loop_congr tiebreak_at final_set_tb (fuel : nat) :
  forall a b server rs,
  set_loop fuel p1 p2 tiebreak_at final_set_tb adj a b server rs
  = set_loop fuel q1 q2 tiebreak_at final_set_tb adj' a b server rs.
Proof.
  induction fuel as [| fuel IH]; intros a b server rs; [reflexivity |].
  rewrite !set_loop_step. apply bind_congr; [apply set_game_congr |].
  intros w rs1. cbv zeta.
  repeat match goal with
  | |- context [if ?c && ?d then _ else _] => destruct (c && d)
  end; try reflexivity; try apply IH.
  destruct (final_set_tb =? "none")%string; [apply IH |].
  apply bind_congr; [| reflexivity].
  unfold simulate_tiebreak, with_fuel. apply tiebreak_loop_congr.
Qed.

Lemma match_loop_congr sets_to_win final_set_tb (fuel : nat) :
  forall a b scores server rs,
  match_loop fuel p1 p2 sets_to_win final_set_tb adj a b scores server rs
  = match_loop fuel q1 q2 sets_to_win final_set_tb adj' a b scores server rs.
Proof.
  induction fuel as [| fuel IH]; intros a b scores server rs; cbn [match_loop];
    destruct ((a <? sets_to_win) && (b <? sets_to_win)); try reflexivity.
  apply bind_congr; [| intros s rs1; apply IH].
  unfold simulate_set, with_fuel. apply set_loop_congr.
Qed.

Lemma simulate_match_congr best_of final_set_tb rs :
  simulate_match p1 p2 best_of final_set_tb adj rs
  = simulate_match q1 q2 best_of final_set_tb adj' rs.
Proof.
  unfold simulate_match. apply bind_congr; [reflexivity |].
  intros first_server rs0. apply bind_congr; [| reflexivity].
  unfold with_fuel. apply match_loop_congr.
Qed.

Lemma trials_congr best_of final_set_tb (n : nat) : forall w rs,
  trials n p1 p2 best_of final_set_tb adj w rs
  = trials n q1 q2 best_of final_set_tb adj' w rs.
Proof.
  induction n as [| n IH]; intros w rs; [reflexivity |].
  cbn [trials]. apply bind_congr; [apply simulate_match_congr |].
  intros m rs1. apply IH.
Qed.

Lemma estimate_congr seeded n best_of final_set_tb seed rs :
  estimate_win_probability seeded p1 p2 n best_of final_set_tb adj seed rs
  = estimate_win_probability seeded q1 q2 n best_of final_set_tb adj' seed rs.
Proof.
  unfold estimate_win_probability. apply bind_congr; [reflexivity |].
  intros [] rs0. apply bind_congr; [apply trials_congr | reflexivity].
Qed.

End Congruence.

Lemma simulate_point_adjustment_off server server' returner returner' rs :
  same_serve server server' ->
  simulate_point server returner (Some false) rs
  = simulate_point server' returner' (Some false) rs.
Proof.
  intros (E1 & E2 & E3 & E4 & E5). unfold simulate_point.
  rewrite E1, E2, E3, E4, E5.
  destruct returner, returner'; reflexivity.
Qed.

Lemma simulate_point_no_return_rates server returner adj adj' rs :
  no_return_rates returner ->
  simulate_point server (Some returner) adj rs
  = simulate_point server (Some returner) adj' rs.
Proof.
  intros (E1 & E2). unfold simulate_point. rewrite E1, E2.
  destruct adj as [[] |], adj' as [[] |]; reflexivity.
Qed.

(** X13: with the adjustment switched off, no return rate matters.
    Two pairs of players that agree on the five serve statistics give the
    same match, and the same estimate, draw for draw, whatever their
    return rates are, recorded or not. *)
Theorem adjustment_off_ignores_return_rates
    (seeded : Z -> RandomSource) (p1 p2 q1 q2 : PlayerStats) (n best_of : Z)
    (final_set_tb : string) (seed : option Z) (rs : RandomSource) :
  same_serve p1 q1 -> same_serve p2 q2 ->
  simulate_match p1 p2 best_of final_set_tb (Some false) rs
  = simulate_match q1 q2 best_of final_set_tb (Some false) rs
  /\ estimate_win_probability seeded p1 p2 n best_of final_set_tb (Some false)
       seed rs
     = estimate_win_probability seeded q1 q2 n best_of final_set_tb (Some false)
         seed rs.
Proof.
  intros H1 H2. split.
  - apply simulate_match_congr; intros rs0;
      now apply simulate_point_adjustment_off.
  - apply estimate_congr; intros rs0; now apply simulate_point_adjustment_off.
Qed.

Lemma adjustment_off_ignores_return_rates_witness :
  simulate_match player1 player2 3 "normal" (Some false)
    (mkSource (set_6_0 ++ set_6_0) [true])
  = simulate_match player1_no_rates player2_no_rates 3 "normal" (Some false)
      (mkSource (set_6_0 ++ set_6_0) [true])
  /\ estimate_win_probability sample_seeded player1 player2 1 3 "normal"
       (Some false) None (mkSource (set_6_0 ++ set_6_0) [true])
     = estimate_win_probability sample_seeded player1_no_rates player2_no_rates
         1 3 "normal" (Some false) None (mkSource (set_6_0 ++ set_6_0) [true]).
Proof.
  apply (adjustment_off_ignores_return_rates sample_seeded
           player1 player2 player1_no_rates player2_no_rates 1 3 "normal" None
           (mkSource (set_6_0 ++ set_6_0) [true]));
    repeat split.
Defined.

(** X14: when neither player has a return rate on record, the
    adjustment setting changes nothing: the match and the estimate are
    the same, draw for draw, with the adjustment on, off or left unset. *)
Theorem no_return_rates_ignore_adjustment
    (seeded : Z -> RandomSource) (p1 p2 : PlayerStats) (adj adj' : option bool)
    (n best_of : Z) (final_set_tb : string) (seed : option Z)
    (rs : RandomSource) :
  no_return_rates p1 -> no_return_rates p2 ->
  simulate_match p1 p2 best_of final_set_tb adj rs
  = simulate_match p1 p2 best_of final_set_tb adj' rs
  /\ estimate_win_probability seeded p1 p2 n best_of final_set_tb adj seed rs
     = estimate_win_probability seeded p1 p2 n best_of final_set_tb adj' seed rs.
Proof.
  intros H1 H2. split.
  - apply simulate_match_congr; intros rs0;
      now apply simulate_point_no_return_rates.
  - apply estimate_congr; intros rs0; now apply simulate_point_no_return_rates.
Qed.

Lemma no_return_rates_ignore_adjustment_witness :
  simulate_match player1_no_rates player2_no_rates 3 "normal" (Some true)
    (mkSource (set_6_0 ++ set_6_0) [true])
  = simulate_match player1_no_rates player2_no_rates 3 "normal" (Some false)
      (mkSource (set_6_0 ++ set_6_0) [true])
  /\ estimate_win_probability sample_seeded player1_no_rates player2_no_rates
       1 3 "normal" (Some true) None (mkSource (set_6_0 ++ set_6_0) [true])
     = estimate_win_probability sample_seeded player1_no_rates player2_no_rates
         1 3 "normal" (Some false) None (mkSource (set_6_0 ++ set_6_0) [true]).
Proof.
  apply (no_return_rates_ignore_adjustment sample_seeded
           player1_no_rates player2_no_rates (Some true) (Some false) 1 3
           "normal" None (mkSource (set_6_0 ++ set_6_0) [true]));
    split; reflexivity.
Defined.

(* ======================================================================= *)
(** ** The tiebreak rotation *)
(* ======================================================================= *)

(** X15: the rotation the tiebreak loop computes has period four
    from point 1 on, and starts with three points served by player 1:
    player 1 serves point 0 and the points whose index is 1 or 2 modulo
    4, player 2 those whose index is 3 or 0 modulo 4 from point 3 on. *)
Theorem tiebreak_rotation (i : Z) :
  0 <= i ->
  (tiebreak_server_is_p1 i = true <-> i = 0 \/ i mod 4 = 1 \/ i mod 4 = 2)
  /\ tiebreak_server_is_p1 (i + 4) = (if i =? 0 then false else tiebreak_server_is_p1 i).
Proof.
  intros Hi. unfold tiebreak_server_is_p1.
  destruct (i =? 0) eqn:E0.
  - apply Z.eqb_eq in E0. subst i. split; [split; auto | reflexivity].
  - apply Z.eqb_neq in E0.
    replace (i + 4 =? 0) with false by (symmetry; apply Z.eqb_neq; lia).
    split.
    + rewrite Z.eqb_eq. Z.div_mod_to_equations. lia.
    + apply eq_true_iff_eq. rewrite !Z.eqb_eq. Z.div_mod_to_equations. lia.
Qed.

Lemma tiebreak_rotation_witness :
  (tiebreak_server_is_p1 2 = true <-> 2 = 0 \/ 2 mod 4 = 1 \/ 2 mod 4 = 2)
  /\ tiebreak_server_is_p1 (2 + 4) = (if 2 =? 0 then false else tiebreak_server_is_p1 2).
Proof. apply (tiebreak_rotation 2). lia. Defined.

(* ======================================================================= *)
(** ** The average returner *)
(* ======================================================================= *)

Lemma add_zero_r (x : float) : (0 <? x)%float = true -> (x + 0 = x)%float.
Proof.
  intros H. apply Prim2SF_inj. rewrite add_spec, Binary64.Prim2SF_zero.
  rewrite ltb_spec, Binary64.Prim2SF_zero in H.
  destruct (Prim2SF x) as [[] | [] | | [] m e]; try discriminate H; reflexivity.
Qed.

Lemma clamp_inside (lo hi x : float) :
  (lo <=? x)%float = true -> (x <=? hi)%float = true -> clamp lo hi x = x.
Proof.
  intros Hlo Hhi. unfold clamp. rewrite Hhi.
  replace (x <? lo)%float with false; [reflexivity |].
  symmetry. revert Hlo. rewrite ltb_spec, leb_spec.
  generalize (Prim2SF x) (Prim2SF lo). intros a b Hlo. sf_order.
Qed.

Lemma clamp_average (lo hi x : float) :
  (0 <? lo)%float = true ->
  (lo <=? x)%float = true -> (x <=? hi)%float = true ->
  clamp lo hi (x + 0) = x.
Proof.
  intros H0 Hlo Hhi.
  rewrite add_zero_r; [now apply clamp_inside |].
  revert H0 Hlo. rewrite !ltb_spec, leb_spec.
  generalize (Prim2SF x) (Prim2SF lo) (Prim2SF 0%float). intros a b c H0 Hlo.
  sf_order.
Qed.

(** X16: a returner whose return rates are exactly the tour averages
    leaves untouched every serve rate that lies within the clamping
    bounds: against such a returner a server with [first_won_pct] in
    [0.3, 0.95] and [second_won_pct] in [0.2, 0.85] plays every point as
    if no returner were given, whatever the adjustment setting. *)
Theorem average_returner_is_neutral
    (server r : PlayerStats) (use_adjustment : option bool) (rs : RandomSource) :
  average_returner r ->
  (0.3 <=? first_won_pct server)%float = true ->
  (first_won_pct server <=? 0.95)%float = true ->
  (0.2 <=? second_won_pct server)%float = true ->
  (second_won_pct server <=? 0.85)%float = true ->
  simulate_point server (Some r) use_adjustment rs
  = simulate_point server None use_adjustment rs.
Proof.
  intros (E1 & E2) F1 F2 S1 S2. rewrite !simulate_point_unfold.
  assert (E : documented_point server (Some r) use_adjustment (uniforms rs)
              = documented_point server None use_adjustment (uniforms rs)).
  { unfold documented_point, documented_win_prob, returner_rate.
    rewrite E1, E2.
    destruct (adjustment_enabled use_adjustment); [| reflexivity].
    change (AVG_RETURN_VS_FIRST - AVG_RETURN_VS_FIRST)%float with 0%float.
    change (AVG_RETURN_VS_SECOND - AVG_RETURN_VS_SECOND)%float with 0%float.
    rewrite (clamp_average 0.3 0.95 (first_won_pct server) eq_refl F1 F2).
    rewrite (clamp_average 0.2 0.85 (second_won_pct server) eq_refl S1 S2).
    reflexivity. }
  rewrite E. reflexivity.
Qed.

Lemma average_returner_is_neutral_witness :
  simulate_point player1
    (Some (mkPlayerStats 0.65 0.72 0.50 0.05 0.04
             (Some AVG_RETURN_VS_FIRST) (Some AVG_RETURN_VS_SECOND)))
    None (mkSource [0.5; 0.5; 0.5]%float [])
  = simulate_point player1 None None (mkSource [0.5; 0.5; 0.5]%float []).
Proof.
  apply (average_returner_is_neutral player1
           (mkPlayerStats 0.65 0.72 0.50 0.05 0.04
              (Some AVG_RETURN_VS_FIRST) (Some AVG_RETURN_VS_SECOND))
           None (mkSource [0.5; 0.5; 0.5]%float []));
    try reflexivity.
  split; reflexivity.
Defined.

(* ======================================================================= *)
(** ** The errors of the estimator *)
(* ======================================================================= *)



